(** * JobPersonilisePortal: the scraper subsystem

    A shallow embedding of the scraper framework of the backend
    (base scraper, the two site scrapers, the registry and the scraper
    service) together with the properties of its specification.

    JavaScript strings are sequences of UTF-16 code units, numbers that
    are integers in the program are integers here, [undefined] is [None],
    and every effect of the program (the system clock, the network, the
    Job collection, timers, the random generator) is threaded through an
    explicit state. *)

From Stdlib Require Import ZArith NArith Lia List Bool Ascii String.
From stdpp Require Import base option list.
Import ListNotations.

Local Open Scope Z_scope.

(** ** JavaScript strings *)

Module JsString.

(** A string is its list of UTF-16 code units. *)
Definition jsstring := list N.

(** Literals of this file are written as UTF-8 text and decoded here. *)
Fixpoint utf8_decode (bs : list N) : jsstring :=
  match bs with
  | [] => []
  | b :: r =>
      if (b <? 128)%N then b :: utf8_decode r
      else if (b <? 224)%N then
        match r with
        | b1 :: r1 => ((b mod 32) * 64 + b1 mod 64)%N :: utf8_decode r1
        | _ => []
        end
      else if (b <? 240)%N then
        match r with
        | b1 :: b2 :: r2 =>
            ((b mod 16) * 4096 + (b1 mod 64) * 64 + b2 mod 64)%N :: utf8_decode r2
        | _ => []
        end
      else
        match r with
        | b1 :: b2 :: b3 :: r3 =>
            let cp := ((b mod 8) * 262144 + (b1 mod 64) * 4096
                       + (b2 mod 64) * 64 + b3 mod 64 - 65536)%N in
            (55296 + cp / 1024)%N :: (56320 + cp mod 1024)%N :: utf8_decode r3
        | _ => []
        end
  end.

Definition js (s : string) : jsstring :=
  utf8_decode (map N_of_ascii (list_ascii_of_string s)).
Arguments js : simpl never.

Definition eqb (a b : jsstring) : bool := bool_decide (a = b).

(** [!s] for a value that is a string or [undefined]. *)
Definition falsy (s : option jsstring) : bool :=
  match s with
  | None | Some [] => true
  | Some _ => false
  end.

Definition truthy (s : option jsstring) : bool := negb (falsy s).

(** [a || b] on strings. *)
Definition or_else (a : option jsstring) (b : jsstring) : jsstring :=
  match a with
  | Some (c :: s) => c :: s
  | _ => b
  end.

(** The class [\d]. *)
Definition isDigit (c : N) : bool := ((48 <=? c) && (c <=? 57))%N.

(** The class [\s]: WhiteSpace and LineTerminator code units. *)
Definition isSpace (c : N) : bool :=
  ((c =? 9) || (c =? 10) || (c =? 11) || (c =? 12) || (c =? 13) || (c =? 32)
   || (c =? 160) || (c =? 5760) || ((8192 <=? c) && (c <=? 8202))
   || (c =? 8232) || (c =? 8233) || (c =? 8239) || (c =? 8287)
   || (c =? 12288) || (c =? 65279))%N.

Definition isNewline (c : N) : bool := (c =? 10)%N.

(** Canonicalize of a pattern character under the [i] flag, on Latin-1;
    the patterns of the program only contain such characters, and no code
    unit outside Latin-1 canonicalizes to one of them. *)
Definition canonicalize (c : N) : N :=
  if ((97 <=? c) && (c <=? 122))%N then (c - 32)%N
  else if ((224 <=? c) && (c <=? 254) && negb (c =? 247))%N then (c - 32)%N
  else c.

Definition char_eq (ignoreCase : bool) (p c : N) : bool :=
  if ignoreCase then (canonicalize p =? canonicalize c)%N else (p =? c)%N.

(** [String.prototype.trim]. *)
Fixpoint trimStart (s : jsstring) : jsstring :=
  match s with
  | c :: r => if isSpace c then trimStart r else s
  | [] => []
  end.

Definition trimEnd (s : jsstring) : jsstring := rev (trimStart (rev s)).

Definition trim (s : jsstring) : jsstring := trimEnd (trimStart s).

(** [String.prototype.startsWith]. *)
Fixpoint startsWith (p s : jsstring) : bool :=
  match p, s with
  | [], _ => true
  | a :: p', b :: s' => (a =? b)%N && startsWith p' s'
  | _ :: _, [] => false
  end.

(** [s.substring(0, n)]. *)
Definition substring0 (n : nat) (s : jsstring) : jsstring := take n s.

(** [a] occurs in [s]. *)
Definition contains (a s : jsstring) : Prop := exists pre post, s = pre ++ a ++ post.

(** Decimal digits of a natural number, most significant first. *)
Fixpoint digits_aux (fuel : nat) (n : N) (acc : jsstring) : jsstring :=
  match fuel with
  | O => acc
  | S f =>
      let acc' := (48 + n mod 10)%N :: acc in
      if (n <? 10)%N then acc' else digits_aux f (n / 10)%N acc'
  end.

(** Number::toString of an integer. *)
Definition of_Z (z : Z) : jsstring :=
  let n := Z.to_N (Z.abs z) in
  let ds := digits_aux (S (N.to_nat (N.log2 n))) n [] in
  if z <? 0 then 45%N :: ds else ds.

Definition of_nat (n : nat) : jsstring := of_Z (Z.of_nat n).

(** [parts.join(sep)]. *)
Fixpoint join (sep : jsstring) (parts : list jsstring) : jsstring :=
  match parts with
  | [] => []
  | [p] => p
  | p :: rest => p ++ sep ++ join sep rest
  end.

End JsString.

Export JsString.

(** ** Regular expressions

    The fragment of the regular expressions the program uses: literals,
    the classes [\d] and [\s], greedy repetition of a class, sequence,
    alternation and capture groups, matched by backtracking. *)

Module Regex.

Inductive regex : Type :=
| Eps
| Chr (c : N)
| Star (p : N -> bool)
| Plus (p : N -> bool)
| Seq (r1 r2 : regex)
| Alt (r1 r2 : regex)
| Group (i : nat) (r : regex).

(** The literal text [s]. *)
Fixpoint Lit (s : jsstring) : regex :=
  match s with
  | [] => Eps
  | [c] => Chr c
  | c :: r => Seq (Chr c) (Lit r)
  end.

Definition captures := list (nat * jsstring).

Definition capture (i : nat) (cs : captures) : option jsstring :=
  snd <$> List.find (fun p => Nat.eqb (fst p) i) cs.

Section Matcher.
Context {R : Type}.

(** Greedy [p*]: the longest run first, then shorter ones. *)
Fixpoint star (p : N -> bool) (s : jsstring) (k : jsstring -> option R) : option R :=
  match s with
  | c :: s' =>
      if p c then
        match star p s' k with
        | Some x => Some x
        | None => k s
        end
      else k s
  | [] => k s
  end.

Fixpoint rmatch (ic : bool) (r : regex) (s : jsstring) (cs : captures)
    (k : jsstring -> captures -> option R) : option R :=
  match r with
  | Eps => k s cs
  | Chr c =>
      match s with
      | d :: s' => if char_eq ic c d then k s' cs else None
      | [] => None
      end
  | Star p => star p s (fun s' => k s' cs)
  | Plus p =>
      match s with
      | d :: s' => if p d then star p s' (fun s'' => k s'' cs) else None
      | [] => None
      end
  | Seq r1 r2 => rmatch ic r1 s cs (fun s' cs' => rmatch ic r2 s' cs' k)
  | Alt r1 r2 =>
      match rmatch ic r1 s cs k with
      | Some x => Some x
      | None => rmatch ic r2 s cs k
      end
  | Group i r1 =>
      rmatch ic r1 s cs
        (fun s' cs' => k s' ((i, take (length s - length s') s) :: cs'))
  end.
End Matcher.

(** A match at the start of [s]: what is left of [s], and the groups. *)
Definition match_here (ic : bool) (r : regex) (s : jsstring)
  : option (jsstring * captures) :=
rmatch ic r s [] (fun s' cs => Some (s', cs)).

(** [s.match(r)] for a regular expression without the [g] flag: the groups
  of the leftmost match. *)
Fixpoint exec (ic : bool) (r : regex) (s : jsstring) : option captures :=
match match_here ic r s with
| Some (_, cs) => Some cs
| None =>
    match s with
    | [] => None
    | _ :: s' => exec ic r s'
    end
end.

(** [s.replace(r, by)] for a regular expression with the [g] flag. *)
Fixpoint replace_fuel (fuel : nat) (ic : bool) (r : regex) (by_ : jsstring)
  (s : jsstring) : jsstring :=
match fuel with
| O => s
| S f =>
    match match_here ic r s, s with
    | Some (rest, _), c :: s' =>
        if (length rest <? length s)%nat
        then by_ ++ replace_fuel f ic r by_ rest
        else by_ ++ c :: replace_fuel f ic r by_ s'
    | Some _, [] => by_
    | None, c :: s' => c :: replace_fuel f ic r by_ s'
    | None, [] => []
    end
end.

Definition replaceAll (ic : bool) (r : regex) (by_ : jsstring) (s : jsstring) : jsstring :=
replace_fuel (S (length s)) ic r by_ s.

End Regex.

Export Regex.

(** ** Dates

  A [Date] object is its time value in milliseconds since the epoch, or
  [None] for an Invalid Date (a NaN time value).  The functions follow
  the abstract operations of ECMAScript; local time is at a fixed offset
  [tza] from UTC. *)

Module JsDate.

Definition Date := option Z.

(** A number that may be NaN. *)
Definition number := option Z.

Definition msPerDay : Z := 86400000.
Definition msPerHour : Z := 3600000.
Definition msPerMinute : Z := 60000.
Definition msPerSecond : Z := 1000.

Definition Day (t : Z) : Z := t / msPerDay.
Definition TimeWithinDay (t : Z) : Z := t mod msPerDay.

Definition isLeap (y : Z) : bool :=
((y mod 4 =? 0) && negb (y mod 100 =? 0)) || (y mod 400 =? 0).

Definition DayFromYear (y : Z) : Z :=
365 * (y - 1970) + (y - 1969) / 4 - (y - 1901) / 100 + (y - 1601) / 400.

(** The largest year whose first day is not after [t]. *)
Definition YearFromTime (t : Z) : Z :=
let d := Day t in
let y := 1970 + d * 400 / 146097 in
if d <? DayFromYear y then y - 1
else if DayFromYear (y + 1) <=? d then y + 1
else y.

Definition DayWithinYear (t : Z) : Z := Day t - DayFromYear (YearFromTime t).

(** Days of the year before the first day of month [m] (0 is January). *)
Definition daysBeforeMonth (leap : bool) (m : Z) : Z :=
let l := if leap then 1 else 0 in
match m with
| 0 => 0 | 1 => 31 | 2 => 59 + l | 3 => 90 + l | 4 => 120 + l
| 5 => 151 + l | 6 => 181 + l | 7 => 212 + l | 8 => 243 + l
| 9 => 273 + l | 10 => 304 + l | _ => 334 + l
end.

Definition MonthFromTime (t : Z) : Z :=
let leap := isLeap (YearFromTime t) in
let d := DayWithinYear t in
let before m := d <? daysBeforeMonth leap m in
if before 1 then 0 else if before 2 then 1 else if before 3 then 2
else if before 4 then 3 else if before 5 then 4 else if before 6 then 5
else if before 7 then 6 else if before 8 then 7 else if before 9 then 8
else if before 10 then 9 else if before 11 then 10 else 11.

Definition DateFromTime (t : Z) : Z :=
DayWithinYear t - daysBeforeMonth (isLeap (YearFromTime t)) (MonthFromTime t) + 1.

Definition HourFromTime (t : Z) : Z := (t / msPerHour) mod 24.
Definition MinFromTime (t : Z) : Z := (t / msPerMinute) mod 60.
Definition SecFromTime (t : Z) : Z := (t / msPerSecond) mod 60.
Definition msFromTime (t : Z) : Z := t mod msPerSecond.

Definition MakeTime (h m s ms : Z) : Z :=
h * msPerHour + m * msPerMinute + s * msPerSecond + ms.

Definition MakeDay (year month date : Z) : Z :=
let ym := year + month / 12 in
let mn := month mod 12 in
DayFromYear ym + daysBeforeMonth (isLeap ym) mn + date - 1.

Definition MakeDate (day time : Z) : Z := day * msPerDay + time.

Definition TimeClip (t : Z) : Date :=
if Z.abs t <=? 8640000000000000 then Some t else None.

Section Local.
(** Offset of local time from UTC, in milliseconds. *)
Variable tza : Z.

Definition LocalTime (t : Z) : Z := t + tza.
Definition UTC (t : Z) : Z := t - tza.

Definition getDate (d : Date) : number := DateFromTime ∘ LocalTime <$> d.
Definition getHours (d : Date) : number := HourFromTime ∘ LocalTime <$> d.
Definition getMonth (d : Date) : number := MonthFromTime ∘ LocalTime <$> d.

Definition setDate (d : Date) (date : number) : Date :=
  match d, date with
  | Some tv, Some dt =>
      let t := LocalTime tv in
      TimeClip (UTC (MakeDate (MakeDay (YearFromTime t) (MonthFromTime t) dt)
                              (TimeWithinDay t)))
  | _, _ => None
  end.

Definition setHours (d : Date) (hour : number) : Date :=
  match d, hour with
  | Some tv, Some h =>
      let t := LocalTime tv in
      TimeClip (UTC (MakeDate (Day t)
                              (MakeTime h (MinFromTime t) (SecFromTime t) (msFromTime t))))
  | _, _ => None
  end.

Definition setMonth (d : Date) (month : number) : Date :=
  match d, month with
  | Some tv, Some m =>
      let t := LocalTime tv in
      TimeClip (UTC (MakeDate (MakeDay (YearFromTime t) m (DateFromTime t))
                              (TimeWithinDay t)))
  | _, _ => None
  end.
End Local.

(** [a - b] and [a * b] on numbers. *)
Definition sub (a b : number) : number :=
match a, b with Some x, Some y => Some (x - y) | _, _ => None end.
Definition mul (a b : number) : number :=
match a, b with Some x, Some y => Some (x * y) | _, _ => None end.

(** The longest prefix of decimal digits. *)
Fixpoint leadingDigits (s : jsstring) : jsstring :=
match s with
| c :: r => if isDigit c then c :: leadingDigits r else []
| [] => []
end.

(** The value of a string of decimal digits. *)
Definition digitsValue (s : jsstring) : Z :=
fold_left (fun acc c => 10 * acc + (Z.of_N c - 48)) s 0.

(** [parseInt(s)] where [s] is [undefined] or a string: leading white space
  is skipped, a sign is read, then the longest prefix of decimal digits;
  NaN when there is none.  (The strings the program passes are [\d+]
  captures; the hexadecimal prefix cannot occur in them.) *)
Definition parseInt (s : option jsstring) : number :=
match s with
| None => None
| Some s =>
    let s := trimStart s in
    let '(neg, s) :=
      match s with
      | 45%N :: r => (true, r)
      | 43%N :: r => (false, r)
      | _ => (false, s)
      end in
    let ds := leadingDigits s in
    match ds with
    | [] => None
    | _ => Some (if neg : bool then - digitsValue ds else digitsValue ds)
    end
end.

End JsDate.

Export JsDate.

(** ** Effects

  A computation reads and updates a state and either returns a value or
  throws; what it did to the state before throwing stays done. *)

Module Eff.

Inductive Result (A : Type) : Type :=
| Ok (a : A)
| Throw (message : jsstring).
Arguments Ok {A} a.
Arguments Throw {A} message.

Definition M (S A : Type) : Type := S -> Result A * S.

Definition ret {S A} (a : A) : M S A := fun s => (Ok a, s).

Definition bind {S A B} (m : M S A) (k : A -> M S B) : M S B :=
fun s =>
  match m s with
  | (Ok a, s') => k a s'
  | (Throw e, s') => (Throw e, s')
  end.

Definition throw {S A} (message : jsstring) : M S A := fun s => (Throw message, s).

(** [try { m } catch (error) { h error.message }] *)
Definition try_catch {S A} (m : M S A) (h : jsstring -> M S A) : M S A :=
fun s =>
  match m s with
  | (Ok a, s') => (Ok a, s')
  | (Throw e, s') => h e s'
  end.

Definition get {S} : M S S := fun s => (Ok s, s).
Definition gets {S A} (f : S -> A) : M S A := fun s => (Ok (f s), s).
Definition modify {S} (f : S -> S) : M S unit := fun s => (Ok tt, f s).

Definition when {S} (b : bool) (m : M S unit) : M S unit :=
if b then m else ret tt.

(** A computation on the second component of a pair of states. *)
Definition on_snd {S T A} (m : M T A) : M (S * T) A :=
fun st =>
  match m (snd st) with
  | (r, t') => (r, (fst st, t'))
  end.

Definition on_fst {S T A} (m : M S A) : M (S * T) A :=
fun st =>
  match m (fst st) with
  | (r, s') => (r, (s', snd st))
  end.

Definition result {S A} (m : M S A) (s : S) : Result A := fst (m s).
Definition final {S A} (m : M S A) (s : S) : S := snd (m s).

(** The value returned, if any. *)
Definition value {A} (r : Result A) : option A :=
match r with
| Ok a => Some a
| Throw _ => None
end.

End Eff.

Export Eff.

Notation "x <- m ;; k" := (bind m (fun x => k))
(at level 20, m at level 99, k at level 200, only parsing).
Notation "m ;; k" := (bind m (fun _ => k))
(at level 100, k at level 200, only parsing, right associativity).

(** ** [Map] objects

  A [Map] keeps its entries in insertion order; [set] on a key that is
  present replaces the value in place. *)

Module JsMap.

Section Map.
Context {V : Type}.

Definition t := list (jsstring * V).

Fixpoint mget (k : jsstring) (m : t) : option V :=
  match m with
  | [] => None
  | (k', v) :: r => if JsString.eqb k k' then Some v else mget k r
  end.

Fixpoint mset (k : jsstring) (v : V) (m : t) : t :=
  match m with
  | [] => [(k, v)]
  | (k', v') :: r =>
      if JsString.eqb k k' then (k', v) :: r else (k', v') :: mset k v r
  end.

Fixpoint mdelete (k : jsstring) (m : t) : t :=
  match m with
  | [] => []
  | (k', v') :: r =>
      if JsString.eqb k k' then mdelete k r else (k', v') :: mdelete k r
  end.

Definition mkeys (m : t) : list jsstring := map fst m.
Definition mhas (k : jsstring) (m : t) : bool := bool_decide (is_Some (mget k m)).
Definition msize (m : t) : nat := length m.
End Map.

Arguments t : clear implicits.

End JsMap.

Export JsMap.

(** ** Data model *)

(** A value that may be [undefined], [null] or an object. *)
Inductive Nullable (A : Type) : Type :=
| Undefined
| Null
| Obj (a : A).
Arguments Undefined {A}.
Arguments Null {A}.
Arguments Obj {A} a.

(** [n || d] on numbers. *)
Definition number_or (n : option Z) (d : Z) : Z :=
match n with
| None | Some 0 => d
| Some v => v
end.

(** A job object: a raw listing, a cleaned one or a stored document.  A
  field that is absent is [None]; [tags] is [None] when it is not an
  array; [postedAt] holds a [Date], which may be invalid. *)
Record Job : Type := {
title : option jsstring;
company : option jsstring;
location : option jsstring;
description : option jsstring;
source : option jsstring;
applyLink : option jsstring;
externalId : option jsstring;
tags : option (list jsstring);
postedAt : option Date
}.

(** The entries of a scraper's [errors] list: [{error, stack}] pushed by
  [scrape], [{index, error}] by [extractJobsFromPage], [{job, error}] by
  [saveJobs]. *)
Inductive ErrorEntry : Type :=
| ScrapeError (message : jsstring)
| ExtractError (index : nat) (message : jsstring)
| SaveError (job : Job) (message : jsstring).

(** [total] is absent from the object [saveJobs] returns for no jobs. *)
Record Stats : Type := {
saved : Z;
duplicates : Z;
failed : Z;
total : option Z
}.

Record ScrapeResult : Type := {
success : bool;
jobs : list Job;
stats : Stats;
errors : list ErrorEntry
}.

(** The configuration object of a scraper; a property a JSON body does not
  carry is [None]. *)
Record Config : Type := {
cfg_baseUrl : option jsstring;
cfg_source : option jsstring;
cfg_timeout : option Z;
cfg_maxRetries : option Z;
cfg_delayBetweenRequests : option Z;
cfg_userAgent : option jsstring;
cfg_jobsPerPage : option Z
}.

Definition emptyConfig : Config :=
{| cfg_baseUrl := None; cfg_source := None; cfg_timeout := None;
   cfg_maxRetries := None; cfg_delayBetweenRequests := None;
   cfg_userAgent := None; cfg_jobsPerPage := None |}.

(** [{...d, ...c}]: the properties of [c] win. *)
Definition spread (d c : Config) : Config :=
let pick {A} (x y : option A) := match x with Some v => Some v | None => y end in
{| cfg_baseUrl := pick (cfg_baseUrl c) (cfg_baseUrl d);
   cfg_source := pick (cfg_source c) (cfg_source d);
   cfg_timeout := pick (cfg_timeout c) (cfg_timeout d);
   cfg_maxRetries := pick (cfg_maxRetries c) (cfg_maxRetries d);
   cfg_delayBetweenRequests :=
     pick (cfg_delayBetweenRequests c) (cfg_delayBetweenRequests d);
   cfg_userAgent := pick (cfg_userAgent c) (cfg_userAgent d);
   cfg_jobsPerPage := pick (cfg_jobsPerPage c) (cfg_jobsPerPage d) |}.

(** The options of a scrape: [{query, location, maxPages, config}]. *)
Record Options : Type := {
o_query : option jsstring;
o_location : option jsstring;
o_maxPages : option Z;
o_config : Nullable Config
}.

Definition noOptions : Options :=
{| o_query := None; o_location := None; o_maxPages := None; o_config := Undefined |}.

Inductive ScraperClass : Type :=
| JobPortalScraper
| OficinaDeTrabajoCeiScraper
| LinkedInJobsScraper.

(** A scraper instance. *)
Record Scraper : Type := {
sc_class : ScraperClass;
sc_baseUrl : jsstring;
sc_source : jsstring;
sc_timeout : Z;
sc_maxRetries : Z;
sc_delayBetweenRequests : Z;
sc_userAgent : jsstring;
sc_jobs : list Job;
sc_errors : list ErrorEntry;
sc_searchEndpoint : option jsstring;
sc_jobsPerPage : option Z
}.

Definition set_jobs (f : list Job -> list Job) (s : Scraper) : Scraper :=
{| sc_class := sc_class s; sc_baseUrl := sc_baseUrl s; sc_source := sc_source s;
   sc_timeout := sc_timeout s; sc_maxRetries := sc_maxRetries s;
   sc_delayBetweenRequests := sc_delayBetweenRequests s;
   sc_userAgent := sc_userAgent s; sc_jobs := f (sc_jobs s);
   sc_errors := sc_errors s; sc_searchEndpoint := sc_searchEndpoint s;
   sc_jobsPerPage := sc_jobsPerPage s |}.

Definition set_errors (f : list ErrorEntry -> list ErrorEntry) (s : Scraper) : Scraper :=
{| sc_class := sc_class s; sc_baseUrl := sc_baseUrl s; sc_source := sc_source s;
   sc_timeout := sc_timeout s; sc_maxRetries := sc_maxRetries s;
   sc_delayBetweenRequests := sc_delayBetweenRequests s;
   sc_userAgent := sc_userAgent s; sc_jobs := sc_jobs s;
   sc_errors := f (sc_errors s); sc_searchEndpoint := sc_searchEndpoint s;
   sc_jobsPerPage := sc_jobsPerPage s |}.

(** A parsed page, seen through the selector queries the scrapers make. *)
Record Element : Type := {
(** [$(el).find(selector).text()] *)
find_text : jsstring -> jsstring;
(** [$(el).find(selector).attr(name)] *)
find_attr : jsstring -> jsstring -> option jsstring;
(** [$(c).text()] for each [c] of [$(el).find(selector)] *)
find_each_text : jsstring -> list jsstring;
(** [$(el).attr(name)] *)
own_attr : jsstring -> option jsstring
}.

Record Html : Type := {
(** the elements of [$(selector)] *)
select : jsstring -> list Element;
(** [$(selector).text()] *)
text_of : jsstring -> jsstring;
(** [$(selector).attr(name)] *)
attr_of : jsstring -> jsstring -> option jsstring
}.

(** An [axios.get] call and its outcome. *)
Record Request : Type := {
req_url : jsstring;
req_timeout : Z;
req_userAgent : jsstring
}.

Inductive Response : Type :=
| Rejected (message : jsstring)
| Data (html : Html).

(** One record of the service's history. *)
Record HistoryEntry : Type := {
h_id : jsstring;
h_scraperName : jsstring;
h_startTime : Z;
h_endTime : Z;
h_duration : Z;
h_success : bool;
h_stats : option Stats;
h_errorCount : option Z;
h_error : option jsstring
}.

Record ActiveInfo : Type := {
a_scraperName : jsstring;
a_startTime : Z;
a_status : jsstring
}.

(** What the program does not decide: the readings of the system clock,
  the random suffixes, the answers of the network, the failures of the
  database, and the built-ins whose result depends on Unicode tables, on
  the URL parser or on the Date parser of the platform. *)
Record Env : Type := {
(** the [k]-th reading of the clock, in milliseconds *)
clock : nat -> Z;
(** the [k]-th [Math.random().toString(36).substring(2, 7)] *)
random : nat -> jsstring;
(** the outcome of the [k]-th request *)
net : nat -> Request -> Response;
(** the message with which the [k]-th [Job.updateOne] is rejected *)
dbfault : nat -> option jsstring;
toLowerCase : jsstring -> jsstring;
(** [new URL(path, base)] with the search parameters appended, as a
    string; [None] when the URL is invalid *)
newURL : jsstring -> jsstring -> list (jsstring * jsstring) -> option jsstring;
(** [new Date(text)] *)
parseDate : jsstring -> Date;
(** offset of local time, in milliseconds *)
tza : Z
}.

(** The state the program changes. *)
Record World : Type := {
reads : nat;
draws : nat;
requests : list Request;
timers : list Z;
dbcalls : list Job;
collection : list Job;
heap : list Scraper;
registry : JsMap.t ScraperClass;
activeScrapes : JsMap.t ActiveInfo;
scrapeHistory : list HistoryEntry
}.

Definition set_reads (f : nat -> nat) (w : World) : World :=
{| reads := f (reads w); draws := draws w; requests := requests w;
   timers := timers w; dbcalls := dbcalls w; collection := collection w;
   heap := heap w; registry := registry w; activeScrapes := activeScrapes w;
   scrapeHistory := scrapeHistory w |}.

Definition set_draws (f : nat -> nat) (w : World) : World :=
{| reads := reads w; draws := f (draws w); requests := requests w;
   timers := timers w; dbcalls := dbcalls w; collection := collection w;
   heap := heap w; registry := registry w; activeScrapes := activeScrapes w;
   scrapeHistory := scrapeHistory w |}.

Definition set_requests (f : list Request -> list Request) (w : World) : World :=
{| reads := reads w; draws := draws w; requests := f (requests w);
   timers := timers w; dbcalls := dbcalls w; collection := collection w;
   heap := heap w; registry := registry w; activeScrapes := activeScrapes w;
   scrapeHistory := scrapeHistory w |}.

Definition set_timers (f : list Z -> list Z) (w : World) : World :=
{| reads := reads w; draws := draws w; requests := requests w;
   timers := f (timers w); dbcalls := dbcalls w; collection := collection w;
   heap := heap w; registry := registry w; activeScrapes := activeScrapes w;
   scrapeHistory := scrapeHistory w |}.

Definition set_dbcalls (f : list Job -> list Job) (w : World) : World :=
{| reads := reads w; draws := draws w; requests := requests w;
   timers := timers w; dbcalls := f (dbcalls w); collection := collection w;
   heap := heap w; registry := registry w; activeScrapes := activeScrapes w;
   scrapeHistory := scrapeHistory w |}.

Definition set_collection (f : list Job -> list Job) (w : World) : World :=
{| reads := reads w; draws := draws w; requests := requests w;
   timers := timers w; dbcalls := dbcalls w; collection := f (collection w);
   heap := heap w; registry := registry w; activeScrapes := activeScrapes w;
   scrapeHistory := scrapeHistory w |}.

Definition set_heap (f : list Scraper -> list Scraper) (w : World) : World :=
{| reads := reads w; draws := draws w; requests := requests w;
   timers := timers w; dbcalls := dbcalls w; collection := collection w;
   heap := f (heap w); registry := registry w; activeScrapes := activeScrapes w;
   scrapeHistory := scrapeHistory w |}.

Definition set_registry (f : JsMap.t ScraperClass -> JsMap.t ScraperClass)
  (w : World) : World :=
{| reads := reads w; draws := draws w; requests := requests w;
   timers := timers w; dbcalls := dbcalls w; collection := collection w;
   heap := heap w; registry := f (registry w); activeScrapes := activeScrapes w;
   scrapeHistory := scrapeHistory w |}.

Definition set_activeScrapes (f : JsMap.t ActiveInfo -> JsMap.t ActiveInfo)
  (w : World) : World :=
{| reads := reads w; draws := draws w; requests := requests w;
   timers := timers w; dbcalls := dbcalls w; collection := collection w;
   heap := heap w; registry := registry w; activeScrapes := f (activeScrapes w);
   scrapeHistory := scrapeHistory w |}.

Definition set_scrapeHistory (f : list HistoryEntry -> list HistoryEntry)
  (w : World) : World :=
{| reads := reads w; draws := draws w; requests := requests w;
   timers := timers w; dbcalls := dbcalls w; collection := collection w;
   heap := heap w; registry := registry w; activeScrapes := activeScrapes w;
   scrapeHistory := f (scrapeHistory w) |}.

(** ** The effects of the platform *)

Section Primitives.
Variable E : Env.

(** [Date.now()], and the time value of [new Date()]. *)
Definition now : M World Z :=
  fun w => (Ok (clock E (reads w)), set_reads S w).

(** [Math.random().toString(36).substring(2, 7)] *)
Definition randomSuffix : M World jsstring :=
  fun w => (Ok (random E (draws w)), set_draws S w).

(** [await axios.get(url, {timeout, headers})], giving [response.data]. *)
Definition axios_get (rq : Request) : M World Html :=
  fun w =>
    let w' := set_requests (fun l => l ++ [rq]) w in
    match net E (length (requests w)) rq with
    | Rejected message => (Throw message, w')
    | Data html => (Ok html, w')
    end.

(** [await new Promise(resolve => setTimeout(resolve, ms))] *)
Definition setTimeout (ms : Z) : M World unit :=
  modify (set_timers (fun l => l ++ [ms])).

Record UpdateResult : Type := {
  upsertedCount : Z;
  matchedCount : Z
}.

(** [$set]: the fields given replace those of the document. *)
Definition assign (doc fields : Job) : Job :=
  let pick {A} (x y : option A) := match x with Some v => Some v | None => y end in
  {| title := pick (title fields) (title doc);
     company := pick (company fields) (company doc);
     location := pick (location fields) (location doc);
     description := pick (description fields) (description doc);
     source := pick (source fields) (source doc);
     applyLink := pick (applyLink fields) (applyLink doc);
     externalId := pick (externalId fields) (externalId doc);
     tags := pick (tags fields) (tags doc);
     postedAt := pick (postedAt fields) (postedAt doc) |}.

Definition hasExternalId (id : option jsstring) (doc : Job) : bool :=
  bool_decide (externalId doc = id).

(** The first document that matches is updated. *)
Fixpoint updateFirst (id : option jsstring) (fields : Job) (docs : list Job)
    : option (list Job) :=
  match docs with
  | [] => None
  | d :: r =>
      if hasExternalId id d then Some (assign d fields :: r)
      else cons d <$> updateFirst id fields r
  end.

Definition newDocument (id : option jsstring) : Job :=
  {| title := None; company := None; location := None; description := None;
     source := None; applyLink := None; externalId := id; tags := None;
     postedAt := None |}.

(** [await Job.updateOne({externalId: id}, {$set: fields}, {upsert: true})] *)
Definition updateOne (id : option jsstring) (fields : Job) : M World UpdateResult :=
  fun w =>
    let w' := set_dbcalls (fun l => l ++ [fields]) w in
    match dbfault E (length (dbcalls w)) with
    | Some message => (Throw message, w')
    | None =>
        match updateFirst id fields (collection w) with
        | Some docs =>
            (Ok {| upsertedCount := 0; matchedCount := 1 |},
             set_collection (fun _ => docs) w')
        | None =>
            (Ok {| upsertedCount := 1; matchedCount := 0 |},
             set_collection (fun l => l ++ [assign (newDocument id) fields]) w')
        end
    end.
End Primitives.

(** ** JobPortalScraper: the base class *)

Module Base.

(** The methods run on an instance and on the world. *)
Definition SM (A : Type) : Type := M (Scraper * World) A.

Definition this : SM Scraper := gets fst.

Section Methods.
Variable E : Env.

(** [constructor(config = {})] *)
Definition construct (cls : ScraperClass) (config : Config) : Scraper :=
  {| sc_class := cls;
     sc_baseUrl := or_else (cfg_baseUrl config) [];
     sc_source := or_else (cfg_source config) (js "Unknown");
     sc_timeout := number_or (cfg_timeout config) 10000;
     sc_maxRetries := number_or (cfg_maxRetries config) 3;
     sc_delayBetweenRequests := number_or (cfg_delayBetweenRequests config) 1000;
     sc_userAgent :=
       or_else (cfg_userAgent config)
         (js "Mozilla/5.0 (Windows NT 10.0; Win64; x64) AppleWebKit/537.36");
     sc_jobs := [];
     sc_errors := [];
     sc_searchEndpoint := None;
     sc_jobsPerPage := None |}.

(** [scrape] of the base class. *)
Definition scrape (options : Options) : SM ScrapeResult :=
  throw (js "scrape() method must be implemented by child class").

Definition delay (ms : Z) : SM unit := on_snd (setTimeout ms).

(** What [fetchPage] throws once its loop is over. *)
Definition fetchFailed (url : jsstring) (maxRetries : Z)
    (lastError : option jsstring) : SM Html :=
  match lastError with
  | Some message =>
      throw (js "Failed to fetch " ++ url ++ js " after " ++ of_Z maxRetries
             ++ js " attempts: " ++ message)
  | None => throw (js "Cannot read properties of undefined (reading 'message')")
  end.

(** The loop of [fetchPage], from [attempt] on. *)
Fixpoint fetchPage_from (fuel : nat) (attempt : Z) (lastError : option jsstring)
    (url : jsstring) : SM Html :=
  self <- this;;
  match fuel with
  | O => fetchFailed url (sc_maxRetries self) lastError
  | S fuel' =>
      if attempt <=? sc_maxRetries self then
        try_catch
          (on_snd (axios_get E {| req_url := url;
                                  req_timeout := sc_timeout self;
                                  req_userAgent := sc_userAgent self |}))
          (fun message =>
             when (attempt <? sc_maxRetries self)
                       (delay (sc_delayBetweenRequests self * attempt));;
             fetchPage_from fuel' (attempt + 1) (Some message) url)
      else fetchFailed url (sc_maxRetries self) lastError
  end.

Definition fetchPage (url : jsstring) : SM Html :=
  self <- this;;
  fetchPage_from (Z.to_nat (sc_maxRetries self)) 1 None url.

(** [cheerio.load(html)]: the page is already its queryable form. *)
Definition parseHTML (html : Html) : Html := html.

Definition fetchAndParse (url : jsstring) : SM Html :=
  html <- fetchPage url;;
  ret (parseHTML html).

Definition cleanText (text : option jsstring) : jsstring :=
  if falsy text then []
  else
    trim (replaceAll false (Plus isNewline) (js " ")
            (replaceAll false (Plus isSpace) (js " ") (default [] text))).

(** [s.toLowerCase().replace(/\s+/g, '-')] *)
Definition slug (s : jsstring) : jsstring :=
  replaceAll false (Plus isSpace) (js "-") (toLowerCase E s).

Definition generateExternalId (self : Scraper) (job : Job) : M World jsstring :=
  let source := slug (sc_source self) in
  let titleSlug :=
    or_else ((fun t => substring0 50 (slug t)) <$> title job) (js "unknown") in
  let companySlug :=
    or_else ((fun c => substring0 30 (slug c)) <$> company job) (js "unknown") in
  timestamp <- now E;;
  ret (source ++ js "-" ++ companySlug ++ js "-" ++ titleSlug ++ js "-"
       ++ of_Z timestamp).

Definition cleanJobData (self : Scraper) (job : Job) : M World Job :=
  id <- (if truthy (externalId job) then ret (default [] (externalId job))
         else generateExternalId self job);;
  posted <- (match postedAt job with
             | Some d => ret d
             | None => t <- now E;; ret (Some t)
             end);;
  ret {| title := Some (cleanText (title job));
         company := Some (cleanText (company job));
         location := Some (cleanText (location job));
         description := Some (cleanText (description job));
         source := Some (sc_source self);
         applyLink := Some (or_else (trim <$> applyLink job) []);
         externalId := Some id;
         tags := Some (match tags job with
                       | Some l => List.filter (fun t => truthy (Some t)) l
                       | None => []
                       end);
         postedAt := Some posted |}.

Definition required : list (jsstring * (Job -> option jsstring)) :=
  [ (js "title", title); (js "company", company); (js "location", location);
    (js "applyLink", applyLink); (js "source", source) ].

Definition missing (job : Job) : list jsstring :=
  map fst (List.filter (fun f => falsy (snd f job)) required).

Definition validateJobData (job : Job) : bool :=
  negb (0 <? length (missing job))%nat.

Record Counts : Type := {
  c_saved : Z;
  c_failed : Z;
  c_duplicates : Z
}.

(** The body of the loop of [saveJobs] for one job. *)
Definition saveJob (clean : Scraper -> Job -> M World Job) (job : Job)
    (c : Counts) : SM Counts :=
  try_catch
    (self <- this;;
     cleanedJob <- on_snd (clean self job);;
     if negb (validateJobData cleanedJob) then
       ret {| c_saved := c_saved c; c_failed := c_failed c + 1;
              c_duplicates := c_duplicates c |}
     else
       result <- on_snd (updateOne E (externalId cleanedJob) cleanedJob);;
       if upsertedCount result >? 0 then
         ret {| c_saved := c_saved c + 1; c_failed := c_failed c;
                c_duplicates := c_duplicates c |}
       else if matchedCount result >? 0 then
         ret {| c_saved := c_saved c; c_failed := c_failed c;
                c_duplicates := c_duplicates c + 1 |}
       else ret c)
    (fun message =>
       on_fst (modify (set_errors (fun l => l ++ [SaveError job message])));;
       ret {| c_saved := c_saved c; c_failed := c_failed c + 1;
              c_duplicates := c_duplicates c |}).

Fixpoint saveLoop (clean : Scraper -> Job -> M World Job) (jobsToSave : list Job)
    (c : Counts) : SM Counts :=
  match jobsToSave with
  | [] => ret c
  | job :: rest => c' <- saveJob clean job c;; saveLoop clean rest c'
  end.

(** [saveJobs(jobs = null)]; [clean] is the instance's [cleanJobData]. *)
Definition saveJobs (clean : Scraper -> Job -> M World Job)
    (jobs : option (list Job)) : SM Stats :=
  self <- this;;
  let jobsToSave := default (sc_jobs self) jobs in
  if (length jobsToSave =? 0)%nat then
    ret {| saved := 0; failed := 0; duplicates := 0; total := None |}
  else
    c <- saveLoop clean jobsToSave
           {| c_saved := 0; c_failed := 0; c_duplicates := 0 |};;
    ret {| saved := c_saved c; duplicates := c_duplicates c;
           failed := c_failed c;
           total := Some (Z.of_nat (length jobsToSave)) |}.

Definition extractText (doc : Html) (selector : jsstring)
    (context : option Element) : jsstring :=
  match context with
  | Some el => trim (find_text el selector)
  | None => trim (text_of doc selector)
  end.

Definition extractAttribute (doc : Html) (selector attribute : jsstring)
    (context : option Element) : jsstring :=
  match context with
  | Some el => or_else (find_attr el selector attribute) []
  | None => or_else (attr_of doc selector attribute) []
  end.

Record ScraperStats : Type := {
  st_source : jsstring;
  st_totalJobs : nat;
  st_totalErrors : nat;
  st_errors : list ErrorEntry
}.

Definition getStats : SM ScraperStats :=
  self <- this;;
  ret {| st_source := sc_source self;
         st_totalJobs := length (sc_jobs self);
         st_totalErrors := length (sc_errors self);
         st_errors := sc_errors self |}.

Definition reset : SM unit :=
  on_fst (modify (set_jobs (fun _ => []));; modify (set_errors (fun _ => []))).
End Methods.

End Base.

(** ** OficinaDeTrabajoCeiScraper *)

Module Cei.

Import Base.

(** [/(\d+)\s*(day|día|days|días)\s*ago|hace/i] *)
Definition daysAgoPattern : regex :=
  Alt (Seq (Group 1 (Plus isDigit))
        (Seq (Star isSpace)
          (Seq (Group 2 (Alt (Lit (js "day"))
                          (Alt (Lit (js "día"))
                            (Alt (Lit (js "days")) (Lit (js "días"))))))
            (Seq (Star isSpace) (Lit (js "ago"))))))
      (Lit (js "hace")).

(** [/\/job\/(\d+)|\/id\/(\d+)|id=(\d+)/] *)
Definition urlIdPattern : regex :=
  Alt (Seq (Lit (js "/job/")) (Group 1 (Plus isDigit)))
      (Alt (Seq (Lit (js "/id/")) (Group 2 (Plus isDigit)))
           (Seq (Lit (js "id=")) (Group 3 (Plus isDigit)))).

Section Methods.
Variable E : Env.

(** [constructor(config = {})] *)
Definition construct (config : Config) : Scraper :=
  let s :=
    Base.construct OficinaDeTrabajoCeiScraper
      (spread
         {| cfg_baseUrl :=
              Some (or_else (cfg_baseUrl config) (js "https://www.oficinaempleo.cl"));
            cfg_source := Some (js "Oficina de Trabajo CEI");
            cfg_timeout := Some (number_or (cfg_timeout config) 15000);
            cfg_maxRetries := Some (number_or (cfg_maxRetries config) 3);
            cfg_delayBetweenRequests :=
              Some (number_or (cfg_delayBetweenRequests config) 2000);
            cfg_userAgent := None;
            cfg_jobsPerPage := None |}
         config) in
  {| sc_class := sc_class s; sc_baseUrl := sc_baseUrl s; sc_source := sc_source s;
     sc_timeout := sc_timeout s; sc_maxRetries := sc_maxRetries s;
     sc_delayBetweenRequests := sc_delayBetweenRequests s;
     sc_userAgent := sc_userAgent s; sc_jobs := sc_jobs s;
     sc_errors := sc_errors s;
     sc_searchEndpoint := Some (js "/buscar-empleo");
     sc_jobsPerPage := Some (number_or (cfg_jobsPerPage config) 20) |}.

Definition buildSearchUrl (query location : jsstring) (page : Z) : SM jsstring :=
  self <- this;;
  let params :=
    (if truthy (Some query) then [(js "q", query)] else [])
    ++ (if truthy (Some location) then [(js "location", location)] else [])
    ++ (if page >? 1 then [(js "page", of_Z page)] else []) in
  match newURL E (default [] (sc_searchEndpoint self)) (sc_baseUrl self) params with
  | Some url => ret url
  | None => throw (js "Invalid URL")
  end.

Definition extractTags (element : Element) : list jsstring :=
  let tagTexts :=
    List.filter (fun t => truthy (Some t))
      (map trim (find_each_text element
                   (js ".tag, .badge, .job-type, .salary, .schedule"))) in
  let jobType :=
    match own_attr element (js "data-type") with
    | Some (c :: s) => Some (c :: s)
    | _ => find_attr element (js "[data-type]") (js "data-type")
    end in
  List.filter (fun t => truthy (Some t))
    (tagTexts ++ (if truthy jobType then [default [] jobType] else [])).

Definition extractPostedDate (doc : Html) (element : Element) : M World Date :=
  let dateText :=
    extractText doc (js ".posted-date, .date, time, .publish-date") (Some element) in
  if falsy (Some dateText) then t <- now E;; ret (Some t)
  else
    match exec true daysAgoPattern dateText with
    | Some groups =>
        let daysAgo := parseInt (capture 1 groups) in
        t <- now E;;
        let date := Some t in
        ret (setDate (tza E) date (sub (getDate (tza E) date) daysAgo))
    | None =>
        match parseDate E dateText with
        | Some tv => ret (Some tv)
        | None => t <- now E;; ret (Some t)
        end
    end.

Definition createExternalId (self : Scraper) (title company url : jsstring)
    : M World jsstring :=
  match exec false urlIdPattern url with
  | Some groups =>
      let id :=
        or_else (capture 1 groups)
          (or_else (capture 2 groups) (default [] (capture 3 groups))) in
      ret (slug E (sc_source self) ++ js "-" ++ id)
  | None =>
      generateExternalId E self
        {| title := Some title; company := Some company; location := None;
           description := None; source := None; applyLink := None;
           externalId := None; tags := None; postedAt := None |}
  end.

Definition extractJobData (doc : Html) (element : Element) : SM Job :=
  self <- this;;
  let title := extractText doc (js ".job-title, h2, h3, .position-title") (Some element) in
  let company := extractText doc (js ".company-name, .employer, .company") (Some element) in
  let location := extractText doc (js ".job-location, .location, .place") (Some element) in
  let description :=
    extractText doc (js ".job-description, .description, .summary, p") (Some element) in
  let href := extractAttribute doc (js "a.job-link, a.apply-btn, a") (js "href") (Some element) in
  applyLink <-
    (if truthy (Some href) && negb (startsWith (js "http") href) then
       match newURL E href (sc_baseUrl self) [] with
       | Some url => ret url
       | None => throw (js "Invalid URL")
       end
     else ret href);;
  let tags := extractTags element in
  postedDate <- on_snd (extractPostedDate doc element);;
  externalId <- on_snd (createExternalId self title company applyLink);;
  ret {| title := Some title; company := Some company; location := Some location;
         description := Some description;
         applyLink := Some (or_else (Some applyLink) (sc_baseUrl self));
         externalId := Some externalId; tags := Some tags;
         postedAt := Some postedDate; source := Some (sc_source self) |}.

(** The callback of [jobElements.each], over the elements from [index] on. *)
Fixpoint eachElement (doc : Html) (index : nat) (elements : list Element)
    (found : list Job) : SM (list Job) :=
  match elements with
  | [] => ret found
  | element :: rest =>
      found' <-
        try_catch
          (job <- extractJobData doc element;;
           if truthy (title job) && truthy (company job)
           then ret (found ++ [job]) else ret found)
          (fun message =>
             on_fst (modify (set_errors (fun l => l ++ [ExtractError index message])));;
             ret found);;
      eachElement doc (S index) rest found'
  end.

Definition extractJobsFromPage (doc : Html) : SM (list Job) :=
  eachElement doc 0
    (select doc (js ".job-listing, .job-card, article.job, .vacancy-item")) [].

(** The override of [cleanJobData]. *)
Definition cleanJobData (self : Scraper) (job : Job) : M World Job :=
  cleaned <- Base.cleanJobData E self job;;
  if truthy (description cleaned) then
    ret {| title := title cleaned; company := company cleaned;
           location := location cleaned;
           description :=
             Some (trim (replaceAll true (Lit (js "Aplicar ahora")) []
                           (replaceAll true (Lit (js "Compartir en redes sociales")) []
                              (default [] (description cleaned)))));
           source := source cleaned; applyLink := applyLink cleaned;
           externalId := externalId cleaned; tags := tags cleaned;
           postedAt := postedAt cleaned |}
  else ret cleaned.

Definition saveJobs := Base.saveJobs E cleanJobData.

(** The page loop of [scrape], from [page] on. *)
Fixpoint pageLoop (fuel : nat) (page : Z) (query location : jsstring)
    (maxPages : Z) : SM unit :=
  match fuel with
  | O => ret tt
  | S fuel' =>
      if page <=? maxPages then
        url <- buildSearchUrl query location page;;
        doc <- fetchAndParse E url;;
        pageJobs <- extractJobsFromPage doc;;
        if (length pageJobs =? 0)%nat then ret tt
        else
          on_fst (modify (set_jobs (fun l => l ++ pageJobs)));;
          self <- this;;
          when (page <? maxPages) (delay (sc_delayBetweenRequests self));;
          pageLoop fuel' (page + 1) query location maxPages
      else ret tt
  end.

Definition zeroStats : Stats :=
  {| saved := 0; duplicates := 0; failed := 0; total := Some 0 |}.

Definition scrape (options : Options) : SM ScrapeResult :=
  let query := default [] (o_query options) in
  let location := default [] (o_location options) in
  let maxPages := default 1 (o_maxPages options) in
  reset;;
  try_catch
    (pageLoop (Z.to_nat maxPages) 1 query location maxPages;;
     results <- saveJobs None;;
     self <- this;;
     ret {| success := true; jobs := sc_jobs self; stats := results;
            errors := sc_errors self |})
    (fun message =>
       on_fst (modify (set_errors (fun l => l ++ [ScrapeError message])));;
       self <- this;;
       ret {| success := false; jobs := sc_jobs self; stats := zeroStats;
              errors := sc_errors self |}).
End Methods.

End Cei.

(** ** LinkedInJobsScraper *)

Module LinkedIn.

Import Base.

(** [/(\d+)\s*unit/i] for the unit word given. *)
Definition agoPattern (unit : jsstring) : regex :=
  Seq (Group 1 (Plus isDigit)) (Seq (Star isSpace) (Lit unit)).

(** [/\/jobs\/view\/(\d+)/] *)
Definition jobIdPattern : regex :=
  Seq (Lit (js "/jobs/view/")) (Group 1 (Plus isDigit)).

Section Methods.
Variable E : Env.

(** [constructor(config = {})] *)
Definition construct (config : Config) : Scraper :=
  let s :=
    Base.construct LinkedInJobsScraper
      (spread
         {| cfg_baseUrl :=
              Some (or_else (cfg_baseUrl config) (js "https://www.linkedin.com"));
            cfg_source := Some (js "LinkedIn Jobs");
            cfg_timeout := Some (number_or (cfg_timeout config) 20000);
            cfg_maxRetries := Some (number_or (cfg_maxRetries config) 2);
            cfg_delayBetweenRequests :=
              Some (number_or (cfg_delayBetweenRequests config) 3000);
            cfg_userAgent := None;
            cfg_jobsPerPage := None |}
         config) in
  {| sc_class := sc_class s; sc_baseUrl := sc_baseUrl s; sc_source := sc_source s;
     sc_timeout := sc_timeout s; sc_maxRetries := sc_maxRetries s;
     sc_delayBetweenRequests := sc_delayBetweenRequests s;
     sc_userAgent := sc_userAgent s; sc_jobs := sc_jobs s;
     sc_errors := sc_errors s;
     sc_searchEndpoint := Some (js "/jobs/search");
     sc_jobsPerPage := None |}.

Definition buildSearchUrl (query location : jsstring) (start : Z) : SM jsstring :=
  self <- this;;
  let params :=
    (if truthy (Some query) then [(js "keywords", query)] else [])
    ++ (if truthy (Some location) then [(js "location", location)] else [])
    ++ (if start >? 0 then [(js "start", of_Z start)] else [])
    ++ [(js "f_TPR", js "r604800"); (js "position", js "1"); (js "pageNum", js "0")] in
  match newURL E (default [] (sc_searchEndpoint self)) (sc_baseUrl self) params with
  | Some url => ret url
  | None => throw (js "Invalid URL")
  end.

Definition extractTags (element : Element) : list jsstring :=
  List.filter (fun t => truthy (Some t))
    (map trim (find_each_text element (js ".job-search-card__benefits-insight"))).

Definition parsePostedDate (dateText : jsstring) : M World Date :=
  if falsy (Some dateText) then t <- now E;; ret (Some t)
  else
    t <- now E;;
    let now := Some t in
    match exec true (agoPattern (js "hour")) dateText with
    | Some hoursMatch =>
        ret (setHours (tza E) now
               (sub (getHours (tza E) now) (parseInt (capture 1 hoursMatch))))
    | None =>
    match exec true (agoPattern (js "day")) dateText with
    | Some daysMatch =>
        ret (setDate (tza E) now
               (sub (getDate (tza E) now) (parseInt (capture 1 daysMatch))))
    | None =>
    match exec true (agoPattern (js "week")) dateText with
    | Some weeksMatch =>
        ret (setDate (tza E) now
               (sub (getDate (tza E) now)
                    (mul (parseInt (capture 1 weeksMatch)) (Some 7))))
    | None =>
    match exec true (agoPattern (js "month")) dateText with
    | Some monthsMatch =>
        ret (setMonth (tza E) now
               (sub (getMonth (tza E) now) (parseInt (capture 1 monthsMatch))))
    | None => ret now
    end end end end.

Definition extractJobData (doc : Html) (element : Element) : SM Job :=
  self <- this;;
  let title := extractText doc (js ".base-search-card__title") (Some element) in
  let company := extractText doc (js ".base-search-card__subtitle") (Some element) in
  let location := extractText doc (js ".job-search-card__location") (Some element) in
  let href := extractAttribute doc (js "a.base-card__full-link") (js "href") (Some element) in
  applyLink <-
    (if truthy (Some href) && negb (startsWith (js "http") href) then
       match newURL E href (sc_baseUrl self) [] with
       | Some url => ret url
       | None => throw (js "Invalid URL")
       end
     else ret href);;
  let jobId := exec false jobIdPattern applyLink ≫= capture 1 in
  let metadata := extractText doc (js ".job-search-card__listed-time") (Some element) in
  externalId <-
    on_snd (match jobId with
            | Some id => ret (js "linkedin-" ++ id)
            | None =>
                generateExternalId E self
                  {| title := Some title; company := Some company; location := None;
                     description := None; source := None; applyLink := None;
                     externalId := None; tags := None; postedAt := None |}
            end);;
  let tags := extractTags element in
  postedAt <- on_snd (parsePostedDate metadata);;
  ret {| title := Some title; company := Some company; location := Some location;
         description := Some (js "Posted " ++ metadata);
         applyLink := Some (or_else (Some applyLink) (sc_baseUrl self));
         externalId := Some externalId; tags := Some tags;
         postedAt := Some postedAt; source := Some (sc_source self) |}.

(** The callback of [jobCards.each]; an element that throws is logged
    and skipped. *)
Fixpoint eachElement (doc : Html) (index : nat) (elements : list Element)
    (found : list Job) : SM (list Job) :=
  match elements with
  | [] => ret found
  | element :: rest =>
      found' <-
        try_catch
          (job <- extractJobData doc element;;
           if truthy (title job) && truthy (company job)
           then ret (found ++ [job]) else ret found)
          (fun message => ret found);;
      eachElement doc (S index) rest found'
  end.

Definition extractJobsFromPage (doc : Html) : SM (list Job) :=
  eachElement doc 0
    (select doc
       (js "li.jobs-search__results-list > div, ul.jobs-search__results-list > li")) [].

Definition saveJobs := Base.saveJobs E (Base.cleanJobData E).

(** The page loop of [scrape], from [page] on. *)
Fixpoint pageLoop (fuel : nat) (page : Z) (query location : jsstring)
    (maxPages : Z) : SM unit :=
  match fuel with
  | O => ret tt
  | S fuel' =>
      if page <? maxPages then
        let start := page * 25 in
        url <- buildSearchUrl query location start;;
        doc <- fetchAndParse E url;;
        pageJobs <- extractJobsFromPage doc;;
        if (length pageJobs =? 0)%nat then ret tt
        else
          on_fst (modify (set_jobs (fun l => l ++ pageJobs)));;
          self <- this;;
          when (page <? maxPages - 1) (delay (sc_delayBetweenRequests self));;
          pageLoop fuel' (page + 1) query location maxPages
      else ret tt
  end.

Definition zeroStats : Stats :=
  {| saved := 0; duplicates := 0; failed := 0; total := Some 0 |}.

Definition scrape (options : Options) : SM ScrapeResult :=
  let query := default [] (o_query options) in
  let location := default [] (o_location options) in
  let maxPages := default 1 (o_maxPages options) in
  reset;;
  try_catch
    (pageLoop (Z.to_nat maxPages) 0 query location maxPages;;
     results <- saveJobs None;;
     self <- this;;
     ret {| success := true; jobs := sc_jobs self; stats := results;
            errors := sc_errors self |})
    (fun message =>
       on_fst (modify (set_errors (fun l => l ++ [ScrapeError message])));;
       self <- this;;
       ret {| success := false; jobs := sc_jobs self; stats := zeroStats;
              errors := sc_errors self |}).
End Methods.

End LinkedIn.

(** The [cleanJobData] method of the instances of a class. *)
Definition cleanJobDataOf (E : Env) (cls : ScraperClass)
    : Scraper -> Job -> M World Job :=
  match cls with
| OficinaDeTrabajoCeiScraper => Cei.cleanJobData E
| JobPortalScraper | LinkedInJobsScraper => Base.cleanJobData E
  end.

(** ** ScraperRegistry *)

Module Registry.

Section Methods.
Variable E : Env.

(** [new ScraperClass(config)]; reading a property of [null] throws. *)
Definition instantiate (cls : ScraperClass) (config : Nullable Config)
    : Result Scraper :=
  match config with
  | Null => Throw (js "Cannot read properties of null (reading 'baseUrl')")
  | Undefined | Obj _ =>
      let c := match config with Obj c => c | _ => emptyConfig end in
      Ok (match cls with
          | JobPortalScraper => Base.construct JobPortalScraper c
          | OficinaDeTrabajoCeiScraper => Cei.construct c
          | LinkedInJobsScraper => LinkedIn.construct c
          end)
  end.

(** A new object: its reference is the next free cell of the heap. *)
Definition alloc (s : Scraper) : M World nat :=
  fun w => (Ok (length (heap w)), set_heap (fun h => h ++ [s]) w).

(** [register(name, ScraperClass)]; [None] is a value that is not a
    function. *)
Definition register (name : jsstring) (cls : option ScraperClass) : M World unit :=
  match cls with
  | None => throw (js "Invalid scraper class for " ++ name)
  | Some c => modify (set_registry (mset name c))
  end.

Definition registerDefaultScrapers : M World unit :=
  register (js "oficina-trabajo-cei") (Some OficinaDeTrabajoCeiScraper);;
  register (js "linkedin") (Some LinkedInJobsScraper).

Definition unregister (name : jsstring) : M World unit :=
  modify (set_registry (mdelete name)).

Definition getAvailableScrapers : M World (list jsstring) :=
  gets (fun w => mkeys (registry w)).

Definition hasScraper (name : jsstring) : M World bool :=
  gets (fun w => mhas name (registry w)).

Definition getScraper (name : jsstring) (config : Nullable Config) : M World nat :=
  w <- get;;
  match mget name (registry w) with
  | None =>
      throw (js "Scraper not found: " ++ name ++ js ". Available scrapers: "
             ++ join (js ", ") (mkeys (registry w)))
  | Some cls =>
      match instantiate cls config with
      | Ok s => alloc s
      | Throw message => throw message
      end
  end.

Record ScraperInfo : Type := {
  i_id : jsstring;
  i_name : jsstring;
  i_baseUrl : jsstring
}.

Fixpoint infoLoop (entries : list (jsstring * ScraperClass)) (info : list ScraperInfo)
    : M World (list ScraperInfo) :=
  match entries with
  | [] => ret info
  | (name, cls) :: rest =>
      match instantiate cls Undefined with
      | Ok s =>
          alloc s;;
          infoLoop rest (info ++ [{| i_id := name; i_name := sc_source s;
                                     i_baseUrl := sc_baseUrl s |}])
      | Throw message => throw message
      end
  end.

Definition getScrapersInfo : M World (list ScraperInfo) :=
  w <- get;;
  infoLoop (registry w) [].
End Methods.

End Registry.

(** ** ScraperService *)

Module Service.

Import Base.

(** What [runScraper] returns: [{scrapeId, ...result, ...historyEntry}]. *)
Record RunResult : Type := {
  scrapeId : jsstring;
  r_jobs : list Job;
  r_errors : list ErrorEntry;
  r_entry : HistoryEntry
}.

(** A slot of the results of a multiple run: a result, or
    [{scraperName, success: false, error}]. *)
Inductive Slot : Type :=
| Ran (r : RunResult)
| Failed (scraperName error : jsstring).

Record ScraperConfig : Type := {
  name : jsstring;
  options : Nullable Options
}.

Record ActiveScrape : Type := {
  as_id : jsstring;
  as_info : ActiveInfo;
  as_duration : Z
}.

Record Statistics : Type := {
  totalScrapes : Z;
  successfulScrapes : Z;
  failedScrapes : Z;
  totalJobsScraped : Z;
  totalJobsSaved : Z;
  averageDuration : Z;
  activeScrapesCount : Z
}.

(** [array.slice(start)] *)
Definition slice {A} (start : Z) (l : list A) : list A :=
  let len := Z.of_nat (length l) in
  let k := if start <? 0 then Z.max (len + start) 0 else Z.min start len in
  drop (Z.to_nat k) l.

(** [Math.round(sum / count)] for integers, [count] positive. *)
Definition roundDiv (sum count : Z) : Z := (2 * sum + count) / (2 * count).

Section Methods.
Variable E : Env.

(** [scraper.scrape(options)] on the object at [ref].  References come
    from [getScraper], so the cell is there. *)
Definition invoke {A} (ref : nat) (m : SM A) : M World A :=
  fun w =>
    match heap w !! ref with
    | Some obj =>
        match m (obj, w) with
        | (r, (obj', w')) => (r, set_heap (fun h => <[ref := obj']> h) w')
        end
    | None => (Throw (js "not an object"), w)
    end.

(** The [scrape] method of the class of the instance. *)
Definition scrapeMethod (options : Options) : SM ScrapeResult :=
  self <- this;;
  match sc_class self with
  | JobPortalScraper => Base.scrape options
  | OficinaDeTrabajoCeiScraper => Cei.scrape E options
  | LinkedInJobsScraper => LinkedIn.scrape E options
  end.

Definition generateScrapeId (scraperName : jsstring) : M World jsstring :=
  timestamp <- now E;;
  random <- randomSuffix E;;
  ret (scraperName ++ js "-" ++ of_Z timestamp ++ js "-" ++ random).

Definition pushHistory (entry : HistoryEntry) : M World unit :=
  modify (set_scrapeHistory (fun h => h ++ [entry])).

(** The [try] block of [runScraper]. *)
Definition runScraper_try (scrapeId scraperName : jsstring)
    (options : Nullable Options) : M World RunResult :=
  opts <- match options with
          | Null => throw (js "Cannot read properties of null (reading 'config')")
          | Undefined => ret noOptions
          | Obj o => ret o
          end;;
  scraper <- Registry.getScraper scraperName (o_config opts);;
  result <- invoke scraper (scrapeMethod opts);;
  modify (set_activeScrapes (mdelete scrapeId));;
  w1 <- get;;
  startTime <- match mget scrapeId (activeScrapes w1) with
               | Some info => ret (a_startTime info)
               | None => now E
               end;;
  endTime <- now E;;
  t <- now E;;
  w2 <- get;;
  started <- match mget scrapeId (activeScrapes w2) with
             | Some info =>
                 if a_startTime info =? 0 then now E else ret (a_startTime info)
             | None => now E
             end;;
  let historyEntry :=
    {| h_id := scrapeId; h_scraperName := scraperName;
       h_startTime := startTime; h_endTime := endTime;
       h_duration := t - started;
       h_success := success result;
       h_stats := Some (stats result);
       h_errorCount := Some (Z.of_nat (length (errors result)));
       h_error := None |} in
  pushHistory historyEntry;;
  w3 <- get;;
  when (100 <? length (scrapeHistory w3))%nat
       (modify (set_scrapeHistory (drop 1)));;
  ret {| scrapeId := scrapeId; r_jobs := jobs result; r_errors := errors result;
         r_entry := historyEntry |}.

Definition runScraper (scraperName : jsstring) (options : Nullable Options)
    : M World RunResult :=
  scrapeId <- generateScrapeId scraperName;;
  availableScrapers <- Registry.getAvailableScrapers;;
  if negb (bool_decide (scraperName ∈ availableScrapers)) then
    throw (js "Unknown scraper: " ++ scraperName ++ js ". Available: "
           ++ join (js ", ") availableScrapers)
  else
    startTime <- now E;;
    modify (set_activeScrapes
              (mset scrapeId {| a_scraperName := scraperName;
                                a_startTime := startTime;
                                a_status := js "running" |}));;
    try_catch
      (runScraper_try scrapeId scraperName options)
      (fun message =>
         modify (set_activeScrapes (mdelete scrapeId));;
         startTime <- now E;;
         endTime <- now E;;
         pushHistory {| h_id := scrapeId; h_scraperName := scraperName;
                        h_startTime := startTime; h_endTime := endTime;
                        h_duration := 0; h_success := false;
                        h_stats := None; h_errorCount := None;
                        h_error := Some message |};;
         throw message).

Fixpoint runMultipleScrapersSequential (scraperConfigs : list ScraperConfig)
    : M World (list Slot) :=
  match scraperConfigs with
  | [] => ret []
  | c :: rest =>
      slot <- try_catch (r <- runScraper (name c) (options c);; ret (Ran r))
                        (fun message => ret (Failed (name c) message));;
      slots <- runMultipleScrapersSequential rest;;
      ret (slot :: slots)
  end.

Fixpoint activeLoop (entries : list (jsstring * ActiveInfo)) : M World (list ActiveScrape) :=
  match entries with
  | [] => ret []
  | (id, info) :: rest =>
      t <- now E;;
      others <- activeLoop rest;;
      ret ({| as_id := id; as_info := info; as_duration := t - a_startTime info |}
           :: others)
  end.

Definition getActiveScrapes : M World (list ActiveScrape) :=
  w <- get;;
  activeLoop (activeScrapes w).

(** [getScrapeHistory(limit = 20)] *)
Definition getScrapeHistory (limit : option Z) : M World (list HistoryEntry) :=
  w <- get;;
  ret (rev (slice (- default 20 limit) (scrapeHistory w))).

Definition sumOver (f : HistoryEntry -> Z) (h : list HistoryEntry) : Z :=
  fold_left (fun sum entry => sum + f entry) h 0.

(** [getStatistics()], but for [successRate], a formatted floating-point
    number. *)
Definition getStatistics : M World Statistics :=
  w <- get;;
  let h := scrapeHistory w in
  let count := Z.of_nat (length h) in
  let successful := Z.of_nat (length (List.filter h_success h)) in
  ret {| totalScrapes := count;
         successfulScrapes := successful;
         failedScrapes := count - successful;
         totalJobsScraped :=
           sumOver (fun e => default 0 (h_stats e ≫= total)) h;
         totalJobsSaved := sumOver (fun e => default 0 (saved <$> h_stats e)) h;
         averageDuration :=
           if count >? 0 then roundDiv (sumOver h_duration h) count else 0;
         activeScrapesCount := Z.of_nat (msize (activeScrapes w)) |}.

Definition clearHistory : M World unit :=
  modify (set_scrapeHistory (fun _ => [])).
End Methods.

End Service.

(** The state of a process that has just started: the registry holds the
    two site scrapers. *)
Definition initialWorld : World :=
  {| reads := 0; draws := 0; requests := []; timers := []; dbcalls := [];
     collection := []; heap := [];
     registry := [(js "oficina-trabajo-cei", OficinaDeTrabajoCeiScraper);
                  (js "linkedin", LinkedInJobsScraper)];
     activeScrapes := []; scrapeHistory := [] |}.

(** ** An environment for the examples

    ASCII lower-casing, URLs joined without escaping (a base that does not
    start with [http] is invalid), a Date parser that understands nothing,
    UTC as the local time zone, and random suffixes that count. *)

Module Example.

Definition asciiLower (s : jsstring) : jsstring :=
  map (fun c => if ((65 <=? c) && (c <=? 90))%N then (c + 32)%N else c) s.

Definition plainURL (path base : jsstring) (params : list (jsstring * jsstring))
    : option jsstring :=
  if startsWith (js "http") base then
    Some (base ++ path
          ++ match params with
             | [] => []
             | _ => js "?" ++ join (js "&") (map (fun p => fst p ++ js "=" ++ snd p) params)
             end)
  else None.

Definition env (clk : nat -> Z) (nt : nat -> Request -> Response)
    (flt : nat -> option jsstring) : Env :=
  {| clock := clk; random := fun k => of_nat k; net := nt; dbfault := flt;
     toLowerCase := asciiLower; newURL := plainURL;
     parseDate := fun _ => None; tza := 0 |}.

(** An element that answers [text] to the selector [sel] and nothing to
    the others. *)
Definition elementWith (sel text : jsstring) : Element :=
  {| find_text := fun s => if JsString.eqb s sel then text else [];
     find_attr := fun _ _ => None;
     find_each_text := fun _ => [];
     own_attr := fun _ => None |}.

(** A page on which the selectors of [found] match these elements. *)
Definition page (found : list Element) : Html :=
  {| select := fun _ => found; text_of := fun _ => []; attr_of := fun _ _ => None |}.


Definition emptyPage : Html := page [].

(** A clock that advances by one millisecond at each reading. *)
Definition ticking (start : Z) (k : nat) : Z := start + Z.of_nat k.

(** A clock that stands still. *)
Definition frozen (t : Z) (k : nat) : Z := t.

Definition noFault (k : nat) : option jsstring := None.

Definition always (r : Response) (k : nat) (rq : Request) : Response := r.

(** Every page is empty and the clock ticks at each reading. *)
Definition tickEnv : Env := env (ticking 1000) (always (Data emptyPage)) noFault.

(** Every page is empty and the clock stands still. *)
Definition stillEnv : Env := env (frozen 1000) (always (Data emptyPage)) noFault.

(** Every request is rejected. *)
Definition downEnv : Env := env (ticking 1000) (always (Rejected (js "timeout"))) noFault.

(** [{config: null}]: the constructor of the scraper throws. *)
Definition nullConfig : Options :=
  {| o_query := None; o_location := None; o_maxPages := None; o_config := Null |}.

Definition nullConfigRun : Service.ScraperConfig :=
  {| Service.name := js "linkedin"; Service.options := Obj nullConfig |}.

Definition onePage : Options :=
  {| o_query := None; o_location := None; o_maxPages := Some 1; o_config := Undefined |}.



End Example.

(** * Properties *)

(** ** Definitions used in the statements *)

(** The element whose date selector answers [text]. *)
Definition dateElement (text : jsstring) : Element :=
  Example.elementWith (js ".posted-date, .date, time, .publish-date") text.

(** ** What a computation leaves alone

    [stable R m]: the state [m] ends in is related by [R] to the state it
    started from, whether [m] returns or throws. *)

Definition stable {S A} (R : relation S) (m : M S A) : Prop :=
  forall s, R s (snd (m s)).

(** A relation on worlds, seen on the pairs of an instance and a world. *)
Definition onWorld (R : relation World) : relation (Scraper * World) :=
  fun a b => R (snd a) (snd b).

(** The scrapers do not reach the registry, the heap or the service. *)
Definition sameService (w w' : World) : Prop :=
  heap w = heap w' /\ registry w = registry w'
  /\ activeScrapes w = activeScrapes w' /\ scrapeHistory w = scrapeHistory w'.

(** Nothing was written to the Job collection, and nothing was asked of it. *)
Definition sameStore (w w' : World) : Prop :=
  collection w = collection w' /\ dbcalls w = dbcalls w'.

(** Every field of the job is set, as in a job that was cleaned. *)
Definition allSet (j : Job) : Prop :=
  is_Some (title j) /\ is_Some (company j) /\ is_Some (location j)
  /\ is_Some (description j) /\ is_Some (source j) /\ is_Some (applyLink j)
  /\ is_Some (externalId j) /\ is_Some (tags j) /\ is_Some (postedAt j).

(** The job passes [validateJobData] once [cleanJobData] has cleaned it on
    the instance [self]: its title, company and location are not blank,
    it has a link, and the instance has a source label. *)
Definition validWhenCleaned (self : Scraper) (job : Job) : bool :=
  truthy (Some (Base.cleanText (title job)))
  && truthy (Some (Base.cleanText (company job)))
  && truthy (Some (Base.cleanText (location job)))
  && truthy (Some (or_else (trim <$> applyLink job) []))
  && truthy (Some (sc_source self)).

(** The counters of [saveJobs] after one more job. *)
Definition bump_saved (c : Base.Counts) : Base.Counts :=
  {| Base.c_saved := Base.c_saved c + 1; Base.c_failed := Base.c_failed c;
     Base.c_duplicates := Base.c_duplicates c |}.
Definition bump_failed (c : Base.Counts) : Base.Counts :=
  {| Base.c_saved := Base.c_saved c; Base.c_failed := Base.c_failed c + 1;
     Base.c_duplicates := Base.c_duplicates c |}.
Definition bump_duplicates (c : Base.Counts) : Base.Counts :=
  {| Base.c_saved := Base.c_saved c; Base.c_failed := Base.c_failed c;
     Base.c_duplicates := Base.c_duplicates c + 1 |}.

(** The request [fetchPage] makes for [url]. *)
Definition requestOf (self : Scraper) (url : jsstring) : Request :=
  {| req_url := url; req_timeout := sc_timeout self; req_userAgent := sc_userAgent self |}.

(** The message of the error [fetchPage] ends with. *)
Definition fetchError (url : jsstring) (maxRetries : Z) (message : jsstring) : jsstring :=
  js "Failed to fetch " ++ url ++ js " after " ++ of_Z maxRetries
  ++ js " attempts: " ++ message.




(** The identifier [generateScrapeId] gives to a run started in [w]. *)
Definition scrapeIdAt (E : Env) (name : jsstring) (w : World) : jsstring :=
  name ++ js "-" ++ of_Z (clock E (reads w)) ++ js "-" ++ random E (draws w).

(** The [scraperName] of a slot of a multiple run. *)
Definition slotName (s : Service.Slot) : jsstring :=
  match s with
  | Service.Ran r => h_scraperName (Service.r_entry r)
  | Service.Failed scraperName _ => scraperName
  end.

(** The jobs the counters of [saveJobs] account for. *)
Definition handled (c : Base.Counts) : Z :=
  Base.c_saved c + Base.c_failed c + Base.c_duplicates c.

(** The instance has a source label and a user agent, its timeout, retry
    bound and delay are not 0, and its accumulators are empty. *)
Definition wellConfigured (s : Scraper) : Prop :=
  sc_source s <> [] /\ sc_userAgent s <> [] /\ sc_timeout s <> 0
  /\ sc_maxRetries s <> 0 /\ sc_delayBetweenRequests s <> 0
  /\ sc_jobs s = [] /\ sc_errors s = [].

(** The listing has a title and a company. *)
Definition complete (j : Job) : Prop :=
  truthy (title j) = true /\ truthy (company j) = true.

(** The computation leaves the instance as it is. *)
Definition sameInstance : relation (Scraper * World) := fun a b => fst a = fst b.

(** The string without its longest prefix of characters of the class. *)
Fixpoint skip (p : N -> bool) (s : jsstring) : jsstring :=
  match s with
  | c :: r => if p c then skip p r else s
  | [] => []
  end.

(** Each run of characters of the class replaced by [sep]; [inrun] says
    that the character before was of the class. *)
Fixpoint collapse (p : N -> bool) (sep : jsstring) (inrun : bool) (s : jsstring)
    : jsstring :=
  match s with
  | [] => []
  | c :: r =>
      if p c then (if inrun then collapse p sep true r else sep ++ collapse p sep true r)
      else c :: collapse p sep false r
  end.

(** No two characters of the class stand side by side. *)
Definition NoRuns (p : N -> bool) (s : jsstring) : Prop :=
  forall pre a b post, s = pre ++ a :: b :: post -> p a = true -> p b = true -> False.

(** The two worlds have been sent the same requests. *)
Definition sameRequests : relation World := fun w w' => requests w' = requests w.

(** [m] keeps the retry bound of the instance and sends at most [n] times
    that many requests, after those that were already sent. *)
Definition sendsAtMost {A} (n : nat) (m : Base.SM A) : Prop :=
  forall s,
    sc_maxRetries (fst (snd (m s))) = sc_maxRetries (fst s)
    /\ exists sent,
         requests (snd (snd (m s))) = requests (snd s) ++ sent
         /\ (length sent <= n * Z.to_nat (sc_maxRetries (fst s)))%nat.

(** The [config] that [runScraper] hands to the constructor. *)
Definition configOf (options : Nullable Options) : Nullable Config :=
  match options with
  | Obj o => o_config o
  | Undefined | Null => Undefined
  end.

(** What [runScraper] needs to return: options that are not [null], a
    configuration that is not [null], and under the name a registered class
    that has a [scrape] of its own. *)
Definition runnable (name : jsstring) (options : Nullable Options) (w : World) : Prop :=
  options <> Null /\ configOf options <> Null
  /\ exists cls, mget name (registry w) = Some cls /\ cls <> JobPortalScraper.

(** The two worlds have drawn the same number of random suffixes. *)
Definition sameDraws : relation World := fun w w' => draws w' = draws w.

(** [slots] are the outcomes of calling [runScraper] on the configurations
    one after the other, each call in the world the one before left, from
    [w] to [w']: a call that returns gives its result, a call that throws
    gives [{scraperName, success: false, error}] with the message thrown. *)
Inductive sequentialRuns (E : Env)
    : list Service.ScraperConfig -> World -> list Service.Slot -> World -> Prop :=
| runs_done (w : World) : sequentialRuns E [] w [] w
| runs_returned c rest w r w1 slots w' :
    Service.runScraper E (Service.name c) (Service.options c) w = (Ok r, w1) ->
    sequentialRuns E rest w1 slots w' ->
    sequentialRuns E (c :: rest) w (Service.Ran r :: slots) w'
| runs_threw c rest w message w1 slots w' :
    Service.runScraper E (Service.name c) (Service.options c) w = (Throw message, w1) ->
    sequentialRuns E rest w1 slots w' ->
    sequentialRuns E (c :: rest) w (Service.Failed (Service.name c) message :: slots) w'.

(** ** What the scrapers leave alone *)

Section Stable.
Context {S : Type} (R : relation S) `{!PreOrder R}.

Lemma stable_ret {A} (a : A) : stable R (ret a).
Proof. intros s. reflexivity. Qed.

Lemma stable_throw {A} e : stable R (@throw S A e).
Proof. intros s. reflexivity. Qed.

Lemma stable_get : stable R (@get S).
Proof. intros s. reflexivity. Qed.

Lemma stable_gets {A} (f : S -> A) : stable R (gets f).
Proof. intros s. reflexivity. Qed.

Lemma stable_bind {A B} (m : M S A) (k : A -> M S B) :
  stable R m -> (forall a, stable R (k a)) -> stable R (bind m k).
Proof.
  intros Hm Hk s. unfold bind. specialize (Hm s).
  destruct (m s) as [[a|e] s']; simpl in *.
  - etransitivity; [exact Hm | apply Hk].
  - exact Hm.
Qed.

Lemma stable_try_catch {A} (m : M S A) (h : jsstring -> M S A) :
  stable R m -> (forall e, stable R (h e)) -> stable R (try_catch m h).
Proof.
  intros Hm Hh s. unfold try_catch. specialize (Hm s).
  destruct (m s) as [[a|e] s']; simpl in *.
  - exact Hm.
  - etransitivity; [exact Hm | apply Hh].
Qed.

Lemma stable_when (b : bool) (m : M S unit) : stable R m -> stable R (when b m).
Proof. intros Hm. destruct b; [exact Hm | apply stable_ret]. Qed.
End Stable.

Global Instance onWorld_preorder (R : relation World) `{!PreOrder R} :
  PreOrder (onWorld R).
Proof.
  split.
  - intros [a w]. unfold onWorld. reflexivity.
  - intros [a w] [b v] [c u]. unfold onWorld. simpl. apply transitivity.
Qed.

Lemma stable_on_snd (R : relation World) {A} (m : M World A) :
  stable R m -> stable (onWorld R) (on_snd (S := Scraper) m).
Proof.
  intros Hm [a w]. unfold on_snd, onWorld. simpl.
  specialize (Hm w). destruct (m w) as [r w']. exact Hm.
Qed.

Lemma stable_on_fst (R : relation World) `{!PreOrder R} {A} (m : M Scraper A) :
  stable (onWorld R) (on_fst (T := World) m).
Proof.
  intros [a w]. unfold on_fst, onWorld. simpl.
  destruct (m a) as [r a']. reflexivity.
Qed.

Lemma stable_this (R : relation World) `{!PreOrder R} : stable (onWorld R) Base.this.
Proof. apply stable_gets. apply _. Qed.

(** One step of a proof of [stable]: by the shape of the computation. *)
Ltac stable_step :=
  lazymatch goal with
  | |- stable _ (ret _) => apply stable_ret; apply _
  | |- stable _ (throw _) => apply stable_throw; apply _
  | |- stable _ get => apply stable_get; apply _
  | |- stable _ (gets _) => apply stable_gets; apply _
  | |- stable _ Base.this => apply stable_this; apply _
  | |- stable _ (bind _ _) => apply stable_bind; [apply _ | | intros ?]
  | |- stable _ (try_catch _ _) => apply stable_try_catch; [apply _ | | intros ?]
  | |- stable _ (when _ _) => apply stable_when; [apply _ |]
  | |- stable _ (on_fst _) => apply stable_on_fst; apply _
  | |- stable _ (on_snd _) => apply stable_on_snd
  | |- stable _ (match ?x with _ => _ end) => destruct x
  | |- stable _ (let _ := _ in _) => cbv zeta
  end.

Create HintDb stable.

Ltac stable_auto :=
  repeat (first [ assumption | solve [ auto with stable ] | stable_step ]).

(** The scrapers reach the world only through the clock, the network, the
    timers and the Job collection: a relation these four keep is kept by
    every method. *)
Section Frame.
Variable E : Env.
Context (R : relation World) `{!PreOrder R}.
Hypothesis R_now : stable R (now E).
Hypothesis R_get : forall rq, stable R (axios_get E rq).
Hypothesis R_timer : forall ms, stable R (setTimeout ms).

Lemma stable_delay ms : stable (onWorld R) (Base.delay ms).
Proof. unfold Base.delay. stable_auto. Qed.
#[local] Hint Resolve stable_delay : stable.

Lemma stable_fetchFailed url n e : stable (onWorld R) (Base.fetchFailed url n e).
Proof. unfold Base.fetchFailed. stable_auto. Qed.
#[local] Hint Resolve stable_fetchFailed : stable.

Lemma stable_fetchPage_from fuel : forall attempt lastError url,
  stable (onWorld R) (Base.fetchPage_from E fuel attempt lastError url).
Proof.
  induction fuel as [|fuel IH]; intros attempt lastError url; simpl; stable_auto.
Qed.
#[local] Hint Resolve stable_fetchPage_from : stable.

Lemma stable_fetchAndParse url : stable (onWorld R) (Base.fetchAndParse E url).
Proof. unfold Base.fetchAndParse, Base.fetchPage. stable_auto. Qed.
#[local] Hint Resolve stable_fetchAndParse : stable.

Lemma stable_generateExternalId self job : stable R (Base.generateExternalId E self job).
Proof. unfold Base.generateExternalId. stable_auto. Qed.
#[local] Hint Resolve stable_generateExternalId : stable.

Lemma stable_base_cleanJobData self job : stable R (Base.cleanJobData E self job).
Proof. unfold Base.cleanJobData. stable_auto. Qed.
#[local] Hint Resolve stable_base_cleanJobData : stable.

Lemma stable_cei_cleanJobData self job : stable R (Cei.cleanJobData E self job).
Proof. unfold Cei.cleanJobData. stable_auto. Qed.
#[local] Hint Resolve stable_cei_cleanJobData : stable.

Lemma stable_cei_extractPostedDate doc el : stable R (Cei.extractPostedDate E doc el).
Proof. unfold Cei.extractPostedDate. stable_auto. Qed.
#[local] Hint Resolve stable_cei_extractPostedDate : stable.

Lemma stable_cei_createExternalId self t c u :
  stable R (Cei.createExternalId E self t c u).
Proof. unfold Cei.createExternalId. stable_auto. Qed.
#[local] Hint Resolve stable_cei_createExternalId : stable.

Lemma stable_cei_extractJobData doc el : stable (onWorld R) (Cei.extractJobData E doc el).
Proof. unfold Cei.extractJobData. stable_auto. Qed.
#[local] Hint Resolve stable_cei_extractJobData : stable.

Lemma stable_cei_eachElement doc els : forall index found,
  stable (onWorld R) (Cei.eachElement E doc index els found).
Proof.
  induction els as [|el els IH]; intros index found; simpl; stable_auto.
Qed.
#[local] Hint Resolve stable_cei_eachElement : stable.

Lemma stable_cei_buildSearchUrl q l p : stable (onWorld R) (Cei.buildSearchUrl E q l p).
Proof. unfold Cei.buildSearchUrl. stable_auto. Qed.
#[local] Hint Resolve stable_cei_buildSearchUrl : stable.

Lemma stable_cei_extractJobsFromPage doc :
  stable (onWorld R) (Cei.extractJobsFromPage E doc).
Proof. unfold Cei.extractJobsFromPage. stable_auto. Qed.
#[local] Hint Resolve stable_cei_extractJobsFromPage : stable.

Lemma stable_cei_pageLoop fuel : forall page q l maxPages,
  stable (onWorld R) (Cei.pageLoop E fuel page q l maxPages).
Proof.
  induction fuel as [|fuel IH]; intros page q l maxPages; simpl; stable_auto.
Qed.
#[local] Hint Resolve stable_cei_pageLoop : stable.

Lemma stable_linkedin_parsePostedDate text :
  stable R (LinkedIn.parsePostedDate E text).
Proof. unfold LinkedIn.parsePostedDate. stable_auto. Qed.
#[local] Hint Resolve stable_linkedin_parsePostedDate : stable.

Lemma stable_linkedin_extractJobData doc el :
  stable (onWorld R) (LinkedIn.extractJobData E doc el).
Proof. unfold LinkedIn.extractJobData. stable_auto. Qed.
#[local] Hint Resolve stable_linkedin_extractJobData : stable.

Lemma stable_linkedin_eachElement doc els : forall index found,
  stable (onWorld R) (LinkedIn.eachElement E doc index els found).
Proof.
  induction els as [|el els IH]; intros index found; simpl; stable_auto.
Qed.
#[local] Hint Resolve stable_linkedin_eachElement : stable.

Lemma stable_linkedin_buildSearchUrl q l p :
  stable (onWorld R) (LinkedIn.buildSearchUrl E q l p).
Proof. unfold LinkedIn.buildSearchUrl. stable_auto. Qed.
#[local] Hint Resolve stable_linkedin_buildSearchUrl : stable.

Lemma stable_linkedin_extractJobsFromPage doc :
  stable (onWorld R) (LinkedIn.extractJobsFromPage E doc).
Proof. unfold LinkedIn.extractJobsFromPage. stable_auto. Qed.
#[local] Hint Resolve stable_linkedin_extractJobsFromPage : stable.

Lemma stable_linkedin_pageLoop fuel : forall page q l maxPages,
  stable (onWorld R) (LinkedIn.pageLoop E fuel page q l maxPages).
Proof.
  induction fuel as [|fuel IH]; intros page q l maxPages; simpl; stable_auto.
Qed.
#[local] Hint Resolve stable_linkedin_pageLoop : stable.

Lemma stable_reset : stable (onWorld R) Base.reset.
Proof. unfold Base.reset. stable_auto. Qed.
#[local] Hint Resolve stable_reset : stable.

(** With the Job collection as well: the whole of [scrape]. *)
Hypothesis R_update : forall id fields, stable R (updateOne E id fields).

Lemma stable_saveJob clean job c :
  (forall self j, stable R (clean self j)) ->
  stable (onWorld R) (Base.saveJob E clean job c).
Proof. intros Hc. unfold Base.saveJob. stable_auto. Qed.
#[local] Hint Resolve stable_saveJob : stable.

Lemma stable_saveLoop clean js : forall c,
  (forall self j, stable R (clean self j)) ->
  stable (onWorld R) (Base.saveLoop E clean js c).
Proof.
  induction js as [|j js IH]; intros c Hc; simpl; stable_auto.
Qed.
#[local] Hint Resolve stable_saveLoop : stable.

Lemma stable_saveJobs clean jobs :
  (forall self j, stable R (clean self j)) ->
  stable (onWorld R) (Base.saveJobs E clean jobs).
Proof. intros Hc. unfold Base.saveJobs. stable_auto. Qed.
#[local] Hint Resolve stable_saveJobs : stable.

Lemma stable_cei_scrape options : stable (onWorld R) (Cei.scrape E options).
Proof. unfold Cei.scrape, Cei.saveJobs. stable_auto. Qed.

Lemma stable_linkedin_scrape options : stable (onWorld R) (LinkedIn.scrape E options).
Proof. unfold LinkedIn.scrape, LinkedIn.saveJobs. stable_auto. Qed.

Lemma stable_scrapeMethod options : stable (onWorld R) (Service.scrapeMethod E options).
Proof.
  unfold Service.scrapeMethod, Base.scrape. stable_auto;
    [apply stable_cei_scrape | apply stable_linkedin_scrape].
Qed.
End Frame.


Global Instance sameService_preorder : PreOrder sameService.
Proof.
  split.
  - intros w. repeat split.
  - intros a b c (H1 & H2 & H3 & H4) (G1 & G2 & G3 & G4).
    repeat split; congruence.
Qed.

Global Instance sameStore_preorder : PreOrder sameStore.
Proof.
  split.
  - intros w. split; reflexivity.
  - intros a b c [H1 H2] [G1 G2]. split; congruence.
Qed.

Lemma sameService_now E : stable sameService (now E).
Proof. intros w. repeat split. Qed.

Lemma sameService_get E rq : stable sameService (axios_get E rq).
Proof. intros w. unfold axios_get. destruct (net E _ rq); repeat split. Qed.

Lemma sameService_timer ms : stable sameService (setTimeout ms).
Proof. intros w. repeat split. Qed.

Lemma sameService_update E id fields : stable sameService (updateOne E id fields).
Proof.
  intros w. unfold updateOne.
  destruct (dbfault E _); [repeat split|].
  destruct (updateFirst _ _ _); repeat split.
Qed.

Lemma sameStore_now E : stable sameStore (now E).
Proof. intros w. split; reflexivity. Qed.

Lemma sameStore_get E rq : stable sameStore (axios_get E rq).
Proof. intros w. unfold axios_get. destruct (net E _ rq); split; reflexivity. Qed.

Lemma sameStore_timer ms : stable sameStore (setTimeout ms).
Proof. intros w. split; reflexivity. Qed.

(** A scrape leaves the service alone. *)
Lemma scrapeMethod_sameService E options s w :
  sameService w (snd (snd (Service.scrapeMethod E options (s, w)))).
Proof.
  apply (stable_scrapeMethod E sameService (sameService_now E) (sameService_get E)
           sameService_timer (sameService_update E) options (s, w)).
Qed.

(** ** Maps *)

Lemma eqb_refl (k : jsstring) : JsString.eqb k k = true.
Proof. unfold JsString.eqb. apply bool_decide_eq_true. reflexivity. Qed.

Lemma mget_mdelete {V} (k : jsstring) (m : JsMap.t V) : mget k (mdelete k m) = None.
Proof.
  induction m as [|[k' v] m IH]; simpl; [reflexivity|].
  destruct (JsString.eqb k k') eqn:Hk; simpl; [exact IH|].
  rewrite Hk. exact IH.
Qed.

Lemma mget_mset {V} (k : jsstring) (v : V) (m : JsMap.t V) : mget k (mset k v m) = Some v.
Proof.
  induction m as [|[k' v'] m IH]; simpl.
  - rewrite eqb_refl. reflexivity.
  - destruct (JsString.eqb k k') eqn:Hk; simpl; rewrite Hk; [reflexivity | exact IH].
Qed.

(** ** The registry and the service *)

Lemma getScraper_cases name cfg w :
  (exists e, Registry.getScraper name cfg w = (Throw e, w))
  \/ (exists s, Registry.getScraper name cfg w
                = (Ok (length (heap w)), set_heap (fun h => h ++ [s]) w)
                /\ sc_jobs s = [] /\ sc_errors s = []).
Proof.
  unfold Registry.getScraper, bind, get.
  destruct (mget name (registry w)) as [cls|]; [|left; eexists; reflexivity].
  destruct cfg as [| |c]; simpl.
  - right. eexists. split; [reflexivity|]. destruct cls; split; reflexivity.
  - left. eexists. reflexivity.
  - right. eexists. split; [reflexivity|]. destruct cls; split; reflexivity.
Qed.

Lemma invoke_scrape_service E ref o w :
  let w' := snd (Service.invoke ref (Service.scrapeMethod E o) w) in
  scrapeHistory w' = scrapeHistory w /\ activeScrapes w' = activeScrapes w
  /\ registry w' = registry w /\ length (heap w') = length (heap w).
Proof.
  unfold Service.invoke. destruct (heap w !! ref) as [obj|]; simpl; [|repeat split].
  pose proof (scrapeMethod_sameService E o obj w) as H.
  destruct (Service.scrapeMethod E o (obj, w)) as [r [obj' w']]. simpl in *.
  destruct H as (H1 & H2 & H3 & H4).
  repeat split; try congruence.
  rewrite length_insert. congruence.
Qed.




(** ** Cleaning, validation and the store *)

Lemma base_clean_spec E self job w :
  exists c w', Base.cleanJobData E self job w = (Ok c, w')
    /\ sameStore w w'
    /\ title c = Some (Base.cleanText (title job))
    /\ company c = Some (Base.cleanText (company job))
    /\ location c = Some (Base.cleanText (location job))
    /\ applyLink c = Some (or_else (trim <$> applyLink job) [])
    /\ source c = Some (sc_source self)
    /\ (truthy (externalId job) = true -> externalId c = externalId job)
    /\ allSet c.
Proof.
  unfold Base.cleanJobData, Base.generateExternalId.
  destruct (externalId job) as [[|ch id]|] eqn:Hid; simpl;
  destruct (postedAt job) as [d|]; simpl;
  unfold bind, ret, now; simpl;
  (eexists; eexists; split; [reflexivity|]);
  (split; [split; reflexivity|]);
  unfold allSet; simpl; repeat split; eauto; try discriminate.
Qed.

Lemma clean_spec E cls self job w :
  exists c w', cleanJobDataOf E cls self job w = (Ok c, w')
    /\ sameStore w w'
    /\ title c = Some (Base.cleanText (title job))
    /\ company c = Some (Base.cleanText (company job))
    /\ location c = Some (Base.cleanText (location job))
    /\ applyLink c = Some (or_else (trim <$> applyLink job) [])
    /\ source c = Some (sc_source self)
    /\ (truthy (externalId job) = true -> externalId c = externalId job)
    /\ allSet c.
Proof.
  destruct (base_clean_spec E self job w)
    as (c & w' & Hc & Hs & H1 & H2 & H3 & H4 & H5 & H6 & H7).
  destruct cls; simpl;
    try (exists c, w'; repeat (split; [assumption|]); assumption).
  unfold Cei.cleanJobData, bind. rewrite Hc.
  destruct (truthy (description c)); simpl.
  - eexists; eexists; split; [reflexivity|].
    destruct H7 as (? & ? & ? & ? & ? & ? & ? & ? & ?).
    unfold allSet; simpl. repeat split; eauto; apply Hs.
  - exists c, w'; repeat (split; [first [assumption|reflexivity]|]); assumption.
Qed.


Lemma validate_fields (c : Job) :
  Base.validateJobData c
  = truthy (title c) && truthy (company c) && truthy (location c)
    && truthy (applyLink c) && truthy (source c).
Proof.
  unfold Base.validateJobData, Base.missing, Base.required, truthy. simpl.
  destruct (falsy (title c)), (falsy (company c)), (falsy (location c)),
    (falsy (applyLink c)), (falsy (source c)); reflexivity.
Qed.

Lemma validate_cleaned E cls self job w c w' :
  cleanJobDataOf E cls self job w = (Ok c, w') ->
  Base.validateJobData c = validWhenCleaned self job.
Proof.
  intros Hc.
  destruct (clean_spec E cls self job w) as (c0 & w0 & Hc0 & _ & H1 & H2 & H3 & H4 & H5 & _).
  rewrite Hc in Hc0. injection Hc0 as <- <-.
  rewrite validate_fields, H1, H2, H3, H4, H5. reflexivity.
Qed.

Lemma assign_allSet d c : allSet c -> assign d c = c.
Proof.
  intros ([? H1] & [? H2] & [? H3] & [? H4] & [? H5] & [? H6] & [? H7] & [? H8] & [? H9]).
  destruct c; simpl in *; subst. reflexivity.
Qed.

Lemma updateFirst_None id f docs :
  updateFirst id f docs = None -> List.filter (hasExternalId id) docs = [].
Proof.
  induction docs as [|d r IH]; simpl; [reflexivity|].
  destruct (hasExternalId id d); [discriminate|].
  destruct (updateFirst id f r); [discriminate|]. intros _. apply IH. reflexivity.
Qed.

Lemma updateFirst_Some id f docs docs' :
  allSet f -> externalId f = id ->
  updateFirst id f docs = Some docs' ->
  exists d rest, List.filter (hasExternalId id) docs = d :: rest
    /\ List.filter (hasExternalId id) docs' = f :: rest.
Proof.
  intros Hf Hid. revert docs'.
  induction docs as [|d r IH]; simpl; intros docs' H; [discriminate|].
  destruct (hasExternalId id d) eqn:Hd.
  - injection H as <-. simpl. rewrite (assign_allSet d f Hf).
    assert (hasExternalId id f = true) as ->
      by (unfold hasExternalId; apply bool_decide_eq_true; exact Hid).
    eauto.
  - destruct (updateFirst id f r) as [r'|]; [|discriminate].
    injection H as <-. simpl. rewrite Hd. apply IH. reflexivity.
Qed.

Lemma updateFirst_found id f docs :
  List.filter (hasExternalId id) docs <> [] -> is_Some (updateFirst id f docs).
Proof.
  intros H. destruct (updateFirst id f docs) eqn:Hu; [eauto|].
  apply updateFirst_None in Hu. contradiction.
Qed.


Lemma saveJob_spec E cls job cnt self w :
  exists c w1,
    cleanJobDataOf E cls self job w = (Ok c, w1)
    /\ Base.saveJob E (cleanJobDataOf E cls) job cnt (self, w)
       = if negb (Base.validateJobData c) then (Ok (bump_failed cnt), (self, w1))
         else
           let w2 := set_dbcalls (fun l => l ++ [c]) w1 in
           match dbfault E (length (dbcalls w1)) with
           | Some message =>
               (Ok (bump_failed cnt),
                (set_errors (fun l => l ++ [SaveError job message]) self, w2))
           | None =>
               match updateFirst (externalId c) c (collection w1) with
               | Some docs =>
                   (Ok (bump_duplicates cnt), (self, set_collection (fun _ => docs) w2))
               | None =>
                   (Ok (bump_saved cnt),
                    (self, set_collection
                             (fun l => l ++ [assign (newDocument (externalId c)) c]) w2))
               end
           end.
Proof.
  destruct (clean_spec E cls self job w) as (c & w1 & Hc & _).
  exists c, w1. split; [exact Hc|].
  unfold Base.saveJob, try_catch, bind, Base.this, gets, on_snd. simpl.
  rewrite Hc. simpl.
  destruct (Base.validateJobData c); simpl; [|reflexivity].
  unfold updateOne.
  destruct (dbfault E (length (dbcalls w1))); simpl; [reflexivity|].
  destruct (updateFirst (externalId c) c (collection w1)); reflexivity.
Qed.

Lemma cleanText_falsy t : falsy t = true -> Base.cleanText t = [].
Proof. intros H. unfold Base.cleanText. rewrite H. reflexivity. Qed.

Lemma trimmed_falsy (a : option jsstring) : falsy a = true -> or_else (trim <$> a) [] = [].
Proof. destruct a as [[|c s]|]; simpl; intros H; try discriminate; reflexivity. Qed.


Lemma saveJobs_one E cls job self w :
  Base.saveJobs E (cleanJobDataOf E cls) (Some [job]) (self, w)
  = match Base.saveJob E (cleanJobDataOf E cls) job
            {| Base.c_saved := 0; Base.c_failed := 0; Base.c_duplicates := 0 |} (self, w) with
    | (Ok c, s') =>
        (Ok {| saved := Base.c_saved c; duplicates := Base.c_duplicates c;
               failed := Base.c_failed c; total := Some 1 |}, s')
    | (Throw e, s') => (Throw e, s')
    end.
Proof.
  unfold Base.saveJobs, Base.this, gets. simpl. unfold bind. simpl.
  destruct (Base.saveJob _ _ _ _ _) as [[c|e] s']; reflexivity.
Qed.

(** ** Fetching with retries *)

Lemma fetchPage_from_rejected E self url :
  forall fuel (msg : nat -> jsstring) a last w,
    Z.of_nat a + Z.of_nat fuel = sc_maxRetries self + 1 ->
    (forall i, (i < fuel)%nat ->
       net E (length (requests w) + i) (requestOf self url) = Rejected (msg i)) ->
    exists w',
      Base.fetchPage_from E fuel (Z.of_nat a) last url (self, w)
      = (fst (Base.fetchFailed url (sc_maxRetries self)
                (match fuel with O => last | S f => Some (msg f) end) (self, w)),
         (self, w'))
      /\ requests w' = requests w ++ replicate fuel (requestOf self url)
      /\ timers w' = timers w
           ++ map (fun i => sc_delayBetweenRequests self * Z.of_nat i) (seq a (fuel - 1)).
Proof.
  induction fuel as [|fuel IH]; intros msg a last w Ha Hnet.
  - exists w. simpl. unfold bind, Base.this, gets. simpl.
    rewrite !app_nil_r. split; [|split; reflexivity].
    unfold Base.fetchFailed. destruct last; reflexivity.
  - simpl. unfold bind at 1. unfold Base.this, gets. simpl.
    destruct (Z.of_nat a <=? sc_maxRetries self) eqn:Hle; [|lia].
    unfold try_catch, on_snd, axios_get. simpl.
    fold (requestOf self url).
    rewrite <- (Nat.add_0_r (length (requests w))), (Hnet 0%nat) by lia.
    simpl.
    set (w1 := set_requests (fun l => l ++ [requestOf self url]) w).
    unfold bind at 1.
    assert (exists w2, when (Z.of_nat a <? sc_maxRetries self)
                         (Base.delay (sc_delayBetweenRequests self * Z.of_nat a)) (self, w1)
                       = (Ok tt, (self, w2))
              /\ requests w2 = requests w1
              /\ timers w2 = timers w
                   ++ (if (0 <? fuel)%nat
                       then [sc_delayBetweenRequests self * Z.of_nat a] else []))
      as (w2 & Hw & Hr2 & Ht2).
    { destruct (Z.of_nat a <? sc_maxRetries self) eqn:Hlt; simpl.
      - eexists. split; [reflexivity|]. simpl. split; [reflexivity|].
        destruct fuel; [lia|reflexivity].
      - exists w1. split; [reflexivity|]. split; [reflexivity|].
        destruct fuel; [simpl; rewrite app_nil_r; reflexivity | lia]. }
    rewrite Hw.
    replace (Z.of_nat a + 1) with (Z.of_nat (S a)) by lia.
    destruct (IH (fun i => msg (S i)) (S a) (Some (msg 0%nat)) w2) as (w' & Heq & Hreq & Htim).
    { lia. }
    { intros i Hi. rewrite Hr2. subst w1. simpl. rewrite length_app. simpl.
      replace (length (requests w) + 1 + i)%nat with (length (requests w) + S i)%nat by lia.
      apply Hnet. lia. }
    exists w'. rewrite Heq. split; [|split].
    + f_equal. destruct fuel; reflexivity.
    + rewrite Hreq, Hr2. subst w1. simpl. rewrite <- app_assoc. reflexivity.
    + rewrite Htim, Ht2. rewrite <- app_assoc. f_equal.
      destruct fuel as [|fuel']; simpl; [reflexivity|].
      rewrite Nat.sub_0_r. reflexivity.
Qed.

Lemma contains_middle (a b c : jsstring) : contains b (a ++ b ++ c).
Proof. exists a, c. reflexivity. Qed.

Lemma contains_end (a b : jsstring) : contains b (a ++ b).
Proof. exists a, []. rewrite app_nil_r. reflexivity. Qed.

(** ** Scraping and instances *)

Lemma pageLoop_sameStore_cei E fuel page q l m s :
  sameStore (snd s) (snd (snd (Cei.pageLoop E fuel page q l m s))).
Proof.
  apply (stable_cei_pageLoop E sameStore (sameStore_now E) (sameStore_get E)
           sameStore_timer fuel page q l m s).
Qed.

Lemma pageLoop_sameStore_linkedin E fuel page q l m s :
  sameStore (snd s) (snd (snd (LinkedIn.pageLoop E fuel page q l m s))).
Proof.
  apply (stable_linkedin_pageLoop E sameStore (sameStore_now E) (sameStore_get E)
           sameStore_timer fuel page q l m s).
Qed.


Lemma invoke_heap_other E ref other o w s :
  ref <> other -> heap w !! other = Some s ->
  heap (final (Service.invoke ref (Service.scrapeMethod E o)) w) !! other = Some s.
Proof.
  intros Hne Hs. unfold final, Service.invoke.
  destruct (heap w !! ref) as [obj|]; simpl; [|exact Hs].
  pose proof (scrapeMethod_sameService E o obj w) as (Hh & _).
  destruct (Service.scrapeMethod E o (obj, w)) as [r [obj' w']]. simpl in *.
  rewrite list_lookup_insert_ne by exact Hne. rewrite <- Hh. exact Hs.
Qed.

Lemma getScraper_registered name cfg w :
  is_Some (mget name (registry w)) -> cfg <> Null ->
  exists s, Registry.getScraper name cfg w
            = (Ok (length (heap w)), set_heap (fun h => h ++ [s]) w)
            /\ sc_jobs s = [] /\ sc_errors s = [].
Proof.
  intros [cls Hcls] Hcfg.
  unfold Registry.getScraper, bind, get. rewrite Hcls.
  destruct cfg as [| |c]; simpl; [|contradiction|].
  - eexists. split; [reflexivity|]. destruct cls; split; reflexivity.
  - eexists. split; [reflexivity|]. destruct cls; split; reflexivity.
Qed.

(** ** The claims of the specification *)

(** C1 (as the code behaves on failed runs): the [catch] branch of
    [runScraper] pushes its entry without the check the [try] branch makes,
    so 101 runs that throw leave 101 entries in the history. *)
Theorem C1_failed_runs_overflow :
  length (scrapeHistory
            (final (Service.runMultipleScrapersSequential Example.tickEnv
                      (replicate 101 Example.nullConfigRun)) initialWorld))
  = 101%nat.
Proof. vm_compute. reflexivity. Qed.

(** C2: for jobs that pass validation once cleaned and carry the same
    explicit [externalId], with a store that answers and holds at most one
    document of that id, saving the first and then the second leaves
    exactly one document of that id, which is the second job as cleaned,
    and the second call counts one duplicate and no save. *)
Theorem C2_save_twice (E : Env) (cls : ScraperClass) (self : Scraper) (w : World)
    (job1 job2 : Job) (id : jsstring) :
  externalId job1 = Some id -> externalId job2 = Some id -> id <> [] ->
  validWhenCleaned self job1 = true -> validWhenCleaned self job2 = true ->
  dbfault E (length (dbcalls w)) = None ->
  dbfault E (S (length (dbcalls w))) = None ->
  (length (List.filter (hasExternalId (Some id)) (collection w)) <= 1)%nat ->
  let save job := Base.saveJobs E (cleanJobDataOf E cls) (Some [job]) in
  let s1 := final (save job1) (self, w) in
  let s2 := final (save job2) s1 in
  exists stored,
    List.filter (hasExternalId (Some id)) (collection (snd s2)) = [stored]
    /\ value (result (cleanJobDataOf E cls self job2) (snd s1)) = Some stored
    /\ result (save job2) s1
       = Ok {| saved := 0; duplicates := 1; failed := 0; total := Some 1 |}.
Proof.
  intros Hid1 Hid2 Hne Hv1 Hv2 Hf1 Hf2 Huniq save s1 s2.
  assert (Htr : forall j, externalId j = Some id -> truthy (externalId j) = true).
  { intros j ->. destruct id; [contradiction|reflexivity]. }
  (* the first call *)
  destruct (saveJob_spec E cls job1
              {| Base.c_saved := 0; Base.c_failed := 0; Base.c_duplicates := 0 |} self w)
    as (c1 & w1 & Hc1 & Hs1).
  destruct (clean_spec E cls self job1 w)
    as (c1' & w1' & Hc1' & [Hcol1 Hdb1] & _ & _ & _ & _ & _ & He1 & Hall1).
  rewrite Hc1 in Hc1'. injection Hc1' as <- <-.
  rewrite (validate_cleaned _ _ _ _ _ _ _ Hc1), Hv1 in Hs1. simpl in Hs1.
  rewrite <- Hdb1, Hf1 in Hs1.
  specialize (He1 (Htr _ Hid1)). rewrite Hid1 in He1.
  assert (exists w1'', s1 = (self, w1'')
            /\ dbcalls w1'' = dbcalls w ++ [c1]
            /\ exists x, List.filter (hasExternalId (Some id)) (collection w1'') = [x])
    as (w1'' & Hs1eq & Hdbc & x & Hx).
  { subst s1 save. unfold final. rewrite saveJobs_one, Hs1. rewrite He1.
    destruct (updateFirst (Some id) c1 (collection w1)) as [docs|] eqn:Hu.
    - eexists. split; [reflexivity|]. simpl. split; [congruence|].
      destruct (updateFirst_Some _ _ _ _ Hall1 He1 Hu) as (d & rest & Hd & Hd').
      rewrite Hd'. rewrite Hcol1, Hd in Huniq. simpl in Huniq.
      destruct rest; [eauto | simpl in Huniq; lia].
    - eexists. split; [reflexivity|]. simpl. split; [congruence|].
      rewrite List.filter_app, (updateFirst_None _ _ _ Hu). simpl.
      rewrite (assign_allSet _ _ Hall1).
      assert (hasExternalId (Some id) c1 = true) as ->
        by (apply bool_decide_eq_true; exact He1).
      eauto. }
  (* the second call *)
  destruct (saveJob_spec E cls job2
              {| Base.c_saved := 0; Base.c_failed := 0; Base.c_duplicates := 0 |} self w1'')
    as (c2 & w2 & Hc2 & Hs2).
  destruct (clean_spec E cls self job2 w1'')
    as (c2' & w2' & Hc2' & [Hcol2 Hdb2] & _ & _ & _ & _ & _ & He2 & Hall2).
  rewrite Hc2 in Hc2'. injection Hc2' as <- <-.
  rewrite (validate_cleaned _ _ _ _ _ _ _ Hc2), Hv2 in Hs2. simpl in Hs2.
  rewrite <- Hdb2, Hdbc, length_app, Nat.add_1_r, Hf2 in Hs2.
  specialize (He2 (Htr _ Hid2)). rewrite Hid2 in He2. rewrite He2 in Hs2.
  destruct (updateFirst_found (Some id) c2 (collection w2)) as [docs Hu].
  { rewrite <- Hcol2, Hx. discriminate. }
  rewrite Hu in Hs2.
  destruct (updateFirst_Some _ _ _ _ Hall2 He2 Hu) as (d & rest & Hd & Hd').
  rewrite <- Hcol2, Hx in Hd. injection Hd as _ <-.
  exists c2. subst s2 save. unfold final, result.
  rewrite Hs1eq, saveJobs_one, Hs2. simpl.
  rewrite Hc2. simpl. repeat split. exact Hd'.
Qed.

Lemma C2_witness :
  let job t :=
    {| title := Some t; company := Some (js "Acme");
       location := Some (js "Santiago"); description := None; source := None;
       applyLink := Some (js "https://example.org/jobs/view/42");
       externalId := Some (js "linkedin-42"); tags := None; postedAt := None |} in
  let save j :=
    Base.saveJobs Example.tickEnv
      (cleanJobDataOf Example.tickEnv LinkedInJobsScraper) (Some [j]) in
  let s1 := final (save (job (js "Developer"))) (LinkedIn.construct emptyConfig, initialWorld) in
  let s2 := final (save (job (js "Senior Developer"))) s1 in
  exists stored,
    List.filter (hasExternalId (Some (js "linkedin-42"))) (collection (snd s2)) = [stored]
    /\ value (result (cleanJobDataOf Example.tickEnv LinkedInJobsScraper
                        (LinkedIn.construct emptyConfig) (job (js "Senior Developer")))
                (snd s1)) = Some stored
    /\ result (save (job (js "Senior Developer"))) s1
       = Ok {| saved := 0; duplicates := 1; failed := 0; total := Some 1 |}.
Proof.
  intros job save s1 s2.
  apply (C2_save_twice Example.tickEnv LinkedInJobsScraper
           (LinkedIn.construct emptyConfig) initialWorld
           (job (js "Developer")) (job (js "Senior Developer")) (js "linkedin-42")).
  - reflexivity.
  - reflexivity.
  - vm_compute. discriminate.
  - vm_compute. reflexivity.
  - vm_compute. reflexivity.
  - reflexivity.
  - reflexivity.
  - simpl. lia.
Defined.

(** C3 (as the code behaves on an empty page): with [maxPages] 1 and a
    page without listings, [scrape] makes one request, leaves the store
    alone and returns success with no jobs, but the statistics come from
    the early return of [saveJobs], which has no [total]. *)
Theorem C3_empty_page_stats :
  let expected :=
    Ok {| success := true; jobs := [];
          stats := {| saved := 0; duplicates := 0; failed := 0; total := None |};
          errors := [] |} in
  let cei := Cei.scrape Example.tickEnv Example.onePage in
  let linkedin := LinkedIn.scrape Example.tickEnv Example.onePage in
  let s1 := (Cei.construct emptyConfig, initialWorld) in
  let s2 := (LinkedIn.construct emptyConfig, initialWorld) in
  result cei s1 = expected /\ result linkedin s2 = expected
  /\ length (requests (snd (final cei s1))) = 1%nat
  /\ length (requests (snd (final linkedin s2))) = 1%nat
  /\ dbcalls (snd (final cei s1)) = [] /\ collection (snd (final cei s1)) = []
  /\ dbcalls (snd (final linkedin s2)) = [] /\ collection (snd (final linkedin s2)) = [].
Proof. vm_compute. repeat split; reflexivity. Qed.



(** C5: when every attempt is rejected and [maxRetries] is at least 1,
    [fetchPage] makes [maxRetries] requests for the URL, waits
    [delayBetweenRequests] times the attempt number after each attempt but
    the last, and throws an error whose message holds the URL and the
    message of the last rejection. *)
Theorem C5_fetchPage_exhausts_retries (E : Env) (self : Scraper) (w : World)
    (url : jsstring) (msg : nat -> jsstring) :
  let n := Z.to_nat (sc_maxRetries self) in
  1 <= sc_maxRetries self ->
  (forall i, (i < n)%nat ->
     net E (length (requests w) + i) (requestOf self url) = Rejected (msg i)) ->
  exists message,
    result (Base.fetchPage E url) (self, w) = Throw message
    /\ message = fetchError url (sc_maxRetries self) (msg (n - 1)%nat)
    /\ contains url message /\ contains (msg (n - 1)%nat) message
    /\ requests (snd (final (Base.fetchPage E url) (self, w)))
       = requests w ++ replicate n (requestOf self url)
    /\ timers (snd (final (Base.fetchPage E url) (self, w)))
       = timers w
         ++ map (fun i => sc_delayBetweenRequests self * Z.of_nat i) (seq 1 (n - 1)).
Proof.
  intros n Hn Hnet.
  destruct (fetchPage_from_rejected E self url n msg 1%nat None w)
    as (w' & Heq & Hreq & Htim); [lia | exact Hnet |].
  unfold result, final, Base.fetchPage, bind, Base.this, gets. simpl.
  change (Z.to_nat (sc_maxRetries self)) with n.
  change 1 with (Z.of_nat 1). rewrite Heq. cbn [fst snd].
  destruct n as [|n'] eqn:Hn'; [lia|]. cbn [Nat.sub]. rewrite Nat.sub_0_r.
  exists (fetchError url (sc_maxRetries self) (msg n')).
  split; [reflexivity|]. split; [reflexivity|].
  split; [|split; [|split]].
  - unfold fetchError. apply contains_middle.
  - unfold fetchError. rewrite !app_assoc. apply contains_end.
  - exact Hreq.
  - rewrite Htim. cbn [Nat.sub]. rewrite Nat.sub_0_r. reflexivity.
Qed.

Lemma C5_witness :
  let self := Cei.construct emptyConfig in
  let url := js "https://example.org/jobs" in
  exists message,
    result (Base.fetchPage Example.downEnv url) (self, initialWorld) = Throw message
    /\ message = fetchError url 3 (js "timeout")
    /\ contains url message /\ contains (js "timeout") message
    /\ requests (snd (final (Base.fetchPage Example.downEnv url) (self, initialWorld)))
       = replicate 3 (requestOf self url)
    /\ timers (snd (final (Base.fetchPage Example.downEnv url) (self, initialWorld)))
       = [2000; 4000].
Proof.
  intros self url.
  apply (C5_fetchPage_exhausts_retries Example.downEnv self initialWorld url
           (fun _ => js "timeout")).
  - vm_compute. discriminate.
  - intros i Hi. reflexivity.
Defined.

(** C6 (amended): [validateJobData] is false for a job without title,
    company, location, applyLink or source.  [saveJobs] validates the job
    as cleaned: a job without title, company, location or applyLink is
    counted as failed and the store is neither written nor asked; the
    source of the cleaned job is the label of the scraper, whatever the
    job had. *)
Theorem C6_missing_fields (E : Env) (cls : ScraperClass) :
  (forall job,
     falsy (title job) || falsy (company job) || falsy (location job)
     || falsy (applyLink job) || falsy (source job) = true ->
     Base.validateJobData job = false)
  /\ (forall job counts self w,
        falsy (title job) || falsy (company job) || falsy (location job)
        || falsy (applyLink job) = true ->
        exists w',
          Base.saveJob E (cleanJobDataOf E cls) job counts (self, w)
          = (Ok {| Base.c_saved := Base.c_saved counts;
                   Base.c_failed := Base.c_failed counts + 1;
                   Base.c_duplicates := Base.c_duplicates counts |}, (self, w'))
          /\ dbcalls w' = dbcalls w /\ collection w' = collection w)
  /\ (forall job self w,
        source <$> value (result (cleanJobDataOf E cls self job) w)
        = Some (Some (sc_source self))).
Proof.
  split; [|split].
  - intros job H. rewrite validate_fields. unfold truthy.
    destruct (falsy (title job)), (falsy (company job)), (falsy (location job)),
      (falsy (applyLink job)), (falsy (source job)); simpl in *;
      first [reflexivity | discriminate].
  - intros job counts self w H.
    destruct (saveJob_spec E cls job counts self w) as (c & w1 & Hc & Hs).
    destruct (clean_spec E cls self job w)
      as (c0 & w0 & Hc0 & [Hcol Hdb] & H1 & H2 & H3 & H4 & _).
    rewrite Hc in Hc0. injection Hc0 as <- <-.
    assert (Base.validateJobData c = false) as Hv.
    { rewrite validate_fields, H1, H2, H3, H4. unfold truthy.
      destruct (falsy (title job)) eqn:F1;
        [rewrite (cleanText_falsy _ F1); reflexivity|].
      destruct (falsy (company job)) eqn:F2;
        [rewrite (cleanText_falsy _ F2), !andb_false_r; reflexivity|].
      destruct (falsy (location job)) eqn:F3;
        [rewrite (cleanText_falsy _ F3), !andb_false_r; reflexivity|].
      destruct (falsy (applyLink job)) eqn:F4; [|discriminate].
      rewrite (trimmed_falsy _ F4), !andb_false_r. reflexivity. }
    rewrite Hv in Hs. simpl in Hs. exists w1. split; [exact Hs|].
    split; congruence.
  - intros job self w.
    destruct (clean_spec E cls self job w) as (c & w' & Hc & _ & _ & _ & _ & _ & H5 & _).
    unfold result. rewrite Hc. simpl. rewrite H5. reflexivity.
Qed.

(** A job without [source], valid otherwise: [validateJobData] rejects it,
    yet [saveJobs] saves it and calls the store once. *)
Lemma C6_counterexample :
  let job :=
    {| title := Some (js "Developer"); company := Some (js "Acme");
       location := Some (js "Santiago"); description := None; source := None;
       applyLink := Some (js "https://example.org/jobs/view/42");
       externalId := Some (js "linkedin-42"); tags := None; postedAt := None |} in
  let run :=
    Base.saveJobs Example.tickEnv
      (cleanJobDataOf Example.tickEnv LinkedInJobsScraper) (Some [job]) in
  let s := (LinkedIn.construct emptyConfig, initialWorld) in
  Base.validateJobData job = false
  /\ result run s = Ok {| saved := 1; duplicates := 0; failed := 0; total := Some 1 |}
  /\ length (dbcalls (snd (final run s))) = 1%nat
  /\ length (collection (snd (final run s))) = 1%nat.
Proof. vm_compute. repeat split; reflexivity. Qed.

Lemma C6_witness :
  let job :=
    {| title := None; company := Some (js "Acme");
       location := Some (js "Santiago"); description := None; source := None;
       applyLink := Some (js "https://example.org/jobs/view/42");
       externalId := None; tags := None; postedAt := None |} in
  let counts := {| Base.c_saved := 0; Base.c_failed := 0; Base.c_duplicates := 0 |} in
  let self := LinkedIn.construct emptyConfig in
  exists w',
    Base.saveJob Example.tickEnv (cleanJobDataOf Example.tickEnv LinkedInJobsScraper)
      job counts (self, initialWorld)
    = (Ok {| Base.c_saved := 0; Base.c_failed := 0 + 1; Base.c_duplicates := 0 |},
       (self, w'))
    /\ dbcalls w' = dbcalls initialWorld /\ collection w' = collection initialWorld.
Proof.
  intros job counts self.
  apply (proj1 (proj2 (C6_missing_fields Example.tickEnv LinkedInJobsScraper))
           job counts self initialWorld).
  reflexivity.
Defined.

(** C7 (as the code behaves at "hace 5 días"): the alternation of the CEI
    pattern matches the bare word "hace" without a number, so
    [extractPostedDate] yields an Invalid Date; the LinkedIn patterns know
    no Spanish unit, so [parsePostedDate] yields the current time.
    Neither yields the date five days before now. *)
Theorem C7_hace_5_dias (E : Env) (w : World) :
  result (Cei.extractPostedDate E Example.emptyPage (dateElement (js "hace 5 días"))) w
  = Ok None
  /\ result (LinkedIn.parsePostedDate E (js "hace 5 días")) w
     = Ok (Some (clock E (reads w))).
Proof.
  split; vm_compute; reflexivity.
Qed.




(** C9: for a registered name and configurations that are not [null],
    two calls of [getScraper] return two different references to new
    instances whose [jobs] and [errors] are empty, and a scrape run on one
    of them leaves the other as it is. *)
Theorem C9_getScraper_fresh (name : jsstring) (config1 config2 : Nullable Config)
    (w : World) :
  is_Some (mget name (registry w)) -> config1 <> Null -> config2 <> Null ->
  exists r1 r2 w1 w2 s1 s2,
    Registry.getScraper name config1 w = (Ok r1, w1)
    /\ Registry.getScraper name config2 w1 = (Ok r2, w2)
    /\ r1 <> r2
    /\ heap w2 !! r1 = Some s1 /\ heap w2 !! r2 = Some s2
    /\ sc_jobs s1 = [] /\ sc_errors s1 = []
    /\ sc_jobs s2 = [] /\ sc_errors s2 = []
    /\ (forall E options,
          heap (final (Service.invoke r1 (Service.scrapeMethod E options)) w2) !! r2
          = Some s2)
    /\ (forall E options,
          heap (final (Service.invoke r2 (Service.scrapeMethod E options)) w2) !! r1
          = Some s1).
Proof.
  intros Hreg H1 H2.
  destruct (getScraper_registered name config1 w Hreg H1) as (s1 & Hg1 & Hj1 & He1).
  set (w1 := set_heap (fun h => h ++ [s1]) w) in *.
  destruct (getScraper_registered name config2 w1 Hreg H2) as (s2 & Hg2 & Hj2 & He2).
  set (w2 := set_heap (fun h => h ++ [s2]) w1) in *.
  assert (Hl1 : heap w2 !! length (heap w) = Some s1).
  { subst w2 w1. simpl. rewrite lookup_app_l by (rewrite length_app; simpl; lia).
    apply list_lookup_middle. reflexivity. }
  assert (Hl2 : heap w2 !! length (heap w1) = Some s2).
  { subst w2. simpl. apply list_lookup_middle. reflexivity. }
  assert (Hne : length (heap w) <> length (heap w1)).
  { subst w1. simpl. rewrite length_app. simpl. lia. }
  exists (length (heap w)), (length (heap w1)), w1, w2, s1, s2.
  repeat split; try assumption.
  - intros E options. apply invoke_heap_other; assumption.
  - intros E options. apply invoke_heap_other; [congruence | assumption].
Qed.

Lemma C9_witness :
  exists r1 r2 w1 w2 s1 s2,
    Registry.getScraper (js "linkedin") Undefined initialWorld = (Ok r1, w1)
    /\ Registry.getScraper (js "linkedin") (Obj emptyConfig) w1 = (Ok r2, w2)
    /\ r1 <> r2
    /\ heap w2 !! r1 = Some s1 /\ heap w2 !! r2 = Some s2
    /\ sc_jobs s1 = [] /\ sc_errors s1 = []
    /\ sc_jobs s2 = [] /\ sc_errors s2 = []
    /\ (forall E options,
          heap (final (Service.invoke r1 (Service.scrapeMethod E options)) w2) !! r2
          = Some s2)
    /\ (forall E options,
          heap (final (Service.invoke r2 (Service.scrapeMethod E options)) w2) !! r1
          = Some s1).
Proof.
  apply (C9_getScraper_fresh (js "linkedin") Undefined (Obj emptyConfig) initialWorld).
  - vm_compute. eexists. reflexivity.
  - discriminate.
  - discriminate.
Defined.

(** C10: for a limit of at least 1, [getScrapeHistory] returns the most
    recent min(limit, length) entries, newest first; for the limit 0 it
    returns the whole history, newest first; without a limit it takes 20. *)
Theorem C10_getScrapeHistory (w : World) :
  (forall limit, 1 <= limit ->
     result (Service.getScrapeHistory (Some limit)) w
     = Ok (take (Z.to_nat (Z.min limit (Z.of_nat (length (scrapeHistory w)))))
             (rev (scrapeHistory w))))
  /\ result (Service.getScrapeHistory (Some 0)) w = Ok (rev (scrapeHistory w))
  /\ Service.getScrapeHistory None = Service.getScrapeHistory (Some 20).
Proof.
  split; [|split; [|reflexivity]].
  - intros limit Hl. unfold result, Service.getScrapeHistory, bind, get, ret. simpl.
    f_equal. unfold Service.slice.
    destruct (- limit <? 0) eqn:Hneg; [|lia].
    rewrite firstn_rev. f_equal. f_equal. lia.
  - unfold result, Service.getScrapeHistory, bind, get, ret, Service.slice. simpl.
    rewrite Z.min_l by lia. reflexivity.
Qed.

Lemma C10_witness :
  1 <= 2
  /\ result (Service.getScrapeHistory (Some 2))
       (set_scrapeHistory (fun _ => map (fun n =>
            {| h_id := of_Z n; h_scraperName := js "linkedin"; h_startTime := n;
               h_endTime := n; h_duration := 0; h_success := true;
               h_stats := None; h_errorCount := None; h_error := None |})
          [1; 2; 3]) initialWorld)
     = Ok (map (fun n =>
            {| h_id := of_Z n; h_scraperName := js "linkedin"; h_startTime := n;
               h_endTime := n; h_duration := 0; h_success := true;
               h_stats := None; h_errorCount := None; h_error := None |})
          [3; 2]).
Proof.
  split; [lia|].
  rewrite (proj1 (C10_getScrapeHistory _) 2); [reflexivity | lia].
Defined.

(** ** Further properties of the code *)

Lemma eqb_eq (a b : jsstring) : JsString.eqb a b = true <-> a = b.
Proof. unfold JsString.eqb. apply bool_decide_eq_true. Qed.

Lemma eqb_neq (a b : jsstring) : JsString.eqb a b = false <-> a <> b.
Proof. unfold JsString.eqb. apply bool_decide_eq_false. Qed.

Lemma mget_mset_ne {V} (k k' : jsstring) (v : V) (m : JsMap.t V) :
  k <> k' -> mget k' (mset k v m) = mget k' m.
Proof.
  intros Hne. induction m as [|[k0 v0] m IH]; simpl.
  - destruct (JsString.eqb k' k) eqn:H; [apply eqb_eq in H; congruence | reflexivity].
  - destruct (JsString.eqb k k0) eqn:H0; simpl.
    + apply eqb_eq in H0. subst k0.
      destruct (JsString.eqb k' k) eqn:H; [apply eqb_eq in H; congruence | reflexivity].
    + rewrite IH. reflexivity.
Qed.

Lemma mget_mdelete_ne {V} (k k' : jsstring) (m : JsMap.t V) :
  k <> k' -> mget k' (mdelete k m) = mget k' m.
Proof.
  intros Hne. induction m as [|[k0 v0] m IH]; simpl; [reflexivity|].
  destruct (JsString.eqb k k0) eqn:H0; simpl.
  - apply eqb_eq in H0. subst k0.
    destruct (JsString.eqb k' k) eqn:H; [apply eqb_eq in H; congruence | exact IH].
  - rewrite IH. reflexivity.
Qed.

Lemma mget_None_keys {V} (k : jsstring) (m : JsMap.t V) :
  mget k m = None <-> ~ In k (mkeys m).
Proof.
  induction m as [|[k0 v0] m IH]; simpl; [tauto|].
  destruct (JsString.eqb k k0) eqn:H.
  - apply eqb_eq in H. subst. split; [discriminate | intros Hn; exfalso; apply Hn; left; reflexivity].
  - apply eqb_neq in H. rewrite IH. split.
    + intros Hn [He|Hi]; [congruence | contradiction].
    + intros Hn Hi. apply Hn. right. exact Hi.
Qed.








(** X2: after [register(name, cls)], [hasScraper(name)] is true and
    [getScraper(name, config)], for a [config] that is not [null], returns a
    new instance of [cls]; the entries under other names are as before.
    After [unregister(name)] they are still as before, [hasScraper(name)] is
    false and [getScraper(name, config)] throws the error that lists the
    names left. *)
Theorem register_getScraper_unregister (name : jsstring) (cls : ScraperClass)
    (config : Nullable Config) (w : World) :
  config <> Null ->
  let w1 := final (Registry.register name (Some cls)) w in
  let w2 := final (Registry.unregister name) w1 in
  (exists s, Registry.getScraper name config w1
             = (Ok (length (heap w)), set_heap (fun h => h ++ [s]) w1)
             /\ sc_class s = cls)
  /\ result (Registry.hasScraper name) w1 = Ok true
  /\ (forall other, other <> name ->
        mget other (registry w1) = mget other (registry w)
        /\ mget other (registry w2) = mget other (registry w))
  /\ result (Registry.hasScraper name) w2 = Ok false
  /\ Registry.getScraper name config w2
     = (Throw (js "Scraper not found: " ++ name ++ js ". Available scrapers: "
               ++ join (js ", ") (mkeys (registry w2))), w2).
Proof.
  intros Hcfg w1 w2.
  assert (H1 : mget name (registry w1) = Some cls) by apply mget_mset.
  assert (H2 : mget name (registry w2) = None) by apply mget_mdelete.
  split; [|split; [|split; [|split]]].
  - unfold Registry.getScraper, bind, get. rewrite H1.
    destruct config as [| |c]; [|contradiction|]; simpl;
      (eexists; split; [reflexivity|]); destruct cls; reflexivity.
  - unfold result, Registry.hasScraper, gets, mhas. simpl.
    f_equal. apply bool_decide_eq_true. rewrite mget_mset. eauto.
  - intros other Hne. subst w2 w1. simpl.
    rewrite mget_mdelete_ne, mget_mset_ne by congruence. split; reflexivity.
  - unfold result, Registry.hasScraper, gets, mhas. simpl.
    f_equal. apply bool_decide_eq_false. rewrite mget_mdelete. intros [? ?]. discriminate.
  - unfold Registry.getScraper, bind, get. rewrite H2. reflexivity.
Qed.

Lemma register_getScraper_unregister_witness :
  Undefined <> @Null Config
  /\ result (Registry.hasScraper (js "indeed"))
       (final (Registry.register (js "indeed") (Some LinkedInJobsScraper)) initialWorld)
     = Ok true
  /\ result (Registry.hasScraper (js "indeed"))
       (final (Registry.unregister (js "indeed"))
          (final (Registry.register (js "indeed") (Some LinkedInJobsScraper)) initialWorld))
     = Ok false.
Proof.
  assert (Hcfg : Undefined <> @Null Config) by discriminate.
  split; [exact Hcfg|].
  destruct (register_getScraper_unregister (js "indeed") LinkedInJobsScraper Undefined
              initialWorld Hcfg) as (_ & H1 & _ & H2 & _).
  split; [exact H1 | exact H2].
Defined.

Lemma infoLoop_spec entries : forall info w,
  exists infos w',
    Registry.infoLoop entries info w = (Ok (info ++ infos), w')
    /\ map Registry.i_id infos = map fst entries
    /\ length (heap w') = (length (heap w) + length entries)%nat
    /\ registry w' = registry w /\ scrapeHistory w' = scrapeHistory w
    /\ Forall (fun i => Registry.i_name i <> []) infos.
Proof.
  induction entries as [|[name cls] entries IH]; intros info w; simpl.
  - exists [], w. rewrite app_nil_r. repeat split; try lia. constructor.
  - unfold bind, Registry.alloc.
    set (s := match cls with
              | JobPortalScraper => Base.construct JobPortalScraper emptyConfig
              | OficinaDeTrabajoCeiScraper => Cei.construct emptyConfig
              | LinkedInJobsScraper => LinkedIn.construct emptyConfig
              end).
    destruct (IH (info ++ [{| Registry.i_id := name; Registry.i_name := sc_source s;
                              Registry.i_baseUrl := sc_baseUrl s |}])
                 (set_heap (fun h => h ++ [s]) w))
      as (infos & w' & Heq & Hids & Hlen & Hreg & Hhist & Hnames).
    eexists (_ :: infos), w'. rewrite Heq, <- app_assoc. simpl.
    split; [reflexivity|]. split; [rewrite Hids; reflexivity|].
    split; [rewrite Hlen; simpl; rewrite length_app; simpl; lia|].
    split; [exact Hreg|]. split; [exact Hhist|].
    constructor; [|exact Hnames]. simpl. subst s. destruct cls; vm_compute; discriminate.
Qed.

(** X3: [getScrapersInfo] returns one entry per registered name, in the
    order of registration, each with a source label that is not empty; it
    builds one instance per name and leaves the registry as it was. *)
Theorem getScrapersInfo_lists_registry (w : World) :
  exists infos w',
    Registry.getScrapersInfo w = (Ok infos, w')
    /\ map Registry.i_id infos = mkeys (registry w)
    /\ Forall (fun i => Registry.i_name i <> []) infos
    /\ length (heap w') = (length (heap w) + length (registry w))%nat
    /\ registry w' = registry w.
Proof.
  destruct (infoLoop_spec (registry w) [] w)
    as (infos & w' & Heq & Hids & Hlen & Hreg & _ & Hnames).
  exists infos, w'. unfold Registry.getScrapersInfo, bind, get.
  rewrite Heq. repeat split; assumption.
Qed.

Lemma mdelete_mset {V} (k : jsstring) (v : V) (m : JsMap.t V) :
  mdelete k (mset k v m) = mdelete k m.
Proof.
  induction m as [|[k0 v0] m IH]; simpl.
  - rewrite eqb_refl. reflexivity.
  - destruct (JsString.eqb k k0) eqn:H; simpl; rewrite H; [reflexivity|].
    rewrite IH. reflexivity.
Qed.


Lemma runScraper_try_full E id name options w :
  match Service.runScraper_try E id name options w with
  | (Throw e, w') =>
      scrapeHistory w' = scrapeHistory w /\ activeScrapes w' = activeScrapes w
      /\ registry w' = registry w
  | (Ok r, w') =>
      let e := Service.r_entry r in
      let h := scrapeHistory w ++ [e] in
      scrapeHistory w' = (if (100 <? length h)%nat then drop 1 h else h)
      /\ activeScrapes w' = mdelete id (activeScrapes w)
      /\ registry w' = registry w
      /\ Service.scrapeId r = id /\ h_id e = id /\ h_scraperName e = name
      /\ h_error e = None
  end.
Proof.
  unfold Service.runScraper_try.
  unfold bind at 1.
  destruct options as [| |o]; simpl; try (repeat split; reflexivity).
  all: unfold bind at 1.
  all: match goal with |- context [Registry.getScraper ?n ?c ?w] =>
         destruct (getScraper_cases n c w) as [[e He]|[s [Hs _]]]; rewrite ?He, ?Hs end.
  all: try (repeat split; reflexivity).
  all: unfold bind at 1.
  all: match goal with
       | |- context [Service.invoke ?r (Service.scrapeMethod ?E0 ?o) ?w0] =>
           pose proof (invoke_scrape_service E0 r o w0) as (H1 & H2 & H3 & _);
           destruct (Service.invoke r (Service.scrapeMethod E0 o) w0) as [[a|e] w2]
       end; simpl in H1, H2, H3.
  all: try (repeat split; assumption).
  all: unfold bind, modify, get, now, Service.pushHistory, when; simpl.
  all: repeat (rewrite mget_mdelete; simpl).
  all: rewrite H1.
  all: match goal with
       | |- context [(100 <? ?n)%nat] => destruct (100 <? n)%nat eqn:Hcap
       end; simpl.
  all: rewrite ?H1, ?H2, ?H3, ?Hcap.
  all: repeat split; reflexivity.
Qed.

Lemma runScraper_full E name options w :
  let id := scrapeIdAt E name w in
  if bool_decide (name ∈ mkeys (registry w)) then
    match Service.runScraper E name options w with
    | (Ok r, w') =>
        let e := Service.r_entry r in
        let h := scrapeHistory w ++ [e] in
        scrapeHistory w' = (if (100 <? length h)%nat then drop 1 h else h)
        /\ activeScrapes w' = mdelete id (activeScrapes w)
        /\ registry w' = registry w
        /\ Service.scrapeId r = id /\ h_id e = id /\ h_scraperName e = name
    | (Throw msg, w') =>
        activeScrapes w' = mdelete id (activeScrapes w)
        /\ registry w' = registry w
        /\ exists e, scrapeHistory w' = scrapeHistory w ++ [e]
                     /\ h_id e = id /\ h_scraperName e = name
                     /\ h_success e = false /\ h_error e = Some msg
    end
  else
    Service.runScraper E name options w
    = (Throw (js "Unknown scraper: " ++ name ++ js ". Available: "
              ++ join (js ", ") (mkeys (registry w))),
       set_draws S (set_reads S w)).
Proof.
  intros id.
  unfold Service.runScraper, Service.generateScrapeId, Registry.getAvailableScrapers.
  unfold bind, now, randomSuffix, gets, modify. simpl.
  destruct (bool_decide (name ∈ mkeys (registry w))); simpl; [|reflexivity].
  unfold try_catch. fold id.
  match goal with
  | |- context [Service.runScraper_try E ?i ?n ?o ?w0] =>
      pose proof (runScraper_try_full E i n o w0) as H;
      destruct (Service.runScraper_try E i n o w0) as [[r|e] w1]
  end; simpl in H.
  - destruct H as (H1 & H2 & H3 & H4 & H5 & H6 & _).
    rewrite mdelete_mset in H2. repeat split; assumption.
  - destruct H as (H1 & H2 & H3).
    unfold throw. simpl. rewrite H2, H1, mdelete_mset.
    split; [reflexivity|]. split; [exact H3|].
    eexists. split; [reflexivity|]. repeat split; reflexivity.
Qed.

Lemma mdelete_absent {V} (k : jsstring) (m : JsMap.t V) :
  mget k m = None -> mdelete k m = m.
Proof.
  induction m as [|[k0 v0] m IH]; simpl; [reflexivity|].
  destruct (JsString.eqb k k0); [discriminate|]. intros H. rewrite IH by exact H. reflexivity.
Qed.

(** X4: [runScraper] with a name that is not registered throws
    "Unknown scraper: <name>. Available: <names>" before anything is
    recorded: the active scrapes and the history stay as they were, no
    instance is built, no request is sent and the collection is untouched. *)
Theorem runScraper_unknown_name (E : Env) (name : jsstring)
    (options : Nullable Options) (w : World) :
  ~ name ∈ mkeys (registry w) ->
  let w' := final (Service.runScraper E name options) w in
  result (Service.runScraper E name options) w
  = Throw (js "Unknown scraper: " ++ name ++ js ". Available: "
           ++ join (js ", ") (mkeys (registry w)))
  /\ activeScrapes w' = activeScrapes w /\ scrapeHistory w' = scrapeHistory w
  /\ heap w' = heap w /\ requests w' = requests w /\ collection w' = collection w.
Proof.
  intros Hname w'. subst w'. unfold result, final.
  pose proof (runScraper_full E name options w) as H. simpl in H.
  rewrite bool_decide_eq_false_2 in H by exact Hname.
  rewrite H. repeat split; reflexivity.
Qed.

Lemma runScraper_unknown_name_witness :
  result (Service.runScraper Example.tickEnv (js "indeed") Undefined) initialWorld
  = Throw (js "Unknown scraper: indeed. Available: oficina-trabajo-cei, linkedin")
  /\ scrapeHistory (final (Service.runScraper Example.tickEnv (js "indeed") Undefined)
                      initialWorld) = [].
Proof.
  destruct (runScraper_unknown_name Example.tickEnv (js "indeed") Undefined initialWorld)
    as (H1 & _ & H2 & _).
  - vm_compute. intros H. repeat (apply elem_of_cons in H as [H|H]; [discriminate|]).
    apply elem_of_nil in H. exact H.
  - split; [rewrite H1; vm_compute; reflexivity | exact H2].
Defined.

(** X5: a run of a registered scraper, whether it returns or throws, ends
    with no active entry under its own scrape id and with every other active
    entry as it was; when the id was free at the start the active scrapes
    are exactly those from before. *)
Theorem runScraper_leaves_no_active_entry (E : Env) (name : jsstring)
    (options : Nullable Options) (w : World) :
  name ∈ mkeys (registry w) ->
  let id := scrapeIdAt E name w in
  let w' := final (Service.runScraper E name options) w in
  activeScrapes w' = mdelete id (activeScrapes w)
  /\ mget id (activeScrapes w') = None
  /\ (mget id (activeScrapes w) = None -> activeScrapes w' = activeScrapes w).
Proof.
  intros Hname id w'. subst w'. unfold final.
  pose proof (runScraper_full E name options w) as H. simpl in H. fold id in H.
  rewrite bool_decide_eq_true_2 in H by exact Hname.
  assert (Ha : activeScrapes (snd (Service.runScraper E name options w))
               = mdelete id (activeScrapes w)).
  { destruct (Service.runScraper E name options w) as [[r|e] w']; simpl; apply H. }
  rewrite Ha. split; [reflexivity|]. split; [apply mget_mdelete|].
  intros Hfresh. apply mdelete_absent. exact Hfresh.
Qed.

Lemma runScraper_leaves_no_active_entry_witness :
  activeScrapes (final (Service.runScraper Example.downEnv (js "linkedin") Undefined)
                   initialWorld) = [].
Proof.
  destruct (runScraper_leaves_no_active_entry Example.downEnv (js "linkedin") Undefined
              initialWorld) as (_ & _ & H).
  - vm_compute. apply list_elem_of_further. apply list_elem_of_here.
  - apply H. reflexivity.
Defined.

(** X6: a run that returns appends its history entry; a history of 100 or
    more entries first loses its oldest one, so a history of at most 100
    entries stays at most 100 long.  The entry bears the run's scrape id and
    the scraper's name. *)
Theorem runScraper_success_keeps_cap (E : Env) (name : jsstring)
    (options : Nullable Options) (w : World) (r : Service.RunResult) (w' : World) :
  Service.runScraper E name options w = (Ok r, w') ->
  let entry := Service.r_entry r in
  ((length (scrapeHistory w) < 100)%nat ->
     scrapeHistory w' = scrapeHistory w ++ [entry])
  /\ ((100 <= length (scrapeHistory w))%nat ->
        scrapeHistory w' = drop 1 (scrapeHistory w) ++ [entry])
  /\ ((length (scrapeHistory w) <= 100)%nat -> (length (scrapeHistory w') <= 100)%nat)
  /\ Service.scrapeId r = h_id entry /\ h_scraperName entry = name.
Proof.
  intros Hrun entry.
  pose proof (runScraper_full E name options w) as H. simpl in H.
  destruct (bool_decide (name ∈ mkeys (registry w))).
  2: { rewrite Hrun in H. discriminate. }
  rewrite Hrun in H. destruct H as (Hh & _ & _ & Hid & Hid' & Hn).
  fold entry in Hh, Hid', Hn.
  rewrite length_app in Hh. simpl in Hh.
  split; [|split; [|split; [|split]]].
  - intros Hlt. rewrite Hh.
    destruct (100 <? length (scrapeHistory w) + 1)%nat eqn:Hc; [|reflexivity].
    apply Nat.ltb_lt in Hc. lia.
  - intros Hge. rewrite Hh.
    destruct (100 <? length (scrapeHistory w) + 1)%nat eqn:Hc.
    + destruct (scrapeHistory w); [simpl in Hge; lia | reflexivity].
    + apply Nat.ltb_ge in Hc. lia.
  - intros Hle. rewrite Hh.
    destruct (100 <? length (scrapeHistory w) + 1)%nat eqn:Hc.
    + rewrite length_drop, length_app. simpl. lia.
    + apply Nat.ltb_ge in Hc. rewrite length_app. simpl. lia.
  - congruence.
  - exact Hn.
Qed.

Lemma runScraper_success_keeps_cap_witness :
  length (scrapeHistory (final (Service.runScraper Example.tickEnv (js "linkedin") Undefined)
                           initialWorld)) = 1%nat.
Proof.
  unfold final.
  destruct (Service.runScraper Example.tickEnv (js "linkedin") Undefined initialWorld)
    as [[r|e] w'] eqn:Hrun; [|vm_compute in Hrun; discriminate].
  simpl.
  rewrite (proj1 (runScraper_success_keeps_cap _ _ _ _ _ _ Hrun)); [reflexivity|].
  simpl. lia.
Defined.


Global Instance sameDraws_preorder : PreOrder sameDraws.
Proof.
  split.
  - intros w. reflexivity.
  - intros a b c H1 H2. unfold sameDraws in *. congruence.
Qed.

Lemma sameDraws_now E : stable sameDraws (now E).
Proof. intros w. reflexivity. Qed.

Lemma sameDraws_get E rq : stable sameDraws (axios_get E rq).
Proof. intros w. unfold axios_get. destruct (net E _ rq); reflexivity. Qed.

Lemma sameDraws_timer ms : stable sameDraws (setTimeout ms).
Proof. intros w. reflexivity. Qed.

Lemma sameDraws_update E id fields : stable sameDraws (updateOne E id fields).
Proof.
  intros w. unfold updateOne.
  destruct (dbfault E _); [reflexivity|].
  destruct (updateFirst _ _ _); reflexivity.
Qed.

Lemma sameDraws_invoke E ref options :
  stable sameDraws (Service.invoke ref (Service.scrapeMethod E options)).
Proof.
  intros w. unfold Service.invoke. destruct (heap w !! ref) as [obj|]; [|reflexivity].
  pose proof (stable_scrapeMethod E sameDraws (sameDraws_now E) (sameDraws_get E)
                sameDraws_timer (sameDraws_update E) options (obj, w)) as H.
  destruct (Service.scrapeMethod E options (obj, w)) as [r [obj' w']]. exact H.
Qed.

Lemma sameDraws_getScraper name config : stable sameDraws (Registry.getScraper name config).
Proof.
  intros w. unfold Registry.getScraper, bind, get.
  destruct (mget name (registry w)); [|reflexivity].
  destruct (Registry.instantiate _ _); reflexivity.
Qed.

Lemma sameDraws_modify f :
  (forall w, draws (f w) = draws w) -> stable sameDraws (modify f).
Proof. intros H w. apply H. Qed.

Lemma sameDraws_runScraper_try E id name options :
  stable sameDraws (Service.runScraper_try E id name options).
Proof.
  unfold Service.runScraper_try, Service.pushHistory.
  repeat first
    [ apply sameDraws_now | apply sameDraws_invoke | apply sameDraws_getScraper
    | apply sameDraws_modify; intros ?; reflexivity
    | stable_step ].
Qed.

(** Every call of [runScraper] draws one random suffix, for its scrape id,
    and leaves the registry as it is. *)
Lemma runScraper_draws E name options w :
  draws (snd (Service.runScraper E name options w)) = S (draws w).
Proof.
  unfold Service.runScraper, Service.generateScrapeId, Registry.getAvailableScrapers.
  unfold bind at 1. unfold bind at 1. unfold now at 1. unfold bind at 1.
  unfold randomSuffix at 1. unfold ret at 1. unfold bind at 1. unfold gets at 1.
  set (w0 := set_draws S (set_reads S w)).
  match goal with
  | |- draws (snd ((if ?b then ?t else ?m) ?x)) = _ =>
      assert (Hs : stable sameDraws (if b then t else m))
  end.
  { destruct (negb _); [apply stable_throw; apply _|].
    unfold Service.pushHistory.
    repeat first
      [ apply sameDraws_now | apply sameDraws_runScraper_try
      | apply sameDraws_modify; intros ?; reflexivity
      | stable_step ]. }
  rewrite (Hs w0). reflexivity.
Qed.

Lemma runScraper_registry E name options w :
  registry (snd (Service.runScraper E name options w)) = registry w.
Proof.
  pose proof (runScraper_full E name options w) as H. cbv zeta in H.
  destruct (bool_decide (name ∈ mkeys (registry w))).
  - destruct (Service.runScraper E name options w) as [[r|e] w']; cbn [snd]; apply H.
  - rewrite H. reflexivity.
Qed.

(** X7: on an array of [{name, options}] objects, which is what its
    documentation asks for, [runMultipleScrapersSequential] returns one
    slot per element, in order.  Every element is run, each in the state
    the run before it left: a run that returns gives its result, a run that
    throws gives [{scraperName, success: false, error}] with the name asked
    for and the message thrown, and the runs after it still take place.
    One scrape id is drawn per element, and the registry is left as it was. *)
Theorem sequential_runs_are_isolated (E : Env) (configs : list Service.ScraperConfig) :
  forall w, exists slots w',
    Service.runMultipleScrapersSequential E configs w = (Ok slots, w')
    /\ sequentialRuns E configs w slots w'
    /\ map slotName slots = map Service.name configs
    /\ draws w' = (draws w + length configs)%nat
    /\ registry w' = registry w.
Proof.
  induction configs as [|c configs IH]; intros w.
  - exists [], w. cbn [Service.runMultipleScrapersSequential length map].
    split; [reflexivity|]. split; [constructor|]. split; [reflexivity|].
    split; [lia | reflexivity].
  - cbn [Service.runMultipleScrapersSequential].
    unfold bind at 1. unfold try_catch. unfold bind at 1.
    pose proof (runScraper_full E (Service.name c) (Service.options c) w) as Hfull.
    pose proof (runScraper_draws E (Service.name c) (Service.options c) w) as Hdraws.
    pose proof (runScraper_registry E (Service.name c) (Service.options c) w) as Hreg.
    cbv zeta in Hfull.
    destruct (Service.runScraper E (Service.name c) (Service.options c) w)
      as [[r|e] w1] eqn:Hrun; cbn [snd] in Hdraws, Hreg.
    + destruct (IH w1) as (slots & w' & Heq & Hruns & Hnames & Hd & Hr).
      unfold ret at 1. cbn beta iota. unfold bind. rewrite Heq.
      exists (Service.Ran r :: slots), w'.
      split; [reflexivity|].
      split; [eapply runs_returned; [exact Hrun | exact Hruns]|].
      split.
      { cbn [map slotName]. rewrite Hnames. f_equal.
        destruct (bool_decide (Service.name c ∈ mkeys (registry w))); [|discriminate].
        apply Hfull. }
      split; [cbn [length]; lia | congruence].
    + destruct (IH w1) as (slots & w' & Heq & Hruns & Hnames & Hd & Hr).
      unfold ret at 1. cbn beta iota. unfold bind. rewrite Heq.
      exists (Service.Failed (Service.name c) e :: slots), w'.
      split; [reflexivity|].
      split; [eapply runs_threw; [exact Hrun | exact Hruns]|].
      split; [cbn [map slotName]; rewrite Hnames; reflexivity|].
      split; [cbn [length]; lia | congruence].
Qed.

Lemma sequential_runs_are_isolated_witness :
  exists r w',
    Service.runMultipleScrapersSequential Example.tickEnv
      [Example.nullConfigRun;
       {| Service.name := js "linkedin"; Service.options := Undefined |}] initialWorld
    = (Ok [Service.Failed (js "linkedin")
             (js "Cannot read properties of null (reading 'baseUrl')");
           Service.Ran r], w')
    /\ draws w' = 2%nat /\ length (scrapeHistory w') = 2%nat.
Proof.
  destruct (sequential_runs_are_isolated Example.tickEnv
              [Example.nullConfigRun;
               {| Service.name := js "linkedin"; Service.options := Undefined |}]
              initialWorld) as (slots & w' & Heq & _ & _ & Hd & _).
  pose proof Heq as Hc. vm_compute in Hc. injection Hc as Hs Hw.
  subst slots.
  match type of Heq with
  | _ = (Ok [_; Service.Ran ?r], _) => exists r, w'
  end.
  split; [|split; [exact Hd|]].
  - rewrite Heq. vm_compute. reflexivity.
  - rewrite <- Hw. reflexivity.
Defined.

(** X8: [getStatistics] changes nothing; the successful and failed counts
    it reports are not negative and add up to the total, which is the
    length of the history; the active count is the size of the active map;
    on an empty history the average duration and both job totals are 0 (no
    division takes place). *)
Theorem getStatistics_consistent (w : World) :
  exists st,
    Service.getStatistics w = (Ok st, w)
    /\ Service.totalScrapes st = Z.of_nat (length (scrapeHistory w))
    /\ Service.totalScrapes st = Service.successfulScrapes st + Service.failedScrapes st
    /\ 0 <= Service.successfulScrapes st <= Service.totalScrapes st
    /\ 0 <= Service.failedScrapes st <= Service.totalScrapes st
    /\ Service.activeScrapesCount st = Z.of_nat (length (activeScrapes w))
    /\ (scrapeHistory w = [] ->
        Service.averageDuration st = 0 /\ Service.totalJobsScraped st = 0
        /\ Service.totalJobsSaved st = 0).
Proof.
  eexists. split; [reflexivity|]. simpl.
  pose proof (List.filter_length_le h_success (scrapeHistory w)) as Hle.
  repeat split; try lia.
  - rewrite H. reflexivity.
  - rewrite H. reflexivity.
  - rewrite H. reflexivity.
Qed.

Lemma getStatistics_consistent_witness :
  exists st,
    Service.getStatistics initialWorld = (Ok st, initialWorld)
    /\ Service.totalScrapes st = 0 /\ Service.averageDuration st = 0.
Proof.
  destruct (getStatistics_consistent initialWorld)
    as (st & Heq & Htotal & _ & _ & _ & _ & Hempty).
  exists st. split; [exact Heq|]. split; [exact Htotal|].
  exact (proj1 (Hempty eq_refl)).
Defined.

(** X9: for a negative limit [-n], [getScrapeHistory] does not return the
    last entries but drops the [n] oldest and returns all the others,
    newest first ([slice(n)]). *)
Theorem getScrapeHistory_negative_limit (w : World) (limit : Z) :
  limit < 0 ->
  result (Service.getScrapeHistory (Some limit)) w
  = Ok (rev (drop (Z.to_nat (- limit)) (scrapeHistory w))).
Proof.
  intros Hl. unfold result, Service.getScrapeHistory, bind, get, ret, Service.slice. simpl.
  destruct (- limit <? 0) eqn:Hneg; [lia|].
  f_equal. f_equal.
  destruct (Z.min_spec (- limit) (Z.of_nat (length (scrapeHistory w)))) as [[_ ->]|[Hge ->]].
  - reflexivity.
  - rewrite Nat2Z.id. rewrite !drop_ge by lia. reflexivity.
Qed.

Lemma getScrapeHistory_negative_limit_witness :
  -1 < 0
  /\ result (Service.getScrapeHistory (Some (-1)))
       (set_scrapeHistory (fun _ => map (fun n =>
            {| h_id := of_Z n; h_scraperName := js "linkedin"; h_startTime := n;
               h_endTime := n; h_duration := 0; h_success := true;
               h_stats := None; h_errorCount := None; h_error := None |})
          [1; 2; 3]) initialWorld)
     = Ok (map (fun n =>
            {| h_id := of_Z n; h_scraperName := js "linkedin"; h_startTime := n;
               h_endTime := n; h_duration := 0; h_success := true;
               h_stats := None; h_errorCount := None; h_error := None |})
          [3; 2]).
Proof.
  split; [lia|].
  rewrite (getScrapeHistory_negative_limit _ (-1)); [reflexivity | lia].
Defined.


Lemma saveJob_counts E cls job c self w :
  exists c' self' w',
    Base.saveJob E (cleanJobDataOf E cls) job c (self, w) = (Ok c', (self', w'))
    /\ handled c' = handled c + 1
    /\ Base.c_saved c <= Base.c_saved c' /\ Base.c_failed c <= Base.c_failed c'
    /\ Base.c_duplicates c <= Base.c_duplicates c'
    /\ sc_jobs self' = sc_jobs self.
Proof.
  destruct (saveJob_spec E cls job c self w) as (cl & w1 & _ & Hs).
  rewrite Hs. unfold handled.
  destruct (negb (Base.validateJobData cl)).
  { eexists _, _, _. split; [reflexivity|]. simpl. repeat split; lia. }
  cbv zeta.
  destruct (dbfault E (length (dbcalls w1))).
  { eexists _, _, _. split; [reflexivity|]. simpl. repeat split; lia. }
  destruct (updateFirst (externalId cl) cl (collection w1)).
  - eexists _, _, _. split; [reflexivity|]. simpl. repeat split; lia.
  - eexists _, _, _. split; [reflexivity|]. simpl. repeat split; lia.
Qed.

Lemma saveLoop_counts E cls jobs : forall c self w,
  exists c' self' w',
    Base.saveLoop E (cleanJobDataOf E cls) jobs c (self, w) = (Ok c', (self', w'))
    /\ handled c' = handled c + Z.of_nat (length jobs)
    /\ Base.c_saved c <= Base.c_saved c' /\ Base.c_failed c <= Base.c_failed c'
    /\ Base.c_duplicates c <= Base.c_duplicates c'
    /\ sc_jobs self' = sc_jobs self.
Proof.
  induction jobs as [|job jobs IH]; intros c self w.
  - exists c, self, w. simpl. split; [reflexivity|]. repeat split; lia.
  - destruct (saveJob_counts E cls job c self w)
      as (c1 & self1 & w1 & H1 & Hh1 & Hs1 & Hf1 & Hd1 & Hj1).
    destruct (IH c1 self1 w1) as (c2 & self2 & w2 & H2 & Hh2 & Hs2 & Hf2 & Hd2 & Hj2).
    exists c2, self2, w2. cbn [Base.saveLoop]. unfold bind. rewrite H1, H2.
    split; [reflexivity|]. cbn [length]. repeat split; try lia. congruence.
Qed.

Lemma saveJobs_counts (E : Env) (cls : ScraperClass)
    (jobs : option (list Job)) (self : Scraper) (w : World) :
  let jobsToSave := default (sc_jobs self) jobs in
  exists st s',
    Base.saveJobs E (cleanJobDataOf E cls) jobs (self, w) = (Ok st, s')
    /\ saved st + duplicates st + failed st = Z.of_nat (length jobsToSave)
    /\ 0 <= saved st /\ 0 <= duplicates st /\ 0 <= failed st
    /\ total st = match jobsToSave with
                  | [] => None
                  | _ => Some (Z.of_nat (length jobsToSave))
                  end
    /\ sc_jobs (fst s') = sc_jobs self.
Proof.
  intros jobsToSave.
  unfold Base.saveJobs. unfold bind at 1. unfold Base.this, gets. cbn [fst].
  fold jobsToSave.
  destruct jobsToSave as [|j js] eqn:Hj.
  - eexists _, _. split; [reflexivity|]. simpl. repeat split; lia.
  - cbn [length Nat.eqb].
    destruct (saveLoop_counts E cls (j :: js)
                {| Base.c_saved := 0; Base.c_failed := 0; Base.c_duplicates := 0 |} self w)
      as (c' & self' & w' & Hl & Hh & Hs & Hf & Hd & Hjobs).
    unfold bind. rewrite Hl. eexists _, _. split; [reflexivity|].
    unfold handled in Hh. simpl in *. repeat split; try lia. exact Hjobs.
Qed.

(** X10: [saveJobs] never throws and counts every job exactly once: the
    saved, duplicate and failed counts are not negative and add up to the
    number of jobs it was given (the instance's own list when called without
    one).  [total] is that number, but is missing when there was no job.
    The instance's [jobs] list is left as it was. *)
Theorem saveJobs_accounts_for_every_job (E : Env) (cls : ScraperClass)
    (jobs : option (list Job)) (self : Scraper) (w : World) :
  let jobsToSave := default (sc_jobs self) jobs in
  exists st s',
    Base.saveJobs E (cleanJobDataOf E cls) jobs (self, w) = (Ok st, s')
    /\ saved st + duplicates st + failed st = Z.of_nat (length jobsToSave)
    /\ 0 <= saved st /\ 0 <= duplicates st /\ 0 <= failed st
    /\ total st = match jobsToSave with
                  | [] => None
                  | _ => Some (Z.of_nat (length jobsToSave))
                  end
    /\ sc_jobs (fst s') = sc_jobs self.
Proof. exact (saveJobs_counts E cls jobs self w). Qed.

(** X11: when the store rejects the write of a job that passes validation,
    [saveJobs] goes on: the job counts as failed, [{job, error}] with the
    store's message is appended to the instance's errors, the collection is
    unchanged and exactly one write was attempted. *)
Theorem saveJob_store_failure_is_contained (E : Env) (cls : ScraperClass) (job : Job)
    (c : Base.Counts) (self : Scraper) (w : World) (message : jsstring) :
  validWhenCleaned self job = true ->
  dbfault E (length (dbcalls w)) = Some message ->
  exists w',
    Base.saveJob E (cleanJobDataOf E cls) job c (self, w)
    = (Ok (bump_failed c),
       (set_errors (fun l => l ++ [SaveError job message]) self, w'))
    /\ collection w' = collection w
    /\ length (dbcalls w') = S (length (dbcalls w)).
Proof.
  intros Hv Hf.
  destruct (saveJob_spec E cls job c self w) as (cl & w1 & Hc & Hs).
  destruct (clean_spec E cls self job w) as (cl' & w1' & Hc' & [Hcol Hdb] & _).
  rewrite Hc in Hc'. injection Hc' as <- <-.
  rewrite (validate_cleaned _ _ _ _ _ _ _ Hc), Hv in Hs. simpl in Hs.
  rewrite <- Hdb, Hf in Hs. eexists. split; [exact Hs|].
  simpl. split; [congruence|]. rewrite length_app, <- Hdb. simpl. lia.
Qed.

Lemma saveJob_store_failure_is_contained_witness :
  let E := Example.env (Example.ticking 1000) (Example.always (Data Example.emptyPage))
             (fun _ => Some (js "connection lost")) in
  let job :=
    {| title := Some (js "Developer"); company := Some (js "Acme");
       location := Some (js "Santiago"); description := None; source := None;
       applyLink := Some (js "https://example.org/jobs/view/42");
       externalId := Some (js "linkedin-42"); tags := None; postedAt := None |} in
  let c := {| Base.c_saved := 0; Base.c_failed := 0; Base.c_duplicates := 0 |} in
  exists w',
    Base.saveJob E (cleanJobDataOf E LinkedInJobsScraper) job c
      (LinkedIn.construct emptyConfig, initialWorld)
    = (Ok (bump_failed c),
       (set_errors (fun l => l ++ [SaveError job (js "connection lost")])
          (LinkedIn.construct emptyConfig), w'))
    /\ collection w' = collection initialWorld
    /\ length (dbcalls w') = S (length (dbcalls initialWorld)).
Proof.
  intros E job c.
  apply (saveJob_store_failure_is_contained E LinkedInJobsScraper job c
           (LinkedIn.construct emptyConfig) initialWorld (js "connection lost")).
  - vm_compute. reflexivity.
  - reflexivity.
Defined.

Lemma updateFirst_other id other f docs docs' :
  externalId f = id -> is_Some id -> other <> id ->
  updateFirst id f docs = Some docs' ->
  List.filter (hasExternalId other) docs' = List.filter (hasExternalId other) docs.
Proof.
  intros Hf [i Hi] Hne. revert docs'.
  induction docs as [|d r IH]; simpl; intros docs' H; [discriminate|].
  destruct (hasExternalId id d) eqn:Hd.
  - injection H as <-. simpl.
    assert (hasExternalId other d = false) as ->.
    { apply bool_decide_eq_false. apply bool_decide_eq_true in Hd. congruence. }
    assert (hasExternalId other (assign d f) = false) as ->; [|reflexivity].
    apply bool_decide_eq_false. unfold assign. simpl. rewrite Hf, Hi. congruence.
  - destruct (updateFirst id f r) as [r'|]; [|discriminate].
    injection H as <-. simpl. rewrite (IH r' eq_refl). reflexivity.
Qed.

(** X12: saving a job that carries an external id touches only the
    documents with that id: for any other id the documents of the
    collection are the same before and after, whatever the outcome. *)
Theorem saveJob_leaves_other_ids_alone (E : Env) (cls : ScraperClass) (job : Job)
    (c : Base.Counts) (self : Scraper) (w : World) (id : jsstring)
    (other : option jsstring) :
  externalId job = Some id -> id <> [] -> other <> Some id ->
  let w' := snd (final (Base.saveJob E (cleanJobDataOf E cls) job c) (self, w)) in
  List.filter (hasExternalId other) (collection w')
  = List.filter (hasExternalId other) (collection w).
Proof.
  intros Hid Hne Hother w'. subst w'. unfold final.
  destruct (saveJob_spec E cls job c self w) as (cl & w1 & Hc & Hs).
  destruct (clean_spec E cls self job w)
    as (cl' & w1' & Hc' & [Hcol Hdb] & _ & _ & _ & _ & _ & He & Hall).
  rewrite Hc in Hc'. injection Hc' as <- <-.
  assert (externalId cl = Some id) as Hcl.
  { rewrite He; [exact Hid|]. rewrite Hid. destruct id; [contradiction|reflexivity]. }
  rewrite Hs. destruct (negb (Base.validateJobData cl)); simpl; [congruence|].
  destruct (dbfault E (length (dbcalls w1))); simpl; [congruence|].
  rewrite Hcl.
  destruct (updateFirst (Some id) cl (collection w1)) as [docs|] eqn:Hu; simpl.
  - rewrite (updateFirst_other (Some id) other cl _ _ Hcl (ltac:(eauto)) Hother Hu).
    congruence.
  - rewrite List.filter_app. simpl.
    assert (hasExternalId other (assign (newDocument (Some id)) cl) = false) as ->.
    { apply bool_decide_eq_false. rewrite (assign_allSet _ _ Hall). congruence. }
    rewrite app_nil_r. congruence.
Qed.

Lemma saveJob_leaves_other_ids_alone_witness :
  let job :=
    {| title := Some (js "Developer"); company := Some (js "Acme");
       location := Some (js "Santiago"); description := None; source := None;
       applyLink := Some (js "https://example.org/jobs/view/42");
       externalId := Some (js "linkedin-42"); tags := None; postedAt := None |} in
  let c := {| Base.c_saved := 0; Base.c_failed := 0; Base.c_duplicates := 0 |} in
  let w' := snd (final (Base.saveJob Example.tickEnv
                          (cleanJobDataOf Example.tickEnv LinkedInJobsScraper) job c)
                   (LinkedIn.construct emptyConfig, initialWorld)) in
  List.filter (hasExternalId (Some (js "linkedin-7"))) (collection w')
  = List.filter (hasExternalId (Some (js "linkedin-7"))) (collection initialWorld).
Proof.
  intros job c.
  apply (saveJob_leaves_other_ids_alone Example.tickEnv LinkedInJobsScraper job c
           (LinkedIn.construct emptyConfig) initialWorld (js "linkedin-42")
           (Some (js "linkedin-7"))).
  - reflexivity.
  - vm_compute. discriminate.
  - vm_compute. discriminate.
Defined.

Lemma fetchPage_from_succeeds E self url html :
  forall j fuel (msg : nat -> jsstring) a last w,
    (j < fuel)%nat ->
    Z.of_nat a + Z.of_nat fuel = sc_maxRetries self + 1 ->
    (forall i, (i < j)%nat ->
       net E (length (requests w) + i) (requestOf self url) = Rejected (msg i)) ->
    net E (length (requests w) + j) (requestOf self url) = Data html ->
    exists w',
      Base.fetchPage_from E fuel (Z.of_nat a) last url (self, w) = (Ok html, (self, w'))
      /\ requests w' = requests w ++ replicate (S j) (requestOf self url)
      /\ timers w' = timers w
           ++ map (fun i => sc_delayBetweenRequests self * Z.of_nat i) (seq a j)
      /\ sameStore w w' /\ sameService w w'.
Proof.
  induction j as [|j IH]; intros fuel msg a last w Hj Ha Hrej Hok;
    (destruct fuel as [|fuel]; [lia|]).
  - simpl. unfold bind at 1. unfold Base.this, gets. simpl.
    destruct (Z.of_nat a <=? sc_maxRetries self) eqn:Hle; [|lia].
    unfold try_catch, on_snd, axios_get. simpl. fold (requestOf self url).
    rewrite Nat.add_0_r in Hok. rewrite Hok. simpl. eexists. split; [reflexivity|]. simpl.
    rewrite app_nil_r. repeat split.
  - simpl. unfold bind at 1. unfold Base.this, gets. simpl.
    destruct (Z.of_nat a <=? sc_maxRetries self) eqn:Hle; [|lia].
    unfold try_catch, on_snd, axios_get. simpl. fold (requestOf self url).
    rewrite <- (Nat.add_0_r (length (requests w))), (Hrej 0%nat) by lia. simpl.
    destruct (Z.of_nat a <? sc_maxRetries self) eqn:Hlt; [|lia].
    unfold bind at 1. unfold when, Base.delay, on_snd, setTimeout, modify. simpl.
    replace (Z.of_nat a + 1) with (Z.of_nat (S a)) by lia.
    match goal with
    | |- context [Base.fetchPage_from E fuel _ _ url (self, ?w2)] =>
        destruct (IH fuel (fun i => msg (S i)) (S a) (Some (msg 0%nat)) w2)
          as (w' & Heq & Hreq & Htim & Hst & Hsv)
    end.
    + lia.
    + lia.
    + intros i Hi. simpl. rewrite length_app. simpl.
      replace (length (requests w) + 1 + i)%nat with (length (requests w) + S i)%nat by lia.
      apply Hrej. lia.
    + simpl. rewrite length_app. simpl.
      replace (length (requests w) + 1 + j)%nat with (length (requests w) + S j)%nat by lia.
      exact Hok.
    + exists w'. rewrite Heq. split; [reflexivity|].
      simpl in Hreq, Htim. split; [|split; [|split]].
      * rewrite Hreq, <- app_assoc. reflexivity.
      * rewrite Htim, <- app_assoc. reflexivity.
      * destruct Hst as [H1 H2]. split; [exact H1 | exact H2].
      * destruct Hsv as (H1 & H2 & H3 & H4). repeat split; assumption.
Qed.

(** X13: when the first [j] requests for a page are rejected and the next
    one is answered, with [j] below the retry bound, [fetchPage] returns
    that answer.  It has sent the same request [j + 1] times, has waited
    [delayBetweenRequests * i] after the [i]-th rejection, and has left the
    instance, the collection and the store calls as they were. *)
Theorem fetchPage_returns_first_answer (E : Env) (self : Scraper) (w : World)
    (url : jsstring) (html : Html) (j : nat) (msg : nat -> jsstring) :
  Z.of_nat j < sc_maxRetries self ->
  (forall i, (i < j)%nat ->
     net E (length (requests w) + i) (requestOf self url) = Rejected (msg i)) ->
  net E (length (requests w) + j) (requestOf self url) = Data html ->
  exists w',
    Base.fetchPage E url (self, w) = (Ok html, (self, w'))
    /\ requests w' = requests w ++ replicate (S j) (requestOf self url)
    /\ timers w' = timers w
         ++ map (fun i => sc_delayBetweenRequests self * Z.of_nat i) (seq 1 j)
    /\ sameStore w w'.
Proof.
  intros Hj Hrej Hok.
  destruct (fetchPage_from_succeeds E self url html j (Z.to_nat (sc_maxRetries self))
              msg 1%nat None w) as (w' & Heq & Hreq & Htim & Hst & _); try assumption; try lia.
  exists w'. unfold Base.fetchPage, bind, Base.this, gets. simpl.
  change 1 with (Z.of_nat 1). rewrite Heq. repeat split; try assumption; apply Hst.
Qed.

Lemma fetchPage_returns_first_answer_witness :
  let E := Example.env (Example.ticking 1000)
             (fun k _ => match k with
                         | O => Rejected (js "timeout")
                         | S _ => Data Example.emptyPage
                         end)
             Example.noFault in
  let self := LinkedIn.construct emptyConfig in
  let url := js "https://www.linkedin.com/jobs/search" in
  exists w',
    Base.fetchPage E url (self, initialWorld) = (Ok Example.emptyPage, (self, w'))
    /\ requests w' = requests initialWorld ++ replicate 2 (requestOf self url)
    /\ timers w' = timers initialWorld
         ++ map (fun i => sc_delayBetweenRequests self * Z.of_nat i) (seq 1 1)
    /\ sameStore initialWorld w'.
Proof.
  intros E self url.
  apply (fetchPage_returns_first_answer E self initialWorld url Example.emptyPage 1
           (fun _ => js "timeout")).
  - vm_compute. reflexivity.
  - intros i Hi. destruct i as [|i]; [reflexivity | lia].
  - reflexivity.
Defined.

(** X14: with a retry bound below 1 [fetchPage] sends no request at all:
    the loop body never runs, [lastError] is still undefined, and building
    the final message throws the TypeError of reading [message] of
    undefined. *)
Theorem fetchPage_without_attempts (E : Env) (self : Scraper) (w : World)
    (url : jsstring) :
  sc_maxRetries self < 1 ->
  Base.fetchPage E url (self, w)
  = (Throw (js "Cannot read properties of undefined (reading 'message')"), (self, w)).
Proof.
  intros Hn. unfold Base.fetchPage, bind, Base.this, gets. simpl.
  destruct (Z.to_nat (sc_maxRetries self)) as [|fuel] eqn:Hf.
  - reflexivity.
  - lia.
Qed.

Lemma fetchPage_without_attempts_witness :
  let self :=
    LinkedIn.construct
      {| cfg_baseUrl := None; cfg_source := None; cfg_timeout := None;
         cfg_maxRetries := Some (-1); cfg_delayBetweenRequests := None;
         cfg_userAgent := None; cfg_jobsPerPage := None |} in
  Base.fetchPage Example.tickEnv (js "https://www.linkedin.com/jobs/search")
    (self, initialWorld)
  = (Throw (js "Cannot read properties of undefined (reading 'message')"),
     (self, initialWorld)).
Proof.
  intros self.
  apply (fetchPage_without_attempts Example.tickEnv self initialWorld).
  vm_compute. reflexivity.
Defined.


Lemma number_or_nonzero n d : d <> 0 -> number_or n d <> 0.
Proof. intros Hd. destruct n as [[| |]|]; simpl; try assumption; discriminate. Qed.

Lemma or_else_nonempty a d : d <> [] -> or_else a d <> [].
Proof. intros Hd. destruct a as [[|c s]|]; simpl; try assumption; discriminate. Qed.

Lemma base_construct_wellConfigured cls config : wellConfigured (Base.construct cls config).
Proof.
  unfold wellConfigured, Base.construct.
  cbn [sc_source sc_userAgent sc_timeout sc_maxRetries sc_delayBetweenRequests
       sc_jobs sc_errors].
  split; [apply or_else_nonempty; vm_compute; discriminate|].
  split; [apply or_else_nonempty; vm_compute; discriminate|].
  split; [apply number_or_nonzero; discriminate|].
  split; [apply number_or_nonzero; discriminate|].
  split; [apply number_or_nonzero; discriminate|].
  split; reflexivity.
Qed.

Lemma site_construct_wellConfigured config :
  wellConfigured (Cei.construct config) /\ wellConfigured (LinkedIn.construct config).
Proof.
  split.
  - unfold Cei.construct. cbv zeta. unfold wellConfigured.
    cbn [sc_source sc_userAgent sc_timeout sc_maxRetries sc_delayBetweenRequests
         sc_jobs sc_errors].
    exact (base_construct_wellConfigured _ _).
  - unfold LinkedIn.construct. cbv zeta. unfold wellConfigured.
    cbn [sc_source sc_userAgent sc_timeout sc_maxRetries sc_delayBetweenRequests
         sc_jobs sc_errors].
    exact (base_construct_wellConfigured _ _).
Qed.

(** X15: building an instance of a registered class throws exactly when
    the configuration is [null]; otherwise the instance is of that class,
    has a source label and a user agent that are not empty, a timeout, a
    retry bound and a delay that are not 0, and empty [jobs] and [errors]
    lists, whatever the configuration holds. *)
Theorem constructed_scrapers_are_well_configured (cls : ScraperClass)
    (config : Nullable Config) :
  match Registry.instantiate cls config with
  | Ok s => config <> Null /\ sc_class s = cls /\ wellConfigured s
  | Throw _ => config = Null
  end.
Proof.
  destruct config as [| |c]; cbn [Registry.instantiate]; try reflexivity.
  - split; [discriminate|]. destruct cls; (split; [reflexivity|]).
    + apply base_construct_wellConfigured.
    + exact (proj1 (site_construct_wellConfigured _)).
    + exact (proj2 (site_construct_wellConfigured _)).
  - split; [discriminate|]. destruct cls; (split; [reflexivity|]).
    + apply base_construct_wellConfigured.
    + exact (proj1 (site_construct_wellConfigured _)).
    + exact (proj2 (site_construct_wellConfigured _)).
Qed.

(** X16: the site defaults apply only to properties the configuration
    does not have.  A timeout given as 0 ends as the base class's 10000,
    not the site's 15000 or 20000; a retry bound given as 0 ends as the
    base class's 3, not LinkedIn's 2; a base URL given as the empty string
    stays empty instead of becoming the site's address. *)
Theorem explicit_falsy_config_gets_base_defaults (config : Config) :
  (cfg_timeout config = Some 0 ->
     sc_timeout (Cei.construct config) = 10000
     /\ sc_timeout (LinkedIn.construct config) = 10000)
  /\ (cfg_timeout config = None ->
        sc_timeout (Cei.construct config) = 15000
        /\ sc_timeout (LinkedIn.construct config) = 20000)
  /\ (cfg_maxRetries config = Some 0 -> sc_maxRetries (LinkedIn.construct config) = 3)
  /\ (cfg_maxRetries config = None -> sc_maxRetries (LinkedIn.construct config) = 2)
  /\ (cfg_baseUrl config = Some [] ->
        sc_baseUrl (Cei.construct config) = []
        /\ sc_baseUrl (LinkedIn.construct config) = [])
  /\ (cfg_baseUrl config = None ->
        sc_baseUrl (Cei.construct config) = js "https://www.oficinaempleo.cl"
        /\ sc_baseUrl (LinkedIn.construct config) = js "https://www.linkedin.com").
Proof.
  unfold Cei.construct, LinkedIn.construct, Base.construct, spread.
  cbn [sc_timeout sc_maxRetries sc_baseUrl cfg_timeout cfg_maxRetries cfg_baseUrl].
  split; [|split; [|split; [|split; [|split]]]];
    intros ->; vm_compute; try split; reflexivity.
Qed.

Lemma explicit_falsy_config_gets_base_defaults_witness :
  let config :=
    {| cfg_baseUrl := Some []; cfg_source := None; cfg_timeout := Some 0;
       cfg_maxRetries := Some 0; cfg_delayBetweenRequests := None;
       cfg_userAgent := None; cfg_jobsPerPage := None |} in
  sc_timeout (Cei.construct config) = 10000
  /\ sc_maxRetries (LinkedIn.construct config) = 3
  /\ sc_baseUrl (Cei.construct config) = []
  /\ sc_timeout (Cei.construct emptyConfig) = 15000
  /\ sc_maxRetries (LinkedIn.construct emptyConfig) = 2
  /\ sc_baseUrl (LinkedIn.construct emptyConfig) = js "https://www.linkedin.com".
Proof.
  intros config.
  destruct (explicit_falsy_config_gets_base_defaults config)
    as (Ht & _ & Hr & _ & Hb & _).
  destruct (explicit_falsy_config_gets_base_defaults emptyConfig)
    as (_ & Ht' & _ & Hr' & _ & Hb').
  split; [exact (proj1 (Ht eq_refl))|].
  split; [exact (Hr eq_refl)|].
  split; [exact (proj1 (Hb eq_refl))|].
  split; [exact (proj1 (Ht' eq_refl))|].
  split; [exact (Hr' eq_refl)|].
  exact (proj2 (Hb' eq_refl)).
Defined.



Global Instance sameInstance_preorder : PreOrder sameInstance.
Proof.
  split.
  - intros a. reflexivity.
  - intros a b c H1 H2. unfold sameInstance in *. congruence.
Qed.

Lemma sameInstance_on_snd {A} (m : M World A) :
  stable sameInstance (on_snd (S := Scraper) m).
Proof. intros [a w]. unfold on_snd, sameInstance. simpl. destruct (m w). reflexivity. Qed.

Ltac instance_step :=
  lazymatch goal with
  | |- stable _ (ret _) => apply stable_ret; apply _
  | |- stable _ (throw _) => apply stable_throw; apply _
  | |- stable _ get => apply stable_get; apply _
  | |- stable _ (gets _) => apply stable_gets; apply _
  | |- stable _ Base.this => apply stable_gets; apply _
  | |- stable _ (bind _ _) => apply stable_bind; [apply _ | | intros ?]
  | |- stable _ (try_catch _ _) => apply stable_try_catch; [apply _ | | intros ?]
  | |- stable _ (when _ _) => apply stable_when; [apply _ |]
  | |- stable _ (on_snd _) => apply sameInstance_on_snd
  | |- stable _ (match ?x with _ => _ end) => destruct x
  | |- stable _ (let _ := _ in _) => cbv zeta
  end.

Lemma cei_extractJobData_instance E doc el : stable sameInstance (Cei.extractJobData E doc el).
Proof. unfold Cei.extractJobData. repeat instance_step. Qed.

Lemma linkedin_extractJobData_instance E doc el :
  stable sameInstance (LinkedIn.extractJobData E doc el).
Proof. unfold LinkedIn.extractJobData. repeat instance_step. Qed.

Lemma fetchPage_from_instance E fuel : forall attempt last url,
  stable sameInstance (Base.fetchPage_from E fuel attempt last url).
Proof.
  induction fuel as [|fuel IH]; intros attempt last url; simpl.
  - unfold Base.fetchFailed. repeat instance_step.
  - unfold Base.fetchFailed, Base.delay. repeat instance_step. apply IH.
Qed.

Lemma fetchAndParse_instance E url : stable sameInstance (Base.fetchAndParse E url).
Proof.
  unfold Base.fetchAndParse, Base.fetchPage. repeat instance_step.
  apply fetchPage_from_instance.
Qed.

Lemma cei_eachElement_spec E doc els : forall index found self w,
  exists found' added w',
    Cei.eachElement E doc index els found (self, w)
    = (Ok (found ++ found'), (set_errors (fun _ => sc_errors self ++ added) self, w'))
    /\ Forall complete found'
    /\ (length found' + length added <= length els)%nat.
Proof.
  induction els as [|el els IH]; intros index found self w.
  - exists [], [], w. simpl. rewrite !app_nil_r. destruct self. repeat split; constructor.
  - cbn [Cei.eachElement]. unfold bind at 1. unfold try_catch. unfold bind at 1.
    pose proof (cei_extractJobData_instance E doc el (self, w)) as Hi.
    unfold sameInstance in Hi. simpl in Hi.
    destruct (Cei.extractJobData E doc el (self, w)) as [[job|e] [self1 w1]];
      simpl in Hi; subst self1.
    + destruct (truthy (title job) && truthy (company job)) eqn:Hc; simpl.
      * destruct (IH (S index) (found ++ [job]) self w1) as (f' & added & w' & Heq & Hall & Hlen).
        rewrite Heq. exists (job :: f'), added, w'. rewrite <- app_assoc. simpl.
        split; [reflexivity|]. split; [|lia].
        constructor; [|exact Hall]. apply andb_true_iff in Hc. exact Hc.
      * destruct (IH (S index) found self w1) as (f' & added & w' & Heq & Hall & Hlen).
        rewrite Heq. exists f', added, w'. split; [reflexivity|]. split; [exact Hall|lia].
    + unfold bind, on_fst, modify, ret. simpl.
      destruct (IH (S index) found (set_errors (fun l => l ++ [ExtractError index e]) self) w1)
        as (f' & added & w' & Heq & Hall & Hlen).
      rewrite Heq. exists f', (ExtractError index e :: added), w'. simpl.
      rewrite <- app_assoc. simpl.
      split; [reflexivity|]. split; [exact Hall|lia].
Qed.

Lemma linkedin_eachElement_spec E doc els : forall index found self w,
  exists found' w',
    LinkedIn.eachElement E doc index els found (self, w) = (Ok (found ++ found'), (self, w'))
    /\ Forall complete found'
    /\ (length found' <= length els)%nat.
Proof.
  induction els as [|el els IH]; intros index found self w.
  - exists [], w. simpl. rewrite !app_nil_r. repeat split; constructor.
  - cbn [LinkedIn.eachElement]. unfold bind at 1. unfold try_catch. unfold bind at 1.
    pose proof (linkedin_extractJobData_instance E doc el (self, w)) as Hi.
    unfold sameInstance in Hi. simpl in Hi.
    destruct (LinkedIn.extractJobData E doc el (self, w)) as [[job|e] [self1 w1]];
      simpl in Hi; subst self1.
    + destruct (truthy (title job) && truthy (company job)) eqn:Hc; simpl.
      * destruct (IH (S index) (found ++ [job]) self w1) as (f' & w' & Heq & Hall & Hlen).
        rewrite Heq. exists (job :: f'), w'. rewrite <- app_assoc. simpl.
        split; [reflexivity|]. split; [|lia].
        constructor; [|exact Hall]. apply andb_true_iff in Hc. exact Hc.
      * destruct (IH (S index) found self w1) as (f' & w' & Heq & Hall & Hlen).
        rewrite Heq. exists f', w'. split; [reflexivity|]. split; [exact Hall|lia].
    + unfold ret. simpl.
      destruct (IH (S index) found self w1) as (f' & w' & Heq & Hall & Hlen).
      rewrite Heq. exists f', w'. split; [reflexivity|]. split; [exact Hall|lia].
Qed.

(** X17: [extractJobsFromPage] never throws and never touches the store.
    Every job it returns has a title and a company; a card without one of them
    is dropped, and a card whose extraction throws is recorded in the CEI
    instance's errors, so that the jobs and the new errors together are at
    most as many as the cards the selector matched.  The LinkedIn scraper
    records no error and leaves its instance as it was. *)
Theorem extractJobsFromPage_keeps_complete_listings (E : Env) (doc : Html)
    (self : Scraper) (w : World) :
  (exists found added w',
     Cei.extractJobsFromPage E doc (self, w)
     = (Ok found, (set_errors (fun _ => sc_errors self ++ added) self, w'))
     /\ Forall complete found
     /\ (length found + length added
         <= length (select doc (js ".job-listing, .job-card, article.job, .vacancy-item")))%nat
     /\ sameStore w w')
  /\ (exists found w',
        LinkedIn.extractJobsFromPage E doc (self, w) = (Ok found, (self, w'))
        /\ Forall complete found
        /\ (length found
            <= length (select doc
                 (js "li.jobs-search__results-list > div, ul.jobs-search__results-list > li")))%nat
        /\ sameStore w w').
Proof.
  split.
  - unfold Cei.extractJobsFromPage.
    pose proof (stable_cei_extractJobsFromPage E sameStore (sameStore_now E) doc (self, w)) as Hs.
    unfold Cei.extractJobsFromPage in Hs.
    destruct (cei_eachElement_spec E doc
                (select doc (js ".job-listing, .job-card, article.job, .vacancy-item"))
                0%nat [] self w) as (found & added & w' & Heq & Hall & Hlen).
    rewrite Heq in Hs |- *. exists found, added, w'. repeat split; try assumption; apply Hs.
  - unfold LinkedIn.extractJobsFromPage.
    pose proof (stable_linkedin_extractJobsFromPage E sameStore (sameStore_now E) doc (self, w)) as Hs.
    unfold LinkedIn.extractJobsFromPage in Hs.
    destruct (linkedin_eachElement_spec E doc
                (select doc
                   (js "li.jobs-search__results-list > div, ul.jobs-search__results-list > li"))
                0%nat [] self w) as (found & w' & Heq & Hall & Hlen).
    rewrite Heq in Hs |- *. exists found, w'. repeat split; try assumption; apply Hs.
Qed.

Lemma eachElement_nil_cei E doc index found s :
  Cei.eachElement E doc index [] found s = (Ok found, s).
Proof. reflexivity. Qed.

(** X18: a page on which the listing selector matches nothing ends the
    page loop of either scraper: when the request for the current page is
    answered with such a page, the loop returns after that one request,
    with no job added, no delay and no further page asked for, however many
    pages were allowed. *)
Theorem pageLoop_stops_at_empty_page (E : Env) (self : Scraper) (w : World)
    (fuel : nat) (page : Z) (query location : jsstring) (maxPages : Z)
    (url : jsstring) (doc : Html) :
  1 <= sc_maxRetries self ->
  net E (length (requests w)) (requestOf self url) = Data doc ->
  (page <= maxPages ->
   result (Cei.buildSearchUrl E query location page) (self, w) = Ok url ->
   select doc (js ".job-listing, .job-card, article.job, .vacancy-item") = [] ->
   Cei.pageLoop E (S fuel) page query location maxPages (self, w)
   = (Ok tt, (self, set_requests (fun l => l ++ [requestOf self url]) w)))
  /\ (page < maxPages ->
      result (LinkedIn.buildSearchUrl E query location (page * 25)) (self, w) = Ok url ->
      select doc (js "li.jobs-search__results-list > div, ul.jobs-search__results-list > li")
      = [] ->
      LinkedIn.pageLoop E (S fuel) page query location maxPages (self, w)
      = (Ok tt, (self, set_requests (fun l => l ++ [requestOf self url]) w))).
Proof.
  intros Hretries Hnet.
  assert (Hfetch : Base.fetchAndParse E url (self, w)
                   = (Ok doc, (self, set_requests (fun l => l ++ [requestOf self url]) w))).
  { unfold Base.fetchAndParse, Base.fetchPage, bind, Base.this, gets. simpl.
    destruct (Z.to_nat (sc_maxRetries self)) as [|f] eqn:Hf; [lia|].
    simpl. unfold bind, Base.this, gets. simpl.
    destruct (1 <=? sc_maxRetries self) eqn:Hle; [|lia].
    unfold try_catch, on_snd, axios_get. simpl. fold (requestOf self url).
    rewrite Hnet. reflexivity. }
  split.
  - intros Hpage Hurl Hsel.
    cbn [Cei.pageLoop]. destruct (page <=? maxPages) eqn:Hle; [|lia].
    unfold bind at 1. unfold result in Hurl.
    assert (Cei.buildSearchUrl E query location page (self, w) = (Ok url, (self, w))) as ->.
    { revert Hurl. unfold Cei.buildSearchUrl, bind, Base.this, gets, ret, throw. simpl.
      destruct (newURL E _ _ _); simpl; intros H; [congruence | discriminate]. }
    unfold bind at 1. rewrite Hfetch.
    unfold bind at 1. unfold Cei.extractJobsFromPage. rewrite Hsel. reflexivity.
  - intros Hpage Hurl Hsel.
    cbn [LinkedIn.pageLoop]. destruct (page <? maxPages) eqn:Hlt; [|lia].
    cbv zeta. unfold bind at 1. unfold result in Hurl.
    assert (LinkedIn.buildSearchUrl E query location (page * 25) (self, w)
            = (Ok url, (self, w))) as ->.
    { revert Hurl. unfold LinkedIn.buildSearchUrl, bind, Base.this, gets, ret, throw. simpl.
      destruct (newURL E _ _ _); simpl; intros H; [congruence | discriminate]. }
    unfold bind at 1. rewrite Hfetch.
    unfold bind at 1. unfold LinkedIn.extractJobsFromPage. rewrite Hsel. reflexivity.
Qed.

Lemma pageLoop_stops_at_empty_page_witness :
  exists url,
    Cei.pageLoop Example.tickEnv 3 1 [] [] 3 (Cei.construct emptyConfig, initialWorld)
    = (Ok tt, (Cei.construct emptyConfig,
               set_requests (fun l => l ++ [requestOf (Cei.construct emptyConfig) url])
                 initialWorld)).
Proof.
  eexists.
  refine (proj1 (pageLoop_stops_at_empty_page Example.tickEnv (Cei.construct emptyConfig)
                   initialWorld 2 1 [] [] 3 _ Example.emptyPage _ _) _ _ _).
  - vm_compute. discriminate.
  - reflexivity.
  - lia.
  - vm_compute. reflexivity.
  - reflexivity.
Defined.

Lemma scrape_outcome E (loop : Base.SM unit) (cls : ScraperClass) (s0 : Scraper * World) :
  sameStore (snd s0) (snd (snd (loop s0))) ->
  let run :=
    try_catch
      (loop;;
       results <- Base.saveJobs E (cleanJobDataOf E cls) None;;
       self <- Base.this;;
       ret {| success := true; jobs := sc_jobs self; stats := results;
              errors := sc_errors self |})
      (fun message =>
         on_fst (modify (set_errors (fun l => l ++ [ScrapeError message])));;
         self <- Base.this;;
         ret {| success := false; jobs := sc_jobs self;
                stats := {| saved := 0; duplicates := 0; failed := 0; total := Some 0 |};
                errors := sc_errors self |}) in
  exists r s',
    run s0 = (Ok r, s')
    /\ jobs r = sc_jobs (fst s') /\ errors r = sc_errors (fst s')
    /\ (success r = false ->
        stats r = {| saved := 0; duplicates := 0; failed := 0; total := Some 0 |}
        /\ (exists message, errors r = sc_errors (fst (snd (loop s0))) ++ [ScrapeError message])
        /\ sameStore (snd s0) (snd s'))
    /\ (success r = true ->
        saved (stats r) + duplicates (stats r) + failed (stats r)
        = Z.of_nat (length (jobs r))
        /\ total (stats r) = match jobs r with
                             | [] => None
                             | _ => Some (Z.of_nat (length (jobs r)))
                             end).
Proof.
  intros Hs run. subst run. unfold try_catch. unfold bind at 1.
  destruct (loop s0) as [[u|e] [self1 w1]]; simpl in Hs.
  - destruct (saveJobs_counts E cls None self1 w1)
      as (st & [self2 w2] & Heq & Hsum & _ & _ & _ & Htot & Hjobs).
    simpl in Hsum, Htot, Hjobs.
    unfold bind at 1. rewrite Heq.
    unfold bind, Base.this, gets, ret. simpl.
    eexists _, _. split; [reflexivity|]. simpl.
    split; [reflexivity|]. split; [reflexivity|].
    split; [discriminate|]. intros _. rewrite Hjobs. split; assumption.
  - unfold bind, on_fst, modify, Base.this, gets, ret. simpl.
    eexists _, _. split; [reflexivity|]. simpl.
    split; [reflexivity|]. split; [reflexivity|].
    split; [|discriminate]. intros _. split; [reflexivity|]. split; [eauto|exact Hs].
Qed.

(** X19: [scrape] of either site scraper never throws; it returns a result
    whose [jobs] and [errors] are the instance's own lists.  When it reports
    failure the stats are all 0, an error has been recorded and nothing has
    been written to the collection; when it reports success the saved,
    duplicate and failed counts add up to the number of jobs found, and
    [total] is that number, or is missing when no job was found.  [scrape]
    of the base class throws. *)
Theorem scrape_always_returns (E : Env) (options : Options) (self : Scraper) (w : World) :
  let outcome (run : Base.SM ScrapeResult) :=
    exists r s',
      run (self, w) = (Ok r, s')
      /\ jobs r = sc_jobs (fst s') /\ errors r = sc_errors (fst s')
      /\ if success r
         then saved (stats r) + duplicates (stats r) + failed (stats r)
              = Z.of_nat (length (jobs r))
              /\ total (stats r) = match jobs r with
                                   | [] => None
                                   | _ => Some (Z.of_nat (length (jobs r)))
                                   end
         else stats r = {| saved := 0; duplicates := 0; failed := 0; total := Some 0 |}
              /\ errors r <> [] /\ sameStore w (snd s') in
  outcome (Cei.scrape E options) /\ outcome (LinkedIn.scrape E options)
  /\ result (Base.scrape options) (self, w)
     = Throw (js "scrape() method must be implemented by child class").
Proof.
  intros outcome. subst outcome. cbv beta.
  set (s0 := final Base.reset (self, w)).
  split; [|split; [|reflexivity]].
  - pose proof (pageLoop_sameStore_cei E (Z.to_nat (default 1 (o_maxPages options))) 1
                  (default [] (o_query options)) (default [] (o_location options))
                  (default 1 (o_maxPages options)) s0) as Hs.
    destruct (scrape_outcome E _ OficinaDeTrabajoCeiScraper s0 Hs)
      as (r & s' & Heq & Hj & He & Hfail & Hok).
    exists r, s'. unfold Cei.scrape. unfold bind at 1.
    change (Base.reset (self, w)) with (Ok tt, s0). cbn beta iota.
    split; [exact Heq|]. split; [exact Hj|]. split; [exact He|].
    destruct (success r); [exact (Hok eq_refl)|].
    destruct (Hfail eq_refl) as (H1 & [m Hm] & H3).
    split; [exact H1|]. split; [|exact H3].
    rewrite Hm. intros Hnil. apply app_eq_nil in Hnil as [_ Hnil]. discriminate.
  - pose proof (pageLoop_sameStore_linkedin E (Z.to_nat (default 1 (o_maxPages options))) 0
                  (default [] (o_query options)) (default [] (o_location options))
                  (default 1 (o_maxPages options)) s0) as Hs.
    destruct (scrape_outcome E _ LinkedInJobsScraper s0 Hs)
      as (r & s' & Heq & Hj & He & Hfail & Hok).
    exists r, s'. unfold LinkedIn.scrape. unfold bind at 1.
    change (Base.reset (self, w)) with (Ok tt, s0). cbn beta iota.
    split; [exact Heq|]. split; [exact Hj|]. split; [exact He|].
    destruct (success r); [exact (Hok eq_refl)|].
    destruct (Hfail eq_refl) as (H1 & [m Hm] & H3).
    split; [exact H1|]. split; [|exact H3].
    rewrite Hm. intros Hnil. apply app_eq_nil in Hnil as [_ Hnil]. discriminate.
Qed.

Lemma star_skip {R} (p : N -> bool) (k : jsstring -> option R) :
  (forall t, k t <> None) -> forall s, star p s k = k (skip p s).
Proof.
  intros Hk. induction s as [|c s IH]; simpl; [reflexivity|].
  destruct (p c); [|reflexivity].
  rewrite IH. destruct (k (skip p s)) eqn:H; [reflexivity|]. exfalso. exact (Hk _ H).
Qed.

Lemma match_here_plus ic (p : N -> bool) (s : jsstring) :
  match_here ic (Plus p) s
  = match s with
    | c :: r => if p c then Some (skip p r, []) else None
    | [] => None
    end.
Proof.
  unfold match_here. simpl. destruct s as [|c r]; [reflexivity|].
  destruct (p c); [|reflexivity].
  apply (star_skip p (fun s'' => Some (s'', []))). discriminate.
Qed.

Lemma length_skip p s : (length (skip p s) <= length s)%nat.
Proof.
  induction s as [|c s IH]; simpl; [lia|]. destruct (p c); simpl; lia.
Qed.

Lemma collapse_skip p sep s : collapse p sep true s = collapse p sep false (skip p s).
Proof.
  induction s as [|c s IH]; simpl; [reflexivity|].
  destruct (p c) eqn:Hc; [exact IH|]. simpl. rewrite Hc. reflexivity.
Qed.

Lemma replace_fuel_plus ic p sep : forall fuel s,
  (length s < fuel)%nat ->
  replace_fuel fuel ic (Plus p) sep s = collapse p sep false s.
Proof.
  induction fuel as [|fuel IH]; intros s Hlen; [lia|].
  cbn [replace_fuel]. rewrite match_here_plus.
  destruct s as [|c r]; [reflexivity|]. simpl in Hlen. cbn [collapse].
  destruct (p c).
  - pose proof (length_skip p r) as Hs.
    destruct (length (skip p r) <? length (c :: r))%nat eqn:Hlt.
    + rewrite IH by lia. rewrite collapse_skip. reflexivity.
    + apply Nat.ltb_ge in Hlt. simpl in Hlt. lia.
  - rewrite IH by lia. reflexivity.
Qed.

Lemma replaceAll_plus ic p sep s :
  replaceAll ic (Plus p) sep s = collapse p sep false s.
Proof. unfold replaceAll. apply replace_fuel_plus. lia. Qed.

Lemma NoRuns_nil p : NoRuns p [].
Proof. intros pre a b post H. destruct pre; discriminate. Qed.

Lemma NoRuns_cons p x l :
  NoRuns p l ->
  (forall y l', l = y :: l' -> p x = true -> p y = true -> False) ->
  NoRuns p (x :: l).
Proof.
  intros Hl Hx pre a b post H Ha Hb.
  destruct pre as [|x' pre]; simpl in H.
  - injection H as -> ->. exact (Hx b post eq_refl Ha Hb).
  - injection H as _ ->. exact (Hl pre a b post eq_refl Ha Hb).
Qed.

Lemma NoRuns_tail p x l : NoRuns p (x :: l) -> NoRuns p l.
Proof. intros H pre a b post ->. exact (H (x :: pre) a b post eq_refl). Qed.

Lemma NoRuns_suffix p d l : NoRuns p (d ++ l) -> NoRuns p l.
Proof.
  intros H pre a b post ->. apply (H (d ++ pre) a b post). rewrite <- app_assoc. reflexivity.
Qed.

Lemma NoRuns_rev p l : NoRuns p l -> NoRuns p (rev l).
Proof.
  intros H pre a b post Hr Ha Hb.
  apply (f_equal (@rev N)) in Hr. rewrite rev_involutive in Hr.
  rewrite rev_app_distr in Hr. simpl in Hr. rewrite <- !app_assoc in Hr. simpl in Hr.
  exact (H (rev post) b a (rev pre) Hr Hb Ha).
Qed.

Lemma collapse_true_head p sep s c t :
  collapse p sep true s = c :: t -> p c = false.
Proof.
  induction s as [|d s IH]; simpl; [discriminate|].
  destruct (p d) eqn:Hd; [exact IH|]. intros H. injection H as <- _. exact Hd.
Qed.

Lemma collapse_chars p x inrun s c :
  p x = true -> In c (collapse p [x] inrun s) -> p c = true -> c = x.
Proof.
  intros Hx. revert inrun. induction s as [|d s IH]; intros inrun; simpl; [tauto|].
  destruct (p d) eqn:Hd.
  - destruct inrun; [apply IH|]. simpl. intros [<-|Hin] Hc; [reflexivity|].
    exact (IH true Hin Hc).
  - simpl. intros [<-|Hin] Hc; [congruence|]. exact (IH false Hin Hc).
Qed.

Lemma collapse_NoRuns p x inrun s : NoRuns p (collapse p [x] inrun s).
Proof.
  revert inrun. induction s as [|d s IH]; intros inrun; simpl; [apply NoRuns_nil|].
  destruct (p d) eqn:Hd.
  - destruct inrun; [apply IH|]. simpl. apply NoRuns_cons; [apply IH|].
    intros y l' Hy _ Hpy. apply collapse_true_head in Hy. congruence.
  - apply NoRuns_cons; [apply IH|]. intros y l' _ Hpd. congruence.
Qed.

Lemma collapse_none p sep s :
  (forall c, In c s -> p c = false) -> collapse p sep false s = s.
Proof.
  induction s as [|c s IH]; intros H; simpl; [reflexivity|].
  rewrite (H c) by (left; reflexivity). rewrite IH; [reflexivity|].
  intros d Hd. apply H. right. exact Hd.
Qed.

Lemma collapse_normal p x s :
  (forall c, In c s -> p c = true -> c = x) -> NoRuns p s ->
  collapse p [x] false s = s.
Proof.
  induction s as [|c s IH]; intros Hch Hnr; simpl; [reflexivity|].
  assert (Hs : collapse p [x] false s = s).
  { apply IH; [|exact (NoRuns_tail _ _ _ Hnr)]. intros d Hd. apply Hch. right. exact Hd. }
  destruct (p c) eqn:Hc.
  - rewrite (Hch c (or_introl eq_refl) Hc). simpl. f_equal.
    destruct s as [|d s']; [reflexivity|]. simpl.
    destruct (p d) eqn:Hd.
    + exfalso. exact (Hnr [] c d s' eq_refl Hc Hd).
    + simpl in Hs. rewrite Hd in Hs. exact Hs.
  - rewrite Hs. reflexivity.
Qed.

Lemma trimStart_skip s : trimStart s = skip isSpace s.
Proof. induction s as [|c s IH]; simpl; [reflexivity|]. rewrite IH. reflexivity. Qed.

Lemma trimStart_suffix s : exists d, s = d ++ trimStart s.
Proof.
  induction s as [|c s [d IH]]; simpl; [exists []; reflexivity|].
  destruct (isSpace c); [|exists []; reflexivity].
  exists (c :: d). simpl. rewrite <- IH. reflexivity.
Qed.

Lemma trimStart_head s c t : trimStart s = c :: t -> isSpace c = false.
Proof.
  induction s as [|d s IH]; simpl; [discriminate|].
  destruct (isSpace d) eqn:Hd; [exact IH|]. intros H. injection H as <- _. exact Hd.
Qed.

Lemma trimStart_fixed s :
  (forall c t, s = c :: t -> isSpace c = false) -> trimStart s = s.
Proof.
  destruct s as [|c t]; intros H; simpl; [reflexivity|].
  rewrite (H c t eq_refl). reflexivity.
Qed.

Lemma trimStart_snoc l x : isSpace x = false -> trimStart (l ++ [x]) = trimStart l ++ [x].
Proof.
  intros Hx. induction l as [|c l IH]; simpl; [rewrite Hx; reflexivity|].
  destruct (isSpace c); [exact IH | reflexivity].
Qed.

Lemma trim_fixed s : trim (trim s) = trim s.
Proof.
  unfold trim, trimEnd.
  set (X := trimStart s).
  assert (HX : forall c t, X = c :: t -> isSpace c = false)
    by (intros c t; apply trimStart_head).
  assert (Hhead : forall c t, rev (trimStart (rev X)) = c :: t -> isSpace c = false).
  { destruct X as [|x X']; [simpl; discriminate|].
    pose proof (HX x X' eq_refl) as Hx. simpl.
    rewrite trimStart_snoc by exact Hx. rewrite rev_app_distr. simpl.
    intros c t H. injection H as <- _. exact Hx. }
  rewrite (trimStart_fixed _ Hhead). rewrite rev_involutive.
  rewrite (trimStart_fixed (trimStart (rev X))); [reflexivity|].
  intros c t. apply trimStart_head.
Qed.

Lemma trim_infix s : exists a b, s = a ++ trim s ++ b.
Proof.
  unfold trim, trimEnd.
  destruct (trimStart_suffix s) as [a Ha].
  destruct (trimStart_suffix (rev (trimStart s))) as [b Hb].
  exists a, (rev b). rewrite <- rev_app_distr, <- Hb, rev_involutive. exact Ha.
Qed.

Lemma js_space : js " " = [32%N].
Proof. vm_compute. reflexivity. Qed.

Lemma cleanText_value (s : jsstring) :
  s <> [] ->
  Base.cleanText (Some s) = trim (collapse isSpace [32%N] false s).
Proof.
  intros Hs. unfold Base.cleanText.
  destruct s as [|c r]; [contradiction|]. cbn [falsy default].
  rewrite !replaceAll_plus, js_space.
  rewrite (collapse_none isNewline); [reflexivity|].
  intros d Hd. destruct (isNewline d) eqn:Hn; [|reflexivity].
  assert (isSpace d = true) as Hsp.
  { unfold isNewline in Hn. apply N.eqb_eq in Hn. subst d. reflexivity. }
  rewrite (collapse_chars isSpace 32%N false (c :: r) d eq_refl Hd Hsp) in Hn.
  discriminate.
Qed.

Lemma cleanText_normalized (text : option jsstring) :
  let r := Base.cleanText text in
  (forall c, In c r -> isSpace c = true -> c = 32%N)
  /\ NoRuns isSpace r /\ trim r = r.
Proof.
  destruct text as [[|c s]|]; cbv zeta.
  1, 3: (split; [intros ? []|split; [apply NoRuns_nil|reflexivity]]).
  rewrite cleanText_value by discriminate.
  set (t := collapse isSpace [32%N] false (c :: s)).
  destruct (trim_infix t) as (a & b & Ht).
  split; [|split].
  - intros d Hd. apply (collapse_chars isSpace 32%N false (c :: s) d eq_refl).
    fold t. rewrite Ht. apply in_or_app. right. apply in_or_app. left. exact Hd.
  - pose proof (collapse_NoRuns isSpace 32%N false (c :: s)) as Hnr. fold t in Hnr.
    rewrite Ht in Hnr. apply NoRuns_suffix in Hnr.
    intros pre x y post Hxy. apply (Hnr pre x y (post ++ b)).
    rewrite Hxy, <- app_assoc. reflexivity.
  - apply trim_fixed.
Qed.

Lemma cleanText_of_normal (r : jsstring) :
  (forall c, In c r -> isSpace c = true -> c = 32%N) ->
  NoRuns isSpace r -> trim r = r ->
  Base.cleanText (Some r) = r.
Proof.
  intros Hch Hnr Htrim. destruct r as [|c s]; [reflexivity|].
  rewrite cleanText_value by discriminate.
  rewrite collapse_normal by assumption. exact Htrim.
Qed.

(** X20: the text [cleanText] returns has no white space but single
    spaces between other characters: every white-space character in it is
    U+0020, no two of them are adjacent, and it is its own [trim]; a
    missing or empty text gives the empty string; cleaning a cleaned text
    changes nothing. *)
Theorem cleanText_normalizes (text : option jsstring) :
  let r := Base.cleanText text in
  (forall c, In c r -> isSpace c = true -> c = 32%N)
  /\ NoRuns isSpace r /\ trim r = r
  /\ (falsy text = true -> r = [])
  /\ Base.cleanText (Some r) = r.
Proof.
  intros r. destruct (cleanText_normalized text) as (H1 & H2 & H3). fold r in H1, H2, H3.
  split; [exact H1|]. split; [exact H2|]. split; [exact H3|]. split.
  - intros Hf. subst r. unfold Base.cleanText. rewrite Hf. reflexivity.
  - apply cleanText_of_normal; assumption.
Qed.

Lemma cleanText_normalizes_witness :
  Base.cleanText None = [] /\ Base.cleanText (Some []) = []
  /\ Base.cleanText (Some (Base.cleanText (Some (js "  Senior   Developer  (remote) ")))) = js "Senior Developer (remote)".
Proof.
  split; [|split].
  - apply (proj1 (proj2 (proj2 (proj2 (cleanText_normalizes None))))). reflexivity.
  - apply (proj1 (proj2 (proj2 (proj2 (cleanText_normalizes (Some [])))))). reflexivity.
  - rewrite (proj2 (proj2 (proj2 (proj2 (cleanText_normalizes _))))).
    vm_compute. reflexivity.
Defined.

Lemma collapse_excludes p x inrun s c :
  p x = false -> In c (collapse p [x] inrun s) -> p c = false.
Proof.
  intros Hx. revert inrun. induction s as [|d s IH]; intros inrun; simpl; [tauto|].
  destruct (p d) eqn:Hd.
  - destruct inrun; [apply IH|]. simpl. intros [<-|Hin]; [exact Hx | exact (IH true Hin)].
  - simpl. intros [<-|Hin]; [exact Hd | exact (IH false Hin)].
Qed.

(** The digits [digits_aux] puts in front of the accumulator, read back. *)
Lemma digits_aux_spec : forall fuel n acc,
  (n < 10 ^ N.of_nat (S fuel))%N ->
  exists ds,
    digits_aux (S fuel) n acc = ds ++ acc
    /\ ds <> [] /\ Forall (fun c => isDigit c = true) ds
    /\ digitsValue ds = Z.of_N n.
Proof.
  induction fuel as [|fuel IH]; intros n acc Hn.
  - change (10 ^ N.of_nat 1)%N with 10%N in Hn.
    cbn [digits_aux]. apply N.ltb_lt in Hn as Hlt. rewrite Hlt.
    exists [(48 + n mod 10)%N]. apply N.ltb_lt in Hlt.
    split; [reflexivity|]. split; [discriminate|]. split.
    + repeat constructor. unfold isDigit. rewrite N.mod_small by exact Hlt.
      apply andb_true_iff. split; apply N.leb_le; lia.
    + unfold digitsValue. simpl. rewrite N.mod_small by exact Hlt. lia.
  - remember (S fuel) as f eqn:Hf. cbn [digits_aux].
    assert (Hd : isDigit (48 + n mod 10) = true).
    { unfold isDigit. pose proof (N.mod_lt n 10 ltac:(discriminate)) as Hm.
      revert Hm. generalize (n mod 10)%N. clear. intros m Hm.
      apply andb_true_iff. split; apply N.leb_le; lia. }
    destruct (n <? 10)%N eqn:Hlt.
    + apply N.ltb_lt in Hlt. exists [(48 + n mod 10)%N].
      split; [reflexivity|]. split; [discriminate|]. split; [repeat constructor; exact Hd|].
      unfold digitsValue. simpl. rewrite N.mod_small by exact Hlt. lia.
    + apply N.ltb_ge in Hlt. subst f.
      destruct (IH (n / 10)%N ((48 + n mod 10)%N :: acc)) as (ds & Heq & Hne & Hall & Hval).
      { rewrite (Nat2N.inj_succ (S fuel)), N.pow_succ_r' in Hn.
        apply N.Div0.div_lt_upper_bound. lia. }
      exists (ds ++ [(48 + n mod 10)%N]). rewrite Heq, <- app_assoc.
      split; [reflexivity|]. split; [destruct ds; discriminate|].
      split; [apply Forall_app; split; [exact Hall | repeat constructor; exact Hd]|].
      unfold digitsValue in *. rewrite fold_left_app. simpl. rewrite Hval.
      pose proof (N.div_mod n 10 ltac:(discriminate)) as Hdm.
      pose proof (N.mod_lt n 10 ltac:(discriminate)) as Hm.
      revert Hdm Hm. generalize (n mod 10)%N (n / 10)%N. clear. intros m q Hdm Hm. lia.
Qed.

Lemma of_Z_spec (z : Z) :
  exists ds,
    of_Z z = (if z <? 0 then [45%N] else []) ++ ds
    /\ ds <> [] /\ Forall (fun c => isDigit c = true) ds
    /\ digitsValue ds = Z.abs z.
Proof.
  unfold of_Z.
  destruct (digits_aux_spec (N.to_nat (N.log2 (Z.to_N (Z.abs z))))
              (Z.to_N (Z.abs z)) []) as (ds & Heq & Hne & Hall & Hval).
  { set (n := Z.to_N (Z.abs z)).
    rewrite Nat2N.inj_succ, N2Nat.id.
    destruct (N.eq_dec n 0%N) as [->|Hn0]; [reflexivity|].
    destruct (N.log2_spec n) as [_ Hlt]; [clear -Hn0; lia|].
    eapply N.lt_le_trans; [exact Hlt|].
    apply N.pow_le_mono_l. clear. lia. }
  rewrite app_nil_r in Heq. exists ds. rewrite Heq.
  split; [destruct (z <? 0); reflexivity|]. split; [exact Hne|]. split; [exact Hall|].
  rewrite Hval. lia.
Qed.

Lemma of_Z_inj (a b : Z) : of_Z a = of_Z b -> a = b.
Proof.
  intros H.
  destruct (of_Z_spec a) as (da & Ha & Hna & Hda & Hva).
  destruct (of_Z_spec b) as (db & Hb & Hnb & Hdb & Hvb).
  rewrite Ha, Hb in H.
  assert (Hhead : forall ds, ds <> [] -> Forall (fun c => isDigit c = true) ds ->
                  forall t, ds <> 45%N :: t).
  { intros ds _ Hall t ->. inversion Hall as [|? ? Hd _]. discriminate. }
  destruct (a <? 0) eqn:Sa, (b <? 0) eqn:Sb; simpl in H.
  - injection H as ->. lia.
  - exfalso. symmetry in H. exact (Hhead db Hnb Hdb _ H).
  - exfalso. exact (Hhead da Hna Hda _ H).
  - subst db. lia.
Qed.

Lemma of_Z_no_space (z : Z) (c : N) : In c (of_Z z) -> isSpace c = false.
Proof.
  destruct (of_Z_spec z) as (ds & Heq & _ & Hall & _). rewrite Heq.
  intros Hin. apply in_app_or in Hin as [Hin|Hin].
  - destruct (z <? 0); [|destruct Hin]. destruct Hin as [<-|[]]. reflexivity.
  - rewrite Forall_forall in Hall. apply list_elem_of_In in Hin.
    specialize (Hall c Hin). unfold isDigit in Hall.
    apply andb_true_iff in Hall as [H1 H2]. apply N.leb_le in H1, H2.
    unfold isSpace. repeat (apply orb_false_iff; split);
      try (apply N.eqb_neq; lia).
    apply andb_false_iff. left. apply N.leb_gt. lia.
Qed.

Lemma slug_no_space (E : Env) (s : jsstring) (c : N) :
  In c (Base.slug E s) -> isSpace c = false.
Proof.
  unfold Base.slug. rewrite replaceAll_plus.
  change (js "-") with [45%N]. apply collapse_excludes. reflexivity.
Qed.

Lemma or_else_In (a : option jsstring) (b : jsstring) (c : N) :
  In c (or_else a b) -> (exists s, a = Some s /\ In c s) \/ In c b.
Proof.
  destruct a as [[|d l]|]; simpl; intros H; try (right; exact H).
  left. exists (d :: l). split; [reflexivity | exact H].
Qed.

Lemma slugOrUnknown_no_space (E : Env) (n : nat) (field : option jsstring) (c : N) :
  In c (or_else ((fun t => substring0 n (Base.slug E t)) <$> field) (js "unknown")) ->
  isSpace c = false.
Proof.
  intros Hin. apply or_else_In in Hin as [(s & Hs & Hin)|Hin].
  - destruct field as [t|]; [|discriminate]. injection Hs as <-.
    apply (slug_no_space E t). unfold substring0 in Hin.
    rewrite <- (take_drop n (Base.slug E t)). apply in_or_app. left. exact Hin.
  - vm_compute in Hin.
    repeat (destruct Hin as [<-|Hin]; [reflexivity|]). destruct Hin.
Qed.

(** X21: the id [generateExternalId] makes is a prefix fixed by the scraper's
    source and the job's company and title, followed by the decimal clock
    reading.  The prefix and the whole id hold no white space, whatever
    [toLowerCase] does; the call reads the clock once and changes nothing
    else; and for one scraper and job two calls give the same id exactly when
    they read the same time. *)
Theorem generateExternalId_is_prefix_and_time (E : Env) (self : Scraper) (job : Job) :
  exists prefix,
    (forall c, In c prefix -> isSpace c = false)
    /\ (forall w,
          Base.generateExternalId E self job w
          = (Ok (prefix ++ of_Z (clock E (reads w))), set_reads S w))
    /\ (forall w id, result (Base.generateExternalId E self job) w = Ok id ->
          forall c, In c id -> isSpace c = false)
    /\ (forall w1 w2,
          result (Base.generateExternalId E self job) w1
          = result (Base.generateExternalId E self job) w2
          <-> clock E (reads w1) = clock E (reads w2)).
Proof.
  set (titleSlug := or_else ((fun t => substring0 50 (Base.slug E t)) <$> title job)
                            (js "unknown")).
  set (companySlug := or_else ((fun t => substring0 30 (Base.slug E t)) <$> company job)
                              (js "unknown")).
  exists (Base.slug E (sc_source self) ++ [45%N] ++ companySlug ++ [45%N]
          ++ titleSlug ++ [45%N]).
  assert (Hp : forall c,
             In c (Base.slug E (sc_source self) ++ [45%N] ++ companySlug ++ [45%N]
                   ++ titleSlug ++ [45%N]) -> isSpace c = false).
  { intros c Hin.
    repeat (apply in_app_or in Hin as [Hin|Hin]);
      try (destruct Hin as [<-|[]]; reflexivity).
    - exact (slug_no_space E _ c Hin).
    - exact (slugOrUnknown_no_space E 30 _ c Hin).
    - exact (slugOrUnknown_no_space E 50 _ c Hin). }
  assert (Heq : forall w,
             Base.generateExternalId E self job w
             = (Ok ((Base.slug E (sc_source self) ++ [45%N] ++ companySlug ++ [45%N]
                     ++ titleSlug ++ [45%N]) ++ of_Z (clock E (reads w))),
                set_reads S w)).
  { intros w. unfold Base.generateExternalId, now, bind, ret.
    change (js "-") with [45%N]. fold titleSlug companySlug.
    rewrite <- !app_assoc. reflexivity. }
  split; [exact Hp|]. split; [exact Heq|]. split.
  - intros w id. unfold result. rewrite Heq. cbn [fst]. intros [= <-] c Hin.
    apply in_app_or in Hin as [Hin|Hin]; [exact (Hp c Hin) | exact (of_Z_no_space _ c Hin)].
  - intros w1 w2. unfold result. rewrite !Heq. cbn [fst]. split.
    + intros [= H]. apply app_inv_head in H. exact (of_Z_inj _ _ H).
    + intros ->. reflexivity.
Qed.

Lemma generateExternalId_is_prefix_and_time_witness :
  let job :=
    {| title := Some (js "Senior  Developer"); company := Some (js "Acme Ltd");
       location := None; description := None; source := None; applyLink := None;
       externalId := None; tags := None; postedAt := None |} in
  let id := Base.generateExternalId Example.stillEnv (LinkedIn.construct emptyConfig) job in
  result id initialWorld = result id (final id initialWorld)
  /\ result id initialWorld = Ok (js "linkedin-jobs-acme-ltd-senior-developer-1000").
Proof.
  intros job id.
  destruct (generateExternalId_is_prefix_and_time Example.stillEnv
              (LinkedIn.construct emptyConfig) job) as (prefix & _ & _ & _ & Hsame).
  split.
  - apply Hsame. reflexivity.
  - vm_compute. reflexivity.
Defined.

Lemma cleanText_twice (text : option jsstring) :
  Base.cleanText (Some (Base.cleanText text)) = Base.cleanText text.
Proof.
  destruct (cleanText_normalized text) as (H1 & H2 & H3).
  apply cleanText_of_normal; assumption.
Qed.

Lemma trimmedLink_twice (link : option jsstring) :
  or_else (trim <$> Some (or_else (trim <$> link) [])) [] = or_else (trim <$> link) [].
Proof.
  destruct link as [s|]; [|reflexivity]. cbn [fmap option_fmap option_map or_else].
  destruct (trim s) as [|c t] eqn:Ht; [reflexivity|].
  cbn [or_else]. rewrite <- Ht, trim_fixed, Ht. reflexivity.
Qed.

Lemma filter_twice {A} (p : A -> bool) (l : list A) :
  List.filter p (List.filter p l) = List.filter p l.
Proof.
  induction l as [|a l IH]; [reflexivity|]. simpl.
  destruct (p a) eqn:Hp; simpl; rewrite ?Hp, IH; reflexivity.
Qed.

Lemma generateExternalId_truthy (E : Env) (self : Scraper) (job : Job) (w : World) :
  exists c id,
    Base.generateExternalId E self job w = (Ok (c :: id), set_reads S w).
Proof.
  unfold Base.generateExternalId, bind, now, ret. cbn beta iota.
  change (js "-") with [45%N].
  destruct (Base.slug E (sc_source self)) as [|c s]; simpl; eauto.
Qed.

(** X22: [cleanJobData] of the base class always returns, and what it
    returns is a fixed point of it: cleaning the cleaned job again, at any
    later time, gives the same job back and reads no clock, because the
    external id and the posting date it filled in are kept. *)
Theorem cleanJobData_is_idempotent (E : Env) (self : Scraper) (job : Job) (w : World) :
  exists cleaned w',
    Base.cleanJobData E self job w = (Ok cleaned, w')
    /\ forall later, Base.cleanJobData E self cleaned later = (Ok cleaned, later).
Proof.
  unfold Base.cleanJobData at 1.
  assert (Hid : exists c id w1,
             (if truthy (externalId job) then ret (default [] (externalId job))
              else Base.generateExternalId E self job) w = (Ok (c :: id), w1)).
  { destruct (externalId job) as [[|c id]|]; cbn [truthy falsy negb default].
    - destruct (generateExternalId_truthy E self job w) as (c & id & H). eauto.
    - exists c, id, w. reflexivity.
    - destruct (generateExternalId_truthy E self job w) as (c & id & H). eauto. }
  destruct Hid as (c & id & w1 & Hid).
  unfold bind at 1. rewrite Hid.
  assert (Hp : exists d w2,
             match postedAt job with
             | Some d => ret d
             | None => t <- now E;; ret (Some t)
             end w1 = (Ok d, w2)).
  { destruct (postedAt job) as [d|]; [exists d, w1 | eexists _, _]; reflexivity. }
  destruct Hp as (d & w2 & Hp).
  unfold bind at 1. rewrite Hp. unfold ret at 1.
  eexists _, _. split; [reflexivity|].
  intros later. unfold Base.cleanJobData, bind, ret.
  cbn [title company location description source applyLink externalId tags postedAt
       truthy falsy negb default].
  rewrite !cleanText_twice, trimmedLink_twice.
  destruct (tags job) as [l|]; rewrite ?filter_twice; reflexivity.
Qed.

Global Instance sameRequests_preorder : PreOrder sameRequests.
Proof.
  split.
  - intros w. reflexivity.
  - intros a b c H1 H2. unfold sameRequests in *. congruence.
Qed.

Lemma sameRequests_now E : stable sameRequests (now E).
Proof. intros w. reflexivity. Qed.

Lemma sameRequests_timer ms : stable sameRequests (setTimeout ms).
Proof. intros w. reflexivity. Qed.

Lemma sameRequests_update E id fields : stable sameRequests (updateOne E id fields).
Proof.
  intros w. unfold updateOne.
  destruct (dbfault E _); [reflexivity|].
  destruct (updateFirst _ _ _); reflexivity.
Qed.

Lemma sends_bind {A B} a b (m : Base.SM A) (k : A -> Base.SM B) :
  sendsAtMost a m -> (forall x, sendsAtMost b (k x)) -> sendsAtMost (a + b) (bind m k).
Proof.
  intros Hm Hk s. unfold bind.
  destruct (Hm s) as (Hr & sent & Hs & Hl).
  destruct (m s) as [[x|e] s1]; simpl in *.
  - destruct (Hk x s1) as (Hr' & sent' & Hs' & Hl').
    split; [congruence|]. exists (sent ++ sent').
    rewrite Hs', Hs, <- app_assoc. split; [reflexivity|].
    rewrite length_app, Hr in *. lia.
  - split; [exact Hr|]. exists sent. split; [exact Hs | lia].
Qed.

Lemma sends_try_catch {A} a b (m : Base.SM A) (h : jsstring -> Base.SM A) :
  sendsAtMost a m -> (forall e, sendsAtMost b (h e)) -> sendsAtMost (a + b) (try_catch m h).
Proof.
  intros Hm Hh s. unfold try_catch.
  destruct (Hm s) as (Hr & sent & Hs & Hl).
  destruct (m s) as [[x|e] s1]; simpl in *.
  - split; [exact Hr|]. exists sent. split; [exact Hs | lia].
  - destruct (Hh e s1) as (Hr' & sent' & Hs' & Hl').
    split; [congruence|]. exists (sent ++ sent').
    rewrite Hs', Hs, <- app_assoc. split; [reflexivity|].
    rewrite length_app, Hr in *. lia.
Qed.

Lemma sends_weaken {A} a b (m : Base.SM A) :
  (a <= b)%nat -> sendsAtMost a m -> sendsAtMost b m.
Proof.
  intros Hab Hm s. destruct (Hm s) as (Hr & sent & Hs & Hl).
  split; [exact Hr|]. exists sent. split; [exact Hs | nia].
Qed.

(** A computation that sends nothing. *)
Lemma sends_none {A} (m : Base.SM A) :
  stable (onWorld sameRequests) m ->
  (forall s, sc_maxRetries (fst (snd (m s))) = sc_maxRetries (fst s)) ->
  sendsAtMost 0 m.
Proof.
  intros Hq Hr s. split; [apply Hr|]. exists [].
  rewrite app_nil_r. split; [apply (Hq s) | simpl; lia].
Qed.

Lemma sends_none_instance {A} (m : Base.SM A) :
  stable (onWorld sameRequests) m -> stable sameInstance m -> sendsAtMost 0 m.
Proof.
  intros Hq Hi. apply sends_none; [exact Hq|].
  intros s. rewrite <- (Hi s). reflexivity.
Qed.

Lemma fetchPage_from_sends E fuel : forall attempt last url self w,
  exists r w' sent,
    Base.fetchPage_from E fuel attempt last url (self, w) = (r, (self, w'))
    /\ requests w' = requests w ++ sent /\ (length sent <= fuel)%nat.
Proof.
  induction fuel as [|fuel IH]; intros attempt last url self w.
  - cbn [Base.fetchPage_from]. unfold bind, Base.this, gets. cbn [fst snd].
    unfold Base.fetchFailed. destruct last; eexists _, w, []; rewrite app_nil_r;
      (split; [reflexivity|]); split; reflexivity.
  - cbn [Base.fetchPage_from]. unfold bind at 1. unfold Base.this, gets. cbn [fst snd].
    destruct (attempt <=? sc_maxRetries self).
    + unfold try_catch, on_snd, axios_get. cbn [fst snd].
      destruct (net E (length (requests w)) _) as [message|html].
      * set (w1 := set_requests _ w).
        assert (Hd : exists w2,
                   when (attempt <? sc_maxRetries self)
                     (Base.delay (sc_delayBetweenRequests self * attempt)) (self, w1)
                   = (Ok tt, (self, w2)) /\ requests w2 = requests w1).
        { destruct (attempt <? sc_maxRetries self); eexists; split; reflexivity. }
        destruct Hd as (w2 & Hd & Hreq). unfold bind at 1. rewrite Hd.
        destruct (IH (attempt + 1) (Some message) url self w2) as (r & w' & sent & Heq & Hs & Hl).
        rewrite Heq. eexists r, w', (_ :: sent). split; [reflexivity|].
        rewrite Hs, Hreq. subst w1. cbn [requests set_requests].
        rewrite <- app_assoc. split; [reflexivity | simpl; lia].
      * eexists _, _, [_]. split; [reflexivity|]. split; [reflexivity | simpl; lia].
    + unfold Base.fetchFailed. destruct last; eexists _, w, []; rewrite app_nil_r;
        (split; [reflexivity|]); split; simpl; first [reflexivity | lia].
Qed.

Lemma fetchAndParse_sends E url : sendsAtMost 1 (Base.fetchAndParse E url).
Proof.
  intros [self w].
  destruct (fetchPage_from_sends E (Z.to_nat (sc_maxRetries self)) 1 None url self w)
    as (r & w' & sent & Heq & Hs & Hl).
  assert (Hrun : exists r', Base.fetchAndParse E url (self, w) = (r', (self, w'))).
  { unfold Base.fetchAndParse, Base.fetchPage, bind, Base.this, gets. cbn [fst snd].
    rewrite Heq. destruct r; eexists; reflexivity. }
  destruct Hrun as (r' & ->). cbn [fst snd].
  split; [reflexivity|]. exists sent. split; [exact Hs | lia].
Qed.

Lemma sends_ret {A} (a : A) : sendsAtMost 0 (ret (S := Scraper * World) a).
Proof. intros s. split; [reflexivity|]. exists []. rewrite app_nil_r. split; [reflexivity | simpl; lia]. Qed.

Lemma sends_this : sendsAtMost 0 Base.this.
Proof. intros s. split; [reflexivity|]. exists []. rewrite app_nil_r. split; [reflexivity | simpl; lia]. Qed.

Lemma sends_set_jobs f : sendsAtMost 0 (on_fst (T := World) (modify (set_jobs f))).
Proof.
  intros [self w]. split; [destruct self; reflexivity|].
  exists []. rewrite app_nil_r. split; [reflexivity | simpl; lia].
Qed.

Lemma sends_set_errors f : sendsAtMost 0 (on_fst (T := World) (modify (set_errors f))).
Proof.
  intros [self w]. split; [destruct self; reflexivity|].
  exists []. rewrite app_nil_r. split; [reflexivity | simpl; lia].
Qed.

Lemma sends_reset : sendsAtMost 0 Base.reset.
Proof.
  intros [self w]. split; [destruct self; reflexivity|].
  exists []. rewrite app_nil_r. split; [reflexivity | simpl; lia].
Qed.

Lemma sends_delay b ms : sendsAtMost 0 (when b (Base.delay ms)).
Proof.
  destruct b; [|exact (sends_ret tt)].
  intros [self w]. split; [reflexivity|].
  exists []. rewrite app_nil_r. split; [reflexivity | simpl; lia].
Qed.

Lemma sends_cei_buildSearchUrl E q l p : sendsAtMost 0 (Cei.buildSearchUrl E q l p).
Proof.
  apply sends_none_instance; [apply stable_cei_buildSearchUrl; apply _|].
  unfold Cei.buildSearchUrl. repeat instance_step.
Qed.

Lemma sends_linkedin_buildSearchUrl E q l p :
  sendsAtMost 0 (LinkedIn.buildSearchUrl E q l p).
Proof.
  apply sends_none_instance; [apply stable_linkedin_buildSearchUrl; apply _|].
  unfold LinkedIn.buildSearchUrl. repeat instance_step.
Qed.

Lemma sends_cei_extractJobsFromPage E doc : sendsAtMost 0 (Cei.extractJobsFromPage E doc).
Proof.
  apply sends_none.
  - apply stable_cei_extractJobsFromPage; [apply _ | apply sameRequests_now].
  - intros [self w]. unfold Cei.extractJobsFromPage.
    destruct (cei_eachElement_spec E doc
                (select doc (js ".job-listing, .job-card, article.job, .vacancy-item"))
                0%nat [] self w) as (found & added & w' & Heq & _).
    rewrite Heq. destruct self; reflexivity.
Qed.

Lemma sends_linkedin_extractJobsFromPage E doc :
  sendsAtMost 0 (LinkedIn.extractJobsFromPage E doc).
Proof.
  apply sends_none.
  - apply stable_linkedin_extractJobsFromPage; [apply _ | apply sameRequests_now].
  - intros [self w]. unfold LinkedIn.extractJobsFromPage.
    destruct (linkedin_eachElement_spec E doc
                (select doc
                   (js "li.jobs-search__results-list > div, ul.jobs-search__results-list > li"))
                0%nat [] self w) as (found & w' & Heq & _).
    rewrite Heq. reflexivity.
Qed.

Lemma saveJob_retries E cls job c self w :
  sc_maxRetries (fst (snd (Base.saveJob E (cleanJobDataOf E cls) job c (self, w))))
  = sc_maxRetries self.
Proof.
  destruct (saveJob_spec E cls job c self w) as (cl & w1 & _ & Hs). rewrite Hs.
  destruct (negb (Base.validateJobData cl)); [reflexivity|]. cbv zeta.
  destruct (dbfault E (length (dbcalls w1))); [destruct self; reflexivity|].
  destruct (updateFirst (externalId cl) cl (collection w1)); reflexivity.
Qed.

Lemma saveLoop_retries E cls jobs : forall c self w,
  sc_maxRetries (fst (snd (Base.saveLoop E (cleanJobDataOf E cls) jobs c (self, w))))
  = sc_maxRetries self.
Proof.
  induction jobs as [|job jobs IH]; intros c self w; [reflexivity|].
  cbn [Base.saveLoop]. unfold bind.
  pose proof (saveJob_retries E cls job c self w) as H1.
  destruct (saveJob_counts E cls job c self w) as (c1 & self1 & w1 & Heq & _).
  rewrite Heq in H1 |- *. cbn [fst snd] in H1. rewrite IH. exact H1.
Qed.

Lemma sends_saveJobs E cls jobs : sendsAtMost 0 (Base.saveJobs E (cleanJobDataOf E cls) jobs).
Proof.
  apply sends_none.
  - apply stable_saveJobs; [apply _ | apply sameRequests_update|].
    intros self j. destruct cls; simpl.
    + apply stable_base_cleanJobData; [apply _ | apply sameRequests_now].
    + apply stable_cei_cleanJobData; [apply _ | apply sameRequests_now].
    + apply stable_base_cleanJobData; [apply _ | apply sameRequests_now].
  - intros [self w]. unfold Base.saveJobs. unfold bind at 1. unfold Base.this, gets.
    cbn [fst snd].
    destruct (length (default (sc_jobs self) jobs) =? 0)%nat; [reflexivity|].
    pose proof (saveLoop_retries E cls (default (sc_jobs self) jobs)
                  {| Base.c_saved := 0; Base.c_failed := 0; Base.c_duplicates := 0 |}
                  self w) as Hr.
    unfold bind.
    destruct (Base.saveLoop E (cleanJobDataOf E cls) (default (sc_jobs self) jobs) _ (self, w))
      as [[c|e] s']; exact Hr.
Qed.

Lemma sends_cei_pageLoop E fuel : forall page q l maxPages,
  sendsAtMost fuel (Cei.pageLoop E fuel page q l maxPages).
Proof.
  induction fuel as [|fuel IH]; intros page q l maxPages; [exact (sends_ret tt)|].
  cbn [Cei.pageLoop].
  destruct (page <=? maxPages); [|apply (sends_weaken 0); [lia | exact (sends_ret tt)]].
  change (S fuel) with (0 + (1 + (0 + fuel)))%nat.
  apply sends_bind; [apply sends_cei_buildSearchUrl | intros url].
  apply sends_bind; [apply fetchAndParse_sends | intros doc].
  apply sends_bind; [apply sends_cei_extractJobsFromPage | intros pageJobs].
  destruct (length pageJobs =? 0)%nat;
    [apply (sends_weaken 0); [lia | exact (sends_ret tt)]|].
  change fuel with (0 + (0 + (0 + fuel)))%nat.
  apply sends_bind; [apply sends_set_jobs | intros _].
  apply sends_bind; [apply sends_this | intros self].
  apply sends_bind; [apply sends_delay | intros _].
  apply IH.
Qed.

Lemma sends_linkedin_pageLoop E fuel : forall page q l maxPages,
  sendsAtMost fuel (LinkedIn.pageLoop E fuel page q l maxPages).
Proof.
  induction fuel as [|fuel IH]; intros page q l maxPages; [exact (sends_ret tt)|].
  cbn [LinkedIn.pageLoop].
  destruct (page <? maxPages); [|apply (sends_weaken 0); [lia | exact (sends_ret tt)]].
  cbv zeta.
  change (S fuel) with (0 + (1 + (0 + fuel)))%nat.
  apply sends_bind; [apply sends_linkedin_buildSearchUrl | intros url].
  apply sends_bind; [apply fetchAndParse_sends | intros doc].
  apply sends_bind; [apply sends_linkedin_extractJobsFromPage | intros pageJobs].
  destruct (length pageJobs =? 0)%nat;
    [apply (sends_weaken 0); [lia | exact (sends_ret tt)]|].
  change fuel with (0 + (0 + (0 + fuel)))%nat.
  apply sends_bind; [apply sends_set_jobs | intros _].
  apply sends_bind; [apply sends_this | intros self].
  apply sends_bind; [apply sends_delay | intros _].
  apply IH.
Qed.

Lemma sends_scrape E cls (loop : Base.SM unit) n :
  sendsAtMost n loop ->
  sendsAtMost n
    (Base.reset;;
     try_catch
       (loop;;
        results <- Base.saveJobs E (cleanJobDataOf E cls) None;;
        self <- Base.this;;
        ret {| success := true; jobs := sc_jobs self; stats := results;
               errors := sc_errors self |})
       (fun message =>
          on_fst (modify (set_errors (fun l => l ++ [ScrapeError message])));;
          self <- Base.this;;
          ret {| success := false; jobs := sc_jobs self;
                 stats := {| saved := 0; duplicates := 0; failed := 0; total := Some 0 |};
                 errors := sc_errors self |})).
Proof.
  intros Hloop.
  apply (sends_weaken (0 + ((n + (0 + (0 + 0))) + (0 + (0 + 0))))); [lia|].
  apply sends_bind; [apply sends_reset | intros _].
  apply sends_try_catch.
  - apply sends_bind; [exact Hloop | intros _].
    apply sends_bind; [apply sends_saveJobs | intros results].
    apply sends_bind; [apply sends_this | intros self]. apply sends_ret.
  - intros message.
    apply sends_bind; [apply sends_set_errors | intros _].
    apply sends_bind; [apply sends_this | intros self]. apply sends_ret.
Qed.

(** X23: a scrape sends at most [maxPages] times [maxRetries] requests, for
    the page limit asked for (1 when none is given) and the retry bound of
    the instance; requests sent before are still on record, in order, and
    the retry bound of the instance is not changed by the scrape. *)
Theorem scrape_sends_bounded_requests (E : Env) (options : Options) :
  let pages := Z.to_nat (default 1 (o_maxPages options)) in
  sendsAtMost pages (Cei.scrape E options)
  /\ sendsAtMost pages (LinkedIn.scrape E options).
Proof.
  intros pages. split.
  - apply (sends_scrape E OficinaDeTrabajoCeiScraper). apply sends_cei_pageLoop.
  - apply (sends_scrape E LinkedInJobsScraper). apply sends_linkedin_pageLoop.
Qed.

Lemma site_scrape_returns E options self w :
  sc_class self <> JobPortalScraper ->
  exists r s', Service.scrapeMethod E options (self, w) = (Ok r, s').
Proof.
  intros Hcls. unfold Service.scrapeMethod. unfold bind at 1. unfold Base.this, gets.
  cbn [fst snd].
  set (s0 := final Base.reset (self, w)).
  destruct (sc_class self); [contradiction| |].
  - pose proof (pageLoop_sameStore_cei E (Z.to_nat (default 1 (o_maxPages options))) 1
                  (default [] (o_query options)) (default [] (o_location options))
                  (default 1 (o_maxPages options)) s0) as Hs.
    destruct (scrape_outcome E _ OficinaDeTrabajoCeiScraper s0 Hs) as (r & s' & Heq & _).
    exists r, s'. unfold Cei.scrape. unfold bind at 1.
    change (Base.reset (self, w)) with (Ok tt, s0). cbn beta iota. exact Heq.
  - pose proof (pageLoop_sameStore_linkedin E (Z.to_nat (default 1 (o_maxPages options))) 0
                  (default [] (o_query options)) (default [] (o_location options))
                  (default 1 (o_maxPages options)) s0) as Hs.
    destruct (scrape_outcome E _ LinkedInJobsScraper s0 Hs) as (r & s' & Heq & _).
    exists r, s'. unfold LinkedIn.scrape. unfold bind at 1.
    change (Base.reset (self, w)) with (Ok tt, s0). cbn beta iota. exact Heq.
Qed.

Lemma instantiate_class cls config s :
  Registry.instantiate cls config = Ok s -> sc_class s = cls.
Proof.
  destruct config as [| |c]; cbn [Registry.instantiate]; [|discriminate|];
    intros [= <-]; destruct cls; reflexivity.
Qed.

Lemma runScraper_try_outcome E id name options w :
  (exists r w', Service.runScraper_try E id name options w = (Ok r, w'))
  <-> runnable name options w.
Proof.
  unfold runnable, Service.runScraper_try. split.
  - intros (r & w' & Hrun). revert Hrun. unfold bind at 1.
    destruct options as [| |o]; cbn [ret throw configOf]; [|discriminate|].
    + unfold bind at 1. unfold Registry.getScraper. unfold bind at 1. unfold get.
      cbn [o_config noOptions].
      destruct (mget name (registry w)) as [cls|]; [|discriminate].
      cbn [Registry.instantiate]. unfold Registry.alloc.
      unfold bind at 1. unfold Service.invoke. cbn [heap set_heap].
      rewrite lookup_app_r by lia. rewrite Nat.sub_diag. cbn [lookup list_lookup].
      intros Hrun. split; [discriminate|]. split; [discriminate|].
      exists cls. split; [reflexivity|]. intros ->.
      revert Hrun. unfold Service.scrapeMethod, bind, Base.this, gets. simpl. discriminate.
    + unfold bind at 1. unfold Registry.getScraper. unfold bind at 1. unfold get.
      destruct (mget name (registry w)) as [cls|]; [|discriminate].
      destruct (o_config o) as [| |c] eqn:Hc; cbn [Registry.instantiate];
        [|discriminate|].
      * unfold Registry.alloc.
        unfold bind at 1. unfold Service.invoke. cbn [heap set_heap].
        rewrite lookup_app_r by lia. rewrite Nat.sub_diag. cbn [lookup list_lookup].
        intros Hrun. split; [discriminate|]. split; [discriminate|].
        exists cls. split; [reflexivity|]. intros ->.
        revert Hrun. unfold Service.scrapeMethod, bind, Base.this, gets. simpl. discriminate.
      * unfold Registry.alloc.
        unfold bind at 1. unfold Service.invoke. cbn [heap set_heap].
        rewrite lookup_app_r by lia. rewrite Nat.sub_diag. cbn [lookup list_lookup].
        intros Hrun. split; [discriminate|]. split; [discriminate|].
        exists cls. split; [reflexivity|]. intros ->.
        revert Hrun. unfold Service.scrapeMethod, bind, Base.this, gets. simpl. discriminate.
  - intros (Hopt & Hcfg & cls & Hreg & Hcls).
    assert (Hopts : exists opts,
               match options with
               | Null => throw (js "Cannot read properties of null (reading 'config')")
               | Undefined => ret noOptions
               | Obj o => ret o
               end w = (Ok opts, w) /\ o_config opts = configOf options).
    { destruct options as [| |o]; [|contradiction|]; eexists; split; reflexivity. }
    destruct Hopts as (opts & Ho & Hc). unfold bind at 1. rewrite Ho.
    destruct (getScraper_registered name (o_config opts) w) as (s & Hget & _).
    { rewrite Hreg. eauto. }
    { rewrite Hc. exact Hcfg. }
    assert (Hs : sc_class s = cls).
    { revert Hget. unfold Registry.getScraper, bind, get. rewrite Hreg.
      destruct (Registry.instantiate cls (o_config opts)) as [s1|e] eqn:Hi; [|discriminate].
      unfold Registry.alloc. intros [= Hh].
      apply app_inv_head in Hh. injection Hh as <-.
      exact (instantiate_class _ _ _ Hi). }
    unfold bind at 1. rewrite Hget.
    unfold bind at 1. unfold Service.invoke. cbn [heap set_heap].
    rewrite lookup_app_r by lia. rewrite Nat.sub_diag. cbn [lookup list_lookup].
    destruct (site_scrape_returns E opts s (set_heap (fun h => h ++ [s]) w))
      as (r & [s1 w1] & Hrun); [congruence|].
    rewrite Hrun.
    unfold bind, modify, get, now, Service.pushHistory, when; simpl.
    repeat (rewrite mget_mdelete; simpl).
    match goal with
    | |- context [(100 <? ?n)%nat] => destruct (100 <? n)%nat
    end; simpl; eexists _, _; reflexivity.
Qed.

(** X24: [runScraper] returns exactly when its options are not [null],
    their [config] is not [null], and the name is registered with a class
    that has a [scrape] of its own; whatever the network and the store do
    then, the failure is reported inside the result.  In every other case
    it throws. *)
Theorem runScraper_returns_iff_runnable (E : Env) (name : jsstring)
    (options : Nullable Options) (w : World) :
  (exists r w', Service.runScraper E name options w = (Ok r, w'))
  <-> runnable name options w.
Proof.
  unfold Service.runScraper, Service.generateScrapeId, Registry.getAvailableScrapers.
  unfold bind at 1. unfold bind at 1. unfold now at 1. unfold bind at 1.
  unfold randomSuffix at 1. unfold ret at 1. unfold bind at 1. unfold gets at 1.
  cbn [registry set_reads set_draws].
  destruct (bool_decide (name ∈ mkeys (registry w))) eqn:Hin; cbn [negb].
  - unfold bind at 1. unfold now at 1. unfold bind at 1. unfold modify at 1.
    unfold try_catch.
    match goal with
    | |- context [Service.runScraper_try E ?i name options ?w0] =>
        pose proof (runScraper_try_outcome E i name options w0) as Hiff;
        destruct (Service.runScraper_try E i name options w0) as [[r|e] w1]
    end; unfold runnable in Hiff |- *;
      cbn [registry set_reads set_draws set_activeScrapes] in Hiff.
    + split; [intros _; apply (proj1 Hiff); eauto | eauto].
    + split.
      * intros (r & w' & Habs). revert Habs.
        unfold bind, modify, now, Service.pushHistory, throw. simpl. discriminate.
      * intros Hr. destruct (proj2 Hiff Hr) as (r & w' & Habs). discriminate.
  - split; [intros (r & w' & Habs); discriminate|].
    intros (_ & _ & cls & Hreg & _). exfalso.
    apply bool_decide_eq_false in Hin. apply Hin.
    destruct (decide (name ∈ mkeys (registry w))) as [Hi|Hn]; [exact Hi|].
    exfalso. assert (Hnone : mget name (registry w) = None).
    { apply mget_None_keys. intros Hi. apply Hn. apply list_elem_of_In. exact Hi. }
    congruence.
Qed.

Lemma runScraper_returns_iff_runnable_witness :
  exists r w',
    Service.runScraper Example.downEnv (js "linkedin") Undefined initialWorld = (Ok r, w').
Proof.
  apply (proj2 (runScraper_returns_iff_runnable Example.downEnv (js "linkedin") Undefined
                  initialWorld)).
  split; [discriminate|]. split; [discriminate|].
  exists LinkedInJobsScraper. split; [vm_compute; reflexivity | discriminate].
Defined.

Lemma star_stop {R} (p : N -> bool) (s : jsstring) (k : jsstring -> option R) :
  match s with c :: _ => p c = false | [] => True end -> star p s k = k s.
Proof. destruct s as [|c s]; simpl; [reflexivity|]. intros ->. reflexivity. Qed.

Lemma star_run {R} (p : N -> bool) (run tail : jsstring) (k : jsstring -> option R) x :
  Forall (fun c => p c = true) run -> star p tail k = Some x ->
  star p (run ++ tail) k = Some x.
Proof.
  intros Hrun Htail. induction Hrun as [|c run Hc _ IH]; simpl; [exact Htail|].
  rewrite Hc, IH. reflexivity.
Qed.

Lemma char_eq_refl ic c : char_eq ic c c = true.
Proof. unfold char_eq. destruct ic; apply N.eqb_refl. Qed.

Lemma rmatch_Lit_self {R} ic (u rest : jsstring) cs (k : jsstring -> captures -> option R) :
  rmatch ic (Lit u) (u ++ rest) cs k = k rest cs.
Proof.
  induction u as [|c u IH]; [reflexivity|].
  destruct u as [|d u].
  - simpl. rewrite char_eq_refl. reflexivity.
  - change (Lit (c :: d :: u)) with (Seq (Chr c) (Lit (d :: u))).
    cbn [rmatch app]. rewrite char_eq_refl. exact IH.
Qed.

Lemma exec_no_digit ic i r (s : jsstring) :
  (forall c, In c s -> isDigit c = false) ->
  exec ic (Seq (Group i (Plus isDigit)) r) s = None.
Proof.
  induction s as [|c s IH]; intros Hs; [reflexivity|].
  cbn [exec]. unfold match_here. cbn [rmatch].
  rewrite (Hs c) by (left; reflexivity).
  apply IH. intros d Hd. apply Hs. right. exact Hd.
Qed.

(** The leftmost match of [/(\d+)\s*unit/i] in a text that starts with a
    number, white space and the unit. *)
Lemma exec_agoPattern (unit ds sp rest : jsstring) :
  ds <> [] -> Forall (fun c => isDigit c = true) ds ->
  Forall (fun c => isSpace c = true) sp ->
  match unit with c :: _ => isDigit c = false /\ isSpace c = false | [] => False end ->
  exec true (LinkedIn.agoPattern unit) (ds ++ sp ++ unit ++ rest) = Some [(1%nat, ds)].
Proof.
  intros Hne Hds Hsp Hunit.
  destruct ds as [|d ds]; [contradiction|].
  apply Forall_cons in Hds as [Hd Hds].
  assert (Hhere : match_here true (LinkedIn.agoPattern unit) ((d :: ds) ++ sp ++ unit ++ rest)
                  = Some (rest, [(1%nat, d :: ds)])).
  { unfold match_here, LinkedIn.agoPattern. cbn [rmatch app]. rewrite Hd.
    apply star_run; [exact Hds|].
    rewrite star_stop.
    2: { destruct sp as [|c sp]; [destruct unit as [|c u]; [contradiction | apply Hunit]|].
         apply Forall_cons in Hsp as [Hc _]. cbn [app].
         unfold isDigit. unfold isSpace in Hc.
         destruct (48 <=? c)%N eqn:H1; [|reflexivity].
         destruct (c <=? 57)%N eqn:H2; [|reflexivity].
         apply N.leb_le in H1, H2. exfalso.
         assert (Hc' : isSpace c = false).
         { unfold isSpace. repeat (apply orb_false_iff; split); try (apply N.eqb_neq; lia).
           apply andb_false_iff. left. apply N.leb_gt. lia. }
         unfold isSpace in Hc'. congruence. }
    apply star_run; [exact Hsp|].
    rewrite star_stop by (destruct unit as [|c u]; [contradiction | apply Hunit]).
    rewrite rmatch_Lit_self. do 2 f_equal. f_equal. f_equal.
    replace (length (d :: ds ++ sp ++ unit ++ rest) - length (sp ++ unit ++ rest))%nat
      with (length (d :: ds)) by (cbn [length]; rewrite !length_app; lia).
    change (d :: ds ++ sp ++ unit ++ rest) with ((d :: ds) ++ sp ++ unit ++ rest).
    apply take_app_length. }
  destruct ((d :: ds) ++ sp ++ unit ++ rest) as [|c t] eqn:Ht; [discriminate|].
  cbn [exec]. rewrite Hhere. reflexivity.
Qed.

Lemma parseInt_digits (ds : jsstring) :
  ds <> [] -> Forall (fun c => isDigit c = true) ds ->
  parseInt (Some ds) = Some (digitsValue ds).
Proof.
  intros Hne Hds.
  assert (Hlead : leadingDigits ds = ds).
  { clear Hne. induction Hds as [|c l Hc _ IH]; [reflexivity|].
    simpl. rewrite Hc, IH. reflexivity. }
  destruct ds as [|d ds]; [contradiction|].
  pose proof Hds as Hd. apply Forall_cons in Hd as [Hd _].
  assert (Hstages : parseInt (Some (d :: ds))
                    = match leadingDigits (d :: ds) with
                      | [] => None
                      | l => Some (digitsValue l)
                      end).
  { assert (Hcases : (d = 48 \/ d = 49 \/ d = 50 \/ d = 51 \/ d = 52 \/ d = 53
                      \/ d = 54 \/ d = 55 \/ d = 56 \/ d = 57)%N).
    { unfold isDigit in Hd. apply andb_true_iff in Hd as [H1 H2].
      apply N.leb_le in H1, H2. lia. }
    clear -Hcases.
    repeat (destruct Hcases as [->|Hcases]; [reflexivity|]). subst d. reflexivity. }
  rewrite Hlead in Hstages. exact Hstages.
Qed.

Lemma setHours_sub (tza t n : Z) :
  setHours tza (Some t) (sub (getHours tza (Some t)) (Some n))
  = TimeClip (t - n * msPerHour).
Proof.
  unfold setHours, getHours, sub. cbn [fmap option_fmap option_map].
  unfold compose. f_equal.
  unfold UTC, MakeDate, MakeTime, Day, HourFromTime, MinFromTime, SecFromTime, msFromTime,
    LocalTime, msPerDay, msPerHour, msPerMinute, msPerSecond.
  set (l := t + tza). replace t with (l - tza) by (subst l; lia). clearbody l.
  Z.div_mod_to_equations. lia.
Qed.
Lemma MonthFromTime_range (t : Z) : 0 <= MonthFromTime t <= 11.
Proof.
  unfold MonthFromTime. cbv zeta.
  repeat match goal with
         | |- context [if ?b then _ else _] => destruct b
         end; lia.
Qed.

Lemma setDate_sub (tza t n : Z) :
  setDate tza (Some t) (sub (getDate tza (Some t)) (Some n))
  = TimeClip (t - n * msPerDay).
Proof.
  unfold setDate, getDate, sub. cbn [fmap option_fmap option_map].
  unfold compose. f_equal.
  set (l := LocalTime tza t).
  pose proof (MonthFromTime_range l) as Hm.
  unfold MakeDay. cbv zeta.
  rewrite (Z.div_small (MonthFromTime l) 12), (Z.mod_small (MonthFromTime l) 12) by lia.
  rewrite Z.add_0_r.
  unfold DateFromTime, DayWithinYear, UTC, MakeDate, TimeWithinDay, Day.
  subst l. unfold LocalTime.
  set (y := YearFromTime (t + tza)). clearbody y.
  set (b := daysBeforeMonth (isLeap y) (MonthFromTime (t + tza))). clearbody b.
  unfold msPerDay. Z.div_mod_to_equations. lia.
Qed.

Lemma star_none_app {R} (p : N -> bool) (run tail : jsstring) (k : jsstring -> option R) :
  Forall (fun c => p c = true) run ->
  (forall j, k (drop j run ++ tail) = None) ->
  star p tail k = None ->
  star p (run ++ tail) k = None.
Proof.
  intros Hrun. induction Hrun as [|c run Hc _ IH]; intros Hk Htail; [exact Htail|].
  cbn [app star]. rewrite Hc, IH; [exact (Hk 0%nat) | | exact Htail].
  intros j. exact (Hk (S j)).
Qed.

Lemma drop_cases {A} (j : nat) (l : list A) :
  drop j l = [] \/ exists d l', drop j l = d :: l' /\ In d l.
Proof.
  revert j. induction l as [|a l IH]; intros j; [left; destruct j; reflexivity|].
  destruct j as [|j]; [right; exists a, l; split; [reflexivity | left; reflexivity]|].
  destruct (IH j) as [H|(d & l' & H & Hin)]; [left; exact H|].
  right. exists d, l'. split; [exact H | right; exact Hin].
Qed.

Lemma rmatch_Lit_mismatch {R} ic c u d s cs (k : jsstring -> captures -> option R) :
  char_eq ic c d = false -> rmatch ic (Lit (c :: u)) (d :: s) cs k = None.
Proof.
  intros H. destruct u as [|e u].
  - simpl. rewrite H. reflexivity.
  - change (Lit (c :: e :: u)) with (Seq (Chr c) (Lit (e :: u))).
    cbn [rmatch]. rewrite H. reflexivity.
Qed.

Lemma digit_not_space (d : N) : isDigit d = true -> isSpace d = false.
Proof.
  unfold isDigit. intros H. apply andb_true_iff in H as [H1 H2].
  apply N.leb_le in H1, H2.
  unfold isSpace. repeat (apply orb_false_iff; split); try (apply N.eqb_neq; lia).
  apply andb_false_iff. left. apply N.leb_gt. lia.
Qed.

Lemma space_not_digit (d : N) : isSpace d = true -> isDigit d = false.
Proof.
  intros H. destruct (isDigit d) eqn:Hd; [|reflexivity].
  rewrite (digit_not_space d Hd) in H. discriminate.
Qed.

(** A text whose number is followed by another unit has no match of
    [/(\d+)\s*unit/i]. *)
Lemma exec_agoPattern_other (c1 : N) (u1 : jsstring) (c2 : N) (u2 ds sp rest : jsstring) :
  (forall d, isDigit d = true \/ isSpace d = true \/ d = c2 -> char_eq true c1 d = false) ->
  isSpace c2 = false ->
  Forall (fun c => isDigit c = true) ds ->
  Forall (fun c => isSpace c = true) sp ->
  (forall c, In c (c2 :: u2 ++ rest) -> isDigit c = false) ->
  exec true (LinkedIn.agoPattern (c1 :: u1)) (ds ++ sp ++ (c2 :: u2) ++ rest) = None.
Proof.
  intros Hc1 Hc2 Hds Hsp Hrest.
  set (tail := sp ++ (c2 :: u2) ++ rest).
  assert (Hlit : forall d s cs (k : jsstring -> captures -> option (jsstring * captures)),
             isDigit d = true \/ isSpace d = true \/ d = c2 ->
             rmatch true (Lit (c1 :: u1)) (d :: s) cs k = None).
  { intros d s cs k Hd. apply rmatch_Lit_mismatch. apply Hc1. exact Hd. }
  assert (Hspaces : forall cs (k : jsstring -> captures -> option (jsstring * captures)),
             star isSpace tail (fun s3 => rmatch true (Lit (c1 :: u1)) s3 cs k) = None).
  { intros cs k. subst tail. apply star_none_app; [exact Hsp| |].
    - intros j. destruct (drop_cases j sp) as [->|(d & l' & -> & Hin)]; cbn [app].
      + apply Hlit. right. right. reflexivity.
      + apply Hlit. right. left. rewrite Forall_forall in Hsp.
        apply Hsp. apply list_elem_of_In. exact Hin.
    - cbn [app]. rewrite star_stop by exact Hc2. apply Hlit. right. right. reflexivity. }
  assert (Htail : exec true (LinkedIn.agoPattern (c1 :: u1)) tail = None).
  { apply exec_no_digit. subst tail. intros c Hin.
    apply in_app_or in Hin as [Hin|Hin]; [|apply Hrest; exact Hin].
    apply space_not_digit. rewrite Forall_forall in Hsp.
    apply Hsp. apply list_elem_of_In. exact Hin. }
  induction Hds as [|d ds Hd Hds IH]; [exact Htail|].
  cbn [app exec]. rewrite IH.
  assert (Hhere : match_here true (LinkedIn.agoPattern (c1 :: u1)) (d :: ds ++ tail) = None).
  { unfold match_here, LinkedIn.agoPattern. cbn [rmatch]. rewrite Hd.
    apply star_none_app; [exact Hds| |].
    - intros j. destruct (drop_cases j ds) as [->|(e & l' & -> & Hin)]; cbn [app].
      + apply Hspaces.
      + rewrite Forall_forall in Hds.
        assert (He : isDigit e = true) by (apply Hds; apply list_elem_of_In; exact Hin).
        rewrite star_stop by (apply digit_not_space; exact He).
        apply Hlit. left. exact He.
    - rewrite star_stop.
      + apply Hspaces.
      + subst tail. destruct sp as [|c sp]; cbn [app].
        * apply Hrest. left. reflexivity.
        * apply space_not_digit. apply Forall_cons in Hsp as [Hc _]. exact Hc. }
  rewrite Hhere. reflexivity.
Qed.

Lemma canonicalize_digit_or_space (d : N) :
  isDigit d = true \/ isSpace d = true -> canonicalize d = d.
Proof.
  intros H.
  assert (Hd : isSpace d = true \/ (48 <= d <= 57)%N).
  { destruct H as [H|H]; [right|left; exact H].
    unfold isDigit in H. apply andb_true_iff in H as [H1 H2].
    apply N.leb_le in H1, H2. lia. }
  unfold canonicalize.
  destruct ((97 <=? d) && (d <=? 122))%N eqn:H1.
  { exfalso. apply andb_true_iff in H1 as [Ha Hb]. apply N.leb_le in Ha, Hb.
    destruct Hd as [Hd|Hd]; [|lia].
    assert (isSpace d = false); [|congruence].
    unfold isSpace. repeat (apply orb_false_iff; split); try (apply N.eqb_neq; lia).
    apply andb_false_iff. left. apply N.leb_gt. lia. }
  destruct ((224 <=? d) && (d <=? 254) && negb (d =? 247))%N eqn:H2; [|reflexivity].
  exfalso. apply andb_true_iff in H2 as [H2 _]. apply andb_true_iff in H2 as [Ha Hb].
  apply N.leb_le in Ha, Hb.
  destruct Hd as [Hd|Hd]; [|lia].
  assert (isSpace d = false); [|congruence].
  unfold isSpace. repeat (apply orb_false_iff; split); try (apply N.eqb_neq; lia).
  apply andb_false_iff. left. apply N.leb_gt. lia.
Qed.

(** A lower-case letter of a pattern matches no digit and no white space. *)
Lemma letter_mismatch (c d : N) :
  (97 <= c <= 122)%N -> isDigit d = true \/ isSpace d = true -> char_eq true c d = false.
Proof.
  intros Hc Hd. unfold char_eq. rewrite (canonicalize_digit_or_space d Hd).
  unfold canonicalize at 1.
  replace ((97 <=? c) && (c <=? 122))%N with true
    by (symmetry; apply andb_true_iff; split; apply N.leb_le; lia).
  apply N.eqb_neq. intros Heq.
  assert (Hr : (65 <= d <= 90)%N) by lia.
  destruct Hd as [Hd|Hd].
  - unfold isDigit in Hd. apply andb_true_iff in Hd as [H1 H2]. apply N.leb_le in H2. lia.
  - assert (isSpace d = false); [|congruence].
    unfold isSpace. repeat (apply orb_false_iff; split); try (apply N.eqb_neq; lia).
    apply andb_false_iff. left. apply N.leb_gt. lia.
Qed.
Lemma js_hour : js "hour" = [104; 111; 117; 114]%N.
Proof. vm_compute. reflexivity. Qed.

Lemma js_day : js "day" = [100; 97; 121]%N.
Proof. vm_compute. reflexivity. Qed.

Lemma js_week : js "week" = [119; 101; 101; 107]%N.
Proof. vm_compute. reflexivity. Qed.

Lemma js_month : js "month" = [109; 111; 110; 116; 104]%N.
Proof. vm_compute. reflexivity. Qed.

Lemma parsePostedDate_no_digit (E : Env) (text : jsstring) (w : World) :
  (forall c, In c text -> isDigit c = false) ->
  LinkedIn.parsePostedDate E text w = (Ok (Some (clock E (reads w))), set_reads S w).
Proof.
  intros Hno. unfold LinkedIn.parsePostedDate.
  destruct (falsy (Some text)); [reflexivity|].
  unfold bind, now. cbv zeta. unfold LinkedIn.agoPattern.
  rewrite !exec_no_digit by exact Hno. reflexivity.
Qed.

(** X25: how [parsePostedDate] of the LinkedIn scraper reads a relative
    date.  A text that starts with a number [n], optional white space and
    the word "hour" gives the time [n] hours before the clock reading; with
    "day" or "week" in that place, and no further digit in the text, it
    gives the time [n] days or [7 n] days before it, at any fixed offset
    of local time from UTC; the result is an Invalid Date only when that
    time is out of the range of dates.  A text with no digit at all gives
    the clock reading. *)
Theorem parsePostedDate_relative (E : Env) (w : World) (ds sp rest : jsstring) :
  ds <> [] ->
  Forall (fun c => isDigit c = true) ds ->
  Forall (fun c => isSpace c = true) sp ->
  let n := digitsValue ds in
  let t := clock E (reads w) in
  let parsed unit := result (LinkedIn.parsePostedDate E (ds ++ sp ++ unit ++ rest)) w in
  parsed (js "hour") = Ok (TimeClip (t - n * 3600000))
  /\ ((forall c, In c rest -> isDigit c = false) ->
      parsed (js "day") = Ok (TimeClip (t - n * 86400000))
      /\ parsed (js "week") = Ok (TimeClip (t - n * 7 * 86400000)))
  /\ (forall text, (forall c, In c text -> isDigit c = false) ->
        result (LinkedIn.parsePostedDate E text) w = Ok (Some t)).
Proof.
  intros Hne Hds Hsp n t parsed.
  assert (Htruthy : forall u, falsy (Some (ds ++ sp ++ u ++ rest)) = false).
  { intros u. destruct ds; [contradiction | reflexivity]. }
  assert (Hint : parseInt (capture 1 [(1%nat, ds)]) = Some n).
  { exact (parseInt_digits ds Hne Hds). }
  assert (Hmis : forall c1 c2, (97 <= c1 <= 122)%N -> char_eq true c1 c2 = false ->
             forall d, isDigit d = true \/ isSpace d = true \/ d = c2 ->
                       char_eq true c1 d = false).
  { intros c1 c2 Hc1 Hc d [Hd|[Hd| ->]]; [apply letter_mismatch; auto ..| exact Hc]. }
  split; [|split].
  - subst parsed. cbv beta. unfold result, LinkedIn.parsePostedDate.
    rewrite Htruthy. unfold bind, now. cbv zeta. cbn [fst].
    rewrite js_hour, exec_agoPattern; try assumption; [|split; reflexivity].
    unfold ret. cbn [fst]. rewrite Hint, setHours_sub. reflexivity.
  - intros Hrest.
    assert (Hno : forall u, (forall c, In c u -> isDigit c = false) ->
                  forall c, In c (u ++ rest) -> isDigit c = false).
    { intros u Hu c Hin. apply in_app_or in Hin as [Hin|Hin]; auto. }
    split.
    + subst parsed. cbv beta. unfold result, LinkedIn.parsePostedDate.
      rewrite Htruthy. unfold bind, now. cbv zeta. cbn [fst].
      rewrite js_hour, js_day.
      rewrite (exec_agoPattern_other 104 [111; 117; 114]%N 100 [97; 121]%N);
        try assumption.
      * rewrite exec_agoPattern; try assumption; [|split; reflexivity].
        unfold ret. cbn [fst]. rewrite Hint, setDate_sub. reflexivity.
      * apply Hmis; [lia | reflexivity].
      * reflexivity.
      * apply (Hno [100; 97; 121]%N).
        intros c Hc. repeat (destruct Hc as [<-|Hc]; [reflexivity|]). destruct Hc.
    + subst parsed. cbv beta. unfold result, LinkedIn.parsePostedDate.
      rewrite Htruthy. unfold bind, now. cbv zeta. cbn [fst].
      rewrite js_hour, js_day, js_week.
      assert (Hw : forall c, In c ((119 :: [101; 101; 107]) ++ rest)%N -> isDigit c = false).
      { apply (Hno [119; 101; 101; 107]%N).
        intros c Hc. repeat (destruct Hc as [<-|Hc]; [reflexivity|]). destruct Hc. }
      rewrite (exec_agoPattern_other 104 [111; 117; 114]%N 119 [101; 101; 107]%N);
        try assumption; [|apply Hmis; [lia | reflexivity] | reflexivity].
      rewrite (exec_agoPattern_other 100 [97; 121]%N 119 [101; 101; 107]%N);
        try assumption; [|apply Hmis; [lia | reflexivity] | reflexivity].
      rewrite exec_agoPattern; try assumption; [|split; reflexivity].
      unfold ret. cbn [fst]. rewrite Hint. cbn [mul].
      rewrite setDate_sub. reflexivity.
  - intros text Hno. unfold result. rewrite parsePostedDate_no_digit by exact Hno.
    reflexivity.
Qed.

Lemma parsePostedDate_relative_witness :
  result (LinkedIn.parsePostedDate Example.stillEnv (js "3 hours ago")) initialWorld
  = Ok (Some (1000 - 3 * 3600000))
  /\ result (LinkedIn.parsePostedDate Example.stillEnv (js "2 weeks ago")) initialWorld
     = Ok (Some (1000 - 14 * 86400000))
  /\ result (LinkedIn.parsePostedDate Example.stillEnv (js "Just now")) initialWorld
     = Ok (Some 1000).
Proof.
  assert (Hds : forall d, (48 <= d <= 57)%N -> Forall (fun c => isDigit c = true) [d]).
  { intros d Hd. repeat constructor. unfold isDigit.
    apply andb_true_iff. split; apply N.leb_le; lia. }
  assert (Hsp : Forall (fun c => isSpace c = true) [32%N]) by (repeat constructor).
  split; [|split].
  - destruct (parsePostedDate_relative Example.stillEnv initialWorld [51%N] [32%N]
                (js "s ago")) as (H & _); [discriminate | apply Hds; lia | exact Hsp|].
    exact H.
  - destruct (parsePostedDate_relative Example.stillEnv initialWorld [50%N] [32%N]
                (js "s ago")) as (_ & H & _); [discriminate | apply Hds; lia | exact Hsp|].
    refine (proj2 (H _)).
    intros c Hc. vm_compute in Hc.
    repeat (destruct Hc as [<-|Hc]; [reflexivity|]). destruct Hc.
  - destruct (parsePostedDate_relative Example.stillEnv initialWorld [50%N] [32%N] [])
      as (_ & _ & H); [discriminate | apply Hds; lia | exact Hsp|].
    apply H. intros c Hc. vm_compute in Hc.
    repeat (destruct Hc as [<-|Hc]; [reflexivity|]). destruct Hc.
Defined.
Lemma js_ago : js "ago" = [97; 103; 111]%N.
Proof. vm_compute. reflexivity. Qed.

Lemma agoTail_ok (sp2 rest : jsstring) (cs : captures) :
  Forall (fun c => isSpace c = true) sp2 ->
  star isSpace (sp2 ++ [97; 103; 111]%N ++ rest)
    (fun s4 => rmatch true (Lit [97; 103; 111]%N) s4 cs (fun s' cs' => Some (s', cs')))
  = Some (rest, cs).
Proof.
  intros Hsp. apply star_run; [exact Hsp|].
  rewrite star_stop by reflexivity. rewrite rmatch_Lit_self. reflexivity.
Qed.

Lemma agoTail_fail (c : N) (x : jsstring) (cs : captures) :
  isSpace c = false -> char_eq true 97 c = false ->
  star isSpace (c :: x)
    (fun s4 => rmatch true (Lit [97; 103; 111]%N) s4 cs (fun s' cs' => Some (s', cs')))
  = @None (jsstring * captures).
Proof.
  intros Hc Hm. rewrite star_stop by exact Hc. apply rmatch_Lit_mismatch. exact Hm.
Qed.

(** The unit words of the CEI pattern, before a continuation that accepts
    what follows the word and nothing that starts with "s". *)
Lemma cei_units {R} (unit x : jsstring) (cs : captures)
    (k : jsstring -> captures -> option R) (r : R) :
  In unit [js "day"; js "día"; js "days"; js "días"] ->
  k x cs = Some r ->
  (forall y cs', k (115%N :: y) cs' = None) ->
  rmatch true (Alt (Lit (js "day"))
                 (Alt (Lit (js "día")) (Alt (Lit (js "days")) (Lit (js "días")))))
    (unit ++ x) cs k = Some r.
Proof.
  intros Hunit Hk Hs.
  replace (js "day") with [100; 97; 121]%N in * by (vm_compute; reflexivity).
  replace (js "día") with [100; 237; 97]%N in * by (vm_compute; reflexivity).
  replace (js "days") with [100; 97; 121; 115]%N in * by (vm_compute; reflexivity).
  replace (js "días") with [100; 237; 97; 115]%N in * by (vm_compute; reflexivity).
  destruct Hunit as [<-|[<-|[<-|[<-|[]]]]]; cbn [rmatch Lit app];
    change (char_eq true 100 100) with true;
    change (char_eq true 97 97) with true;
    change (char_eq true 121 121) with true;
    change (char_eq true 115 115) with true;
    change (char_eq true 237 237) with true;
    change (char_eq true 97 237) with false;
    change (char_eq true 237 97) with false;
    cbn iota; rewrite ?Hs, ?Hk; reflexivity.
Qed.

Lemma cei_unit_head (unit : jsstring) :
  In unit [js "day"; js "día"; js "days"; js "días"] ->
  exists u, unit = 100%N :: u.
Proof.
  intros [<-|[<-|[<-|[<-|[]]]]]; vm_compute; eexists; reflexivity.
Qed.

Lemma rmatch_Alt_l {R} ic a b s cs (k : jsstring -> captures -> option R) x :
  rmatch ic a s cs k = Some x -> rmatch ic (Alt a b) s cs k = Some x.
Proof. intros H. cbn [rmatch]. rewrite H. reflexivity. Qed.

Lemma rmatch_Plus_cons {R} ic p d s cs (k : jsstring -> captures -> option R) :
  p d = true -> rmatch ic (Plus p) (d :: s) cs k = star p s (fun s'' => k s'' cs).
Proof. intros H. cbn [rmatch]. rewrite H. reflexivity. Qed.

(** The leftmost match of the CEI pattern in a text that starts with a
    number, a unit word and "ago": its first group is the number. *)
Lemma exec_daysAgoPattern (ds sp unit sp2 rest : jsstring) :
  ds <> [] -> Forall (fun c => isDigit c = true) ds ->
  Forall (fun c => isSpace c = true) sp ->
  In unit [js "day"; js "día"; js "days"; js "días"] ->
  Forall (fun c => isSpace c = true) sp2 ->
  exists groups,
    exec true Cei.daysAgoPattern (ds ++ sp ++ unit ++ sp2 ++ js "ago" ++ rest) = Some groups
    /\ capture 1 groups = Some ds.
Proof.
  intros Hne Hds Hsp Hunit Hsp2.
  destruct ds as [|d ds]; [contradiction|].
  apply Forall_cons in Hds as [Hd Hds].
  destruct (cei_unit_head unit Hunit) as (u & Hu).
  rewrite js_ago.
  set (tail := sp ++ unit ++ sp2 ++ [97; 103; 111]%N ++ rest).
  assert (Hhere : exists g,
             match_here true Cei.daysAgoPattern (d :: ds ++ tail)
             = Some (rest, [(2%nat, g); (1%nat, d :: ds)])).
  { eexists. unfold match_here, Cei.daysAgoPattern.
    apply rmatch_Alt_l.
    change (rmatch true (Seq ?r1 ?r2) ?s ?cs ?k)
      with (rmatch true r1 s cs (fun s' cs' => rmatch true r2 s' cs' k)).
    change (rmatch true (Group 1 ?r) ?s ?cs ?k)
      with (rmatch true r s cs
              (fun s' cs' => k s' ((1%nat, take (length s - length s') s) :: cs'))).
    rewrite rmatch_Plus_cons by exact Hd.
    apply star_run; [exact Hds|].
    rewrite star_stop.
    2: { subst tail. destruct sp as [|c sp]; cbn [app].
         - rewrite Hu. reflexivity.
         - apply space_not_digit. apply Forall_cons in Hsp as [Hc _]. exact Hc. }
    replace (take (length (d :: ds ++ tail) - length tail) (d :: ds ++ tail)) with (d :: ds).
    2: { replace (length (d :: ds ++ tail) - length tail)%nat with (length (d :: ds))
           by (cbn [length]; rewrite length_app; lia).
         symmetry. apply (take_app_length (d :: ds)). }
    change (rmatch true (Seq (Star isSpace) ?r2) ?s ?cs ?k)
      with (star isSpace s (fun s' => rmatch true r2 s' cs k)).
    subst tail. apply star_run; [exact Hsp|].
    rewrite star_stop by (rewrite Hu; reflexivity).
    change (rmatch true (Seq (Group 2 ?r) ?r2) ?s ?cs ?k)
      with (rmatch true r s cs
              (fun s' cs' =>
                 rmatch true r2 s' ((2%nat, take (length s - length s') s) :: cs') k)).
    apply cei_units; [exact Hunit| |].
    - rewrite js_ago.
      change (rmatch true (Seq (Star isSpace) ?r2) ?s ?cs ?k)
        with (star isSpace s (fun s' => rmatch true r2 s' cs k)).
      rewrite agoTail_ok by exact Hsp2. reflexivity.
    - intros y cs'. rewrite js_ago.
      change (rmatch true (Seq (Star isSpace) ?r2) ?s ?cs ?k)
        with (star isSpace s (fun s' => rmatch true r2 s' cs k)).
      apply agoTail_fail; reflexivity. }
  destruct Hhere as (g & Hhere).
  exists [(2%nat, g); (1%nat, d :: ds)]. split; [|reflexivity].
  cbn [app exec]. fold tail. rewrite Hhere. reflexivity.
Qed.

(** X26: how [extractPostedDate] of the CEI scraper reads a relative date.
    When the text of the date element, trimmed, starts with a number [n],
    optional white space, one of "day", "día", "days", "días", optional
    white space and "ago", the posting date is the time [n] days before the
    clock reading, at any fixed offset of local time from UTC and whatever
    follows; it is an Invalid Date only when that time is out of the range
    of dates. *)
Theorem extractPostedDate_days_ago (E : Env) (doc : Html) (element : Element) (w : World)
    (ds sp unit sp2 rest : jsstring) :
  ds <> [] ->
  Forall (fun c => isDigit c = true) ds ->
  Forall (fun c => isSpace c = true) sp ->
  In unit [js "day"; js "día"; js "days"; js "días"] ->
  Forall (fun c => isSpace c = true) sp2 ->
  Base.extractText doc (js ".posted-date, .date, time, .publish-date") (Some element)
  = ds ++ sp ++ unit ++ sp2 ++ js "ago" ++ rest ->
  Cei.extractPostedDate E doc element w
  = (Ok (TimeClip (clock E (reads w) - digitsValue ds * 86400000)), set_reads S w).
Proof.
  intros Hne Hds Hsp Hunit Hsp2 Htext.
  destruct (exec_daysAgoPattern ds sp unit sp2 rest Hne Hds Hsp Hunit Hsp2)
    as (groups & Hexec & Hcap).
  unfold Cei.extractPostedDate. cbv zeta. rewrite Htext, Hexec.
  match goal with
  | |- context [falsy ?x] =>
      assert (Hf : falsy x = false) by (destruct ds; [contradiction | reflexivity]);
      rewrite Hf
  end.
  unfold bind, now, ret. rewrite Hcap, (parseInt_digits ds Hne Hds), setDate_sub.
  reflexivity.
Qed.

Lemma extractPostedDate_days_ago_witness :
  Cei.extractPostedDate Example.stillEnv Example.emptyPage (dateElement (js "5 days ago"))
    initialWorld
  = (Ok (Some (1000 - 5 * 86400000)), set_reads S initialWorld).
Proof.
  apply (extractPostedDate_days_ago Example.stillEnv Example.emptyPage
           (dateElement (js "5 days ago")) initialWorld [53%N] [32%N] (js "days") [32%N] []).
  - discriminate.
  - repeat constructor.
  - repeat constructor.
  - right. right. left. reflexivity.
  - repeat constructor.
  - vm_compute. reflexivity.
Defined.
